(** * Multi-Crypto Taskbar Monitor: a shallow embedding of [btc_taskbar_monitor.pyw]

    The development follows the class [BTCTaskbarMonitor]:
    - Python values, exceptions and the built-ins the program calls;
    - the symbol catalog [available_currencies];
    - [load_settings] / [save_settings] over a model of the settings file;
    - the currency selector ([show_currency_selector], [apply_currency_selection],
      [start_websocket_connections], [reconnect]);
    - the coroutine [connect_binance_websocket], both run from one await to
      the next and step by step, one access to shared data at a time;
    - the program as a transition system in which the threads of the
      coroutines and the Tk thread interleave;
    - the price formatting done inside the receive loop;
    - the labels of the window.

    Dictionaries that are only looked up and updated are [gmap]s; the catalog
    and [currency_vars], whose iteration order the program relies on, are
    association lists. *)

From Stdlib Require Import ZArith QArith Qabs Ascii String Floats.SpecFloat.
From stdpp Require Import base option list strings gmap.

Local Open Scope string_scope.
Local Open Scope nat_scope.
Local Open Scope list_scope.

(** ** Python values and exceptions *)

(** The values [json.load] / [json.loads] can return: objects decode to
    dictionaries with string keys (kept in insertion order, one binding
    per key), arrays to lists. *)
#[warnings="-register-all"]
Inductive pyval : Type :=
  | PyNone
  | PyBool (b : bool)
  | PyInt (z : Z)
  | PyFloat (f : spec_float)
  | PyStr (s : string)
  | PyList (l : list pyval)
  | PyDict (d : list (string * pyval)).

(** The exception classes that occur in the modelled code. *)
Inductive exn : Type :=
  | KeyError
  | ValueError
  | JSONDecodeError
  | TypeError
  | AttributeError
  | OverflowError
  | OSError
  | ConnectionClosedError.

Global Instance exn_eq_dec : EqDecision exn.
Proof. solve_decision. Defined.

(** [issubclass e ValueError]: [json.JSONDecodeError] derives from
    [ValueError]. *)
Definition is_ValueError (e : exn) : bool :=
  match e with
  | ValueError | JSONDecodeError => true
  | _ => false
  end.

(** A computation that returns or raises. *)
Inductive result (A : Type) : Type :=
  | Ok (a : A)
  | Raise (e : exn).
Arguments Ok {A} a.
Arguments Raise {A} e.

Global Instance result_ret : MRet result := λ A a, Ok a.
Global Instance result_bind : MBind result := λ A B k r,
  match r with
  | Ok a => k a
  | Raise e => Raise e
  end.

(** [try: r except Exception: h] (every class of [exn] derives from
    [Exception]). *)
Definition try_except {A} (r : result A) (h : exn → result A) : result A :=
  match r with
  | Ok a => Ok a
  | Raise e => h e
  end.

(** ** The symbol catalog *)

Record currency_info := CurrencyInfo {
  symbol : string;
  name : string;
  icon : string
}.

(** [self.available_currencies], in the order of the dict literal. *)
Definition available_currencies : list (string * currency_info) :=
  [ ("BTC",   CurrencyInfo "btcusdt"   "Bitcoin"  "₿");
    ("ETH",   CurrencyInfo "ethusdt"   "Ethereum" "Ξ");
    ("BNB",   CurrencyInfo "bnbusdt"   "BNB"      "●");
    ("TRX",   CurrencyInfo "trxusdt"   "TRON"     "◊");
    ("ASTER", CurrencyInfo "asterusdt" "Asterdex" "✦") ].

Definition catalog_codes : list string := available_currencies.*1.

(** [c in self.available_currencies] for a string [c]. *)
Definition in_catalog (c : string) : bool := bool_decide (c ∈ catalog_codes).

(** ** Built-ins used on decoded JSON *)

(** Lookup in a dictionary kept as an association list. *)
Fixpoint assoc_lookup {A} (k : string) (d : list (string * A)) : option A :=
  match d with
  | [] => None
  | (k', v) :: d' => if decide (k = k') then Some v else assoc_lookup k d'
  end.

(** [o.get(key, dflt)]: of the values JSON decodes to, only dictionaries
    have the method. *)
Definition py_get (o : pyval) (key : string) (dflt : pyval) : result pyval :=
  match o with
  | PyDict d => Ok (default dflt (assoc_lookup key d))
  | _ => Raise AttributeError
  end.

(** [for c in o]: lists yield their items, dictionaries their keys, strings
    their characters (one-character strings; bytes here, code points in
    Python, and neither is ever a catalog code); anything else JSON can
    produce is not iterable. *)
Fixpoint py_chars (s : string) : list pyval :=
  match s with
  | EmptyString => []
  | String a s' => PyStr (String a EmptyString) :: py_chars s'
  end.

Definition py_iter (o : pyval) : result (list pyval) :=
  match o with
  | PyList l => Ok l
  | PyDict d => Ok (PyStr <$> d.*1)
  | PyStr s => Ok (py_chars s)
  | _ => Raise TypeError
  end.

(** [[c for c in l if c in self.available_currencies]]: testing membership
    in a dict hashes [c], so an unhashable item (list, dict) raises
    [TypeError]; numbers, booleans and [None] hash but equal no key. The
    surviving items are strings, collected as such. *)
Fixpoint valid_codes (l : list pyval) : result (list string) :=
  match l with
  | [] => Ok []
  | c :: l' =>
      match c with
      | PyStr s =>
          rest ← valid_codes l';
          Ok (if in_catalog s then s :: rest else rest)
      | PyList _ | PyDict _ => Raise TypeError
      | _ => valid_codes l'
      end
  end.

(** ** The settings file *)

(** What [load_settings] can observe of [~/crypto_monitor_settings.json]:
    either [exists()] is false, or opening and [json.load] give a value or
    raise ([OSError] on open, [JSONDecodeError] on malformed text, ...). *)
Inductive settings_file_state : Type :=
  | FileAbsent
  | FilePresent (content : result pyval).

(** How the write in [save_settings] can end: completed; [open] raised
    (file untouched); [open(.., 'w')] truncated the file and the dump
    raised part-way, leaving text that is no JSON document. *)
Inductive write_outcome : Type :=
  | WriteOk
  | WriteOpenFails
  | WriteFailsMidway.

(** The body of the [try] in [load_settings]: the value it assigns to
    [self.selected_currencies]. *)
Definition load_settings_try (f : settings_file_state) : result (list string) :=
  match f with
  | FilePresent content =>
      settings ← content;
      saved_currencies ← py_get settings "selected_currencies" (PyList [PyStr "BTC"]);
      items ← py_iter saved_currencies;
      valid_currencies ← valid_codes items;
      match valid_currencies with
      | [] => Ok ["BTC"]
      | _ =>
          if bool_decide (3 < length valid_currencies)
          then Ok (take 3 valid_currencies)
          else Ok valid_currencies
      end
  | FileAbsent => Ok ["BTC"]
  end.

(** [load_settings]: the result is [Ok sel] when the method returns having
    set [self.selected_currencies = sel]. *)
Definition load_settings (f : settings_file_state) : result (list string) :=
  try_except (load_settings_try f) (λ _, Ok ["BTC"]).

(** The dictionary [save_settings] dumps. *)
Definition settings_dict (selected_currencies : list string) : pyval :=
  PyDict [ ("selected_currencies", PyList (PyStr <$> selected_currencies));
           ("version", PyStr "3.0") ].

(** [save_settings]: the file after the call; every exception is caught
    and logged, so the method itself always returns. The file is kept at
    the level of the value [json.load] reads back from what [json.dump]
    wrote. *)
Definition save_settings (selected_currencies : list string)
    (io : write_outcome) (f : settings_file_state) : settings_file_state :=
  match io with
  | WriteOk => FilePresent (Ok (settings_dict selected_currencies))
  | WriteOpenFails => f
  | WriteFailsMidway => FilePresent (Raise JSONDecodeError)
  end.

(** The data-model invariant of a selection, as the specification words
    it: between one and three codes, all from the catalog, no code twice. *)
Definition valid_selection (sel : list string) : Prop :=
  1 ≤ length sel ≤ 3 ∧ Forall (λ c, c ∈ catalog_codes) sel ∧ NoDup sel.

Global Instance valid_selection_dec sel : Decision (valid_selection sel).
Proof. unfold valid_selection. apply _. Defined.

(** ** Floats and the price formatting of the receive loop *)

Local Open Scope Z_scope.

(** The literal [10], [100], ... are Python ints; [x < k] between a float and
    an int compares the exact values ([nan] compares false). *)
Definition float_lt_int (x : spec_float) (k : Z) : bool :=
  match x with
  | S754_nan => false
  | S754_infinity s => s
  | S754_zero _ => bool_decide (0 < k)
  | S754_finite s m e =>
      let v := if s then Z.neg m else Z.pos m in
      if bool_decide (0 ≤ e) then bool_decide (v * 2 ^ e < k)
      else bool_decide (v < k * 2 ^ (- e))
  end.

(** [float(z)] for a Python int: the nearest double, ties to even;
    [OverflowError] when it is too large for a double. *)
Definition float_of_int (z : Z) : result spec_float :=
  match binary_normalize 53 1024 z 0 false with
  | S754_infinity _ => Raise OverflowError
  | f => Ok f
  end.

(** [num / den] rounded to the nearest integer, ties to the even one
    ([0 ≤ num], [0 < den]). *)
Definition round_half_even (num den : Z) : Z :=
  let q := num / den in
  match 2 * (num mod den) ?= den with
  | Lt => q
  | Gt => q + 1
  | Eq => if Z.even q then q else q + 1
  end.

(** [|x| * 10^n] correctly rounded to an integer, for [|x| = m * 2^e]: the
    decimal digits the ['f'] presentation prints. *)
Definition scaled (n : nat) (m : positive) (e : Z) : Z :=
  if bool_decide (0 ≤ e) then Z.pos m * 2 ^ e * 10 ^ Z.of_nat n
  else round_half_even (Z.pos m * 10 ^ Z.of_nat n) (2 ^ (- e)).

Definition digit_char (d : Z) : ascii :=
  ascii_of_nat (48 + Z.to_nat d).

(** The last [n] decimal digits of [v], most significant first. *)
Fixpoint low_digits (n : nat) (v : Z) : list ascii :=
  match n with
  | O => []
  | S n' => low_digits n' (v / 10) ++ [digit_char (v mod 10)]
  end.

(** Decimal digits of [v ≥ 0], least significant first, no leading zero
    (["0"] for zero); [fuel] bounds the number of digits. *)
Fixpoint digits_rev (fuel : nat) (v : Z) : list ascii :=
  match fuel with
  | O => []
  | S fuel' =>
      digit_char (v mod 10) ::
      (if bool_decide (v / 10 = 0) then [] else digits_rev fuel' (v / 10))
  end.

(** A number below [2^k] has at most [k] decimal digits. *)
Definition digit_fuel (v : Z) : nat := S (Z.to_nat (Z.log2 v)).

(** The [','] option: a comma before every group of three digits, counted
    from the right; works on the reversed digit list. *)
Fixpoint group_rev (r : list ascii) : list ascii :=
  match r with
  | a :: b :: c :: ((_ :: _) as rest) => a :: b :: c :: ","%char :: group_rev rest
  | _ => r
  end.

Definition grouped_int (v : Z) : list ascii :=
  rev (group_rev (digits_rev (digit_fuel v) v)).

(** Magnitude [m * 2^e] printed with [n] decimals and grouping. *)
Definition fixed_digits (n : nat) (v : Z) : list ascii :=
  grouped_int (v / 10 ^ Z.of_nat n) ++
  match n with
  | O => []
  | _ => "."%char :: low_digits n v
  end.

Definition sign_chars (s : bool) : list ascii :=
  if s then ["-"%char] else [].

(** [f"{x:,.{n}f}"] *)
Definition format_fixed (n : nat) (x : spec_float) : string :=
  match x with
  | S754_nan => "nan"
  | S754_infinity s => if s then "-inf" else "inf"
  | S754_zero s => string_of_list_ascii (sign_chars s ++ fixed_digits n 0)
  | S754_finite s m e =>
      string_of_list_ascii (sign_chars s ++ fixed_digits n (scaled n m e))
  end.

(** Lines 428-436 of [connect_binance_websocket]: the decimal places are
    chosen by the magnitude of the price. *)
Definition formatted_price (new_price : spec_float) : string :=
  if float_lt_int new_price 10 then format_fixed 4 new_price
  else if float_lt_int new_price 100 then format_fixed 3 new_price
  else if float_lt_int new_price 10000 then format_fixed 2 new_price
  else format_fixed 1 new_price.

(** The double nearest to the decimal [num / 10^frac]: what the literal
    (or [float] of the text) denotes. Both operands are exact doubles for
    the literals used below, so the IEEE division rounds once. *)
Definition float_of_decimal (num : Z) (frac : nat) : spec_float :=
  SFdiv 53 1024 (binary_normalize 53 1024 num 0 false)
                (binary_normalize 53 1024 (10 ^ Z.of_nat frac) 0 false).

(** *** Reading a formatted price

    What the bucket table of the specification talks about: the exact
    value of a price, the number of decimals the table assigns to it, and
    what can be read off a formatted string. *)

Definition is_finite_float (x : spec_float) : bool :=
  match x with
  | S754_zero _ | S754_finite _ _ _ => true
  | _ => false
  end.

(** The rational a finite double denotes, [± m * 2^e] (0 for the others). *)
Definition float_value (x : spec_float) : Q :=
  match x with
  | S754_finite s m e =>
      let v := if s then Z.neg m else Z.pos m in
      if bool_decide (0 ≤ e) then inject_Z (v * 2 ^ e)
      else Qmake v (Z.to_pos (2 ^ (- e)))
  | _ => 0%Q
  end.

(** The table of the specification: decimal places by price range. *)
Definition table_places (price : Q) : nat :=
  if Qlt_le_dec price 10 then 4%nat
  else if Qlt_le_dec price 100 then 3%nat
  else if Qlt_le_dec price 10000 then 2%nat
  else 1%nat.

Definition is_digit (a : ascii) : bool :=
  (48 <=? nat_of_ascii a)%nat && (nat_of_ascii a <=? 57)%nat.

(** The characters after, resp. before, the decimal point. *)
Fixpoint after_point (s : list ascii) : option (list ascii) :=
  match s with
  | [] => None
  | a :: s' => if Ascii.eqb a "." then Some s' else after_point s'
  end.

Fixpoint before_point (s : list ascii) : list ascii :=
  match s with
  | [] => []
  | a :: s' => if Ascii.eqb a "." then [] else a :: before_point s'
  end.

Definition drop_sign (s : list ascii) : list ascii :=
  match s with
  | a :: s' => if Ascii.eqb a "-" then s' else s
  | [] => []
  end.

Definition decimals_shown (s : string) : option nat :=
  length <$> after_point (list_ascii_of_string s).

Definition integer_part (s : string) : list ascii :=
  drop_sign (before_point (list_ascii_of_string s)).

(** Grouping, read from the right: groups of exactly three digits, each
    preceded by a comma, then a leading group of one to three digits. *)
Fixpoint groups_ok_rev (r : list ascii) : bool :=
  match r with
  | a :: b :: c :: sep :: ((_ :: _) as rest) =>
      is_digit a && is_digit b && is_digit c && Ascii.eqb sep ","
      && groups_ok_rev rest
  | [a; b; c] => is_digit a && is_digit b && is_digit c
  | [a; b] => is_digit a && is_digit b
  | [a] => is_digit a
  | _ => false
  end.

Definition well_grouped (ip : list ascii) : bool := groups_ok_rev (rev ip).

(** The integer spelled by the digits of [s], every other character
    (sign, commas, point) skipped: the shown number times [10^decimals]. *)
Definition read_step (acc : Z) (a : ascii) : Z :=
  if is_digit a then 10 * acc + (Z.of_nat (nat_of_ascii a) - 48) else acc.

Definition read_digits (s : list ascii) : Z := fold_left read_step s 0.

Definition shown_scaled (s : string) : Z := read_digits (list_ascii_of_string s).

(** [k] is the integer nearest to [q], the even one of the two on a tie. *)
Definition nearest_even (q : Q) (k : Z) : Prop :=
  (Qabs (inject_Z k - q) <= 1 # 2)%Q
  ∧ ((Qabs (inject_Z k - q) == 1 # 2)%Q → Z.even k = true).

(** The integer [format_fixed] prints the digits of: [|x| * 10^n] rounded. *)
Definition printed_integer (n : nat) (x : spec_float) : Z :=
  match x with
  | S754_finite _ m e => scaled n m e
  | _ => 0
  end.

Definition sign_bit (x : spec_float) : bool :=
  match x with
  | S754_zero s | S754_infinity s | S754_finite s _ _ => s
  | S754_nan => false
  end.

Local Close Scope Z_scope.

(** ** The application state *)

(** One entry of [self.currency_data]. *)
Record currency_entry := CurrencyEntry {
  price : string;
  price_change : spec_float;
  change_24h : spec_float
}.

Definition loading_entry : currency_entry :=
  CurrencyEntry "Loading..." (S754_zero false) (S754_zero false).

(** Where the coroutine [connect_binance_websocket] of a thread stands.
    The first four are the points where it is suspended or has returned:
    awaiting [websockets.connect], awaiting the next message of connection
    [ws], awaiting [asyncio.sleep(5)], returned. The others are the points
    between two accesses to what the threads share, where the interpreter
    can switch to another thread; each carries the local variables in use
    and is described by the line the coroutine executes next. *)
Inductive phase : Type :=
  | Connecting
  | Streaming (ws : nat)
  | Sleeping
  | Finished
  (* line 412: [self.websockets[currency] = websocket] *)
  | Connected (ws : nat)
  (* line 413: [self.reconnect_attempts[currency] = 0] *)
  | Registered (ws : nat)
  (* line 418: reading [self.running] *)
  | Received (ws : nat) (message : result pyval)
  (* line 418: reading [self.selected_currencies] *)
  | Checked (ws : nat) (message : result pyval)
  (* lines 438, 439, 440: the three stores into the entry *)
  | StoringPrice (ws : nat) (formatted : string) (change change24 : spec_float)
  | StoringChange (ws : nat) (change change24 : spec_float)
  | StoringChange24h (ws : nat) (change24 : spec_float)
  (* line 443: [self.root.after] *)
  | Scheduling (ws : nat)
  (* an exception, resp. the [break], is leaving [async with] *)
  | Raising (ws : nat)
  | Leaving (ws : nat)
  (* lines 455-456: reading [self.running], [self.selected_currencies],
     the counter *)
  | Excepted
  | ExceptChecked
  | ExceptCounting
  (* line 457: reading the counter, storing it *)
  | Incrementing
  | StoringAttempts (n : nat)
  (* lines 462, 463 *)
  | Failing
  | FailScheduling.

(** Calls the selector makes on connections, in program order. *)
Inductive call : Type :=
  | CloseCall (currency : string)
  | StartThread (currency : string)
  | DestroyWindow.

Global Instance call_eq_dec : EqDecision call.
Proof. solve_decision. Defined.

(** The fields of [BTCTaskbarMonitor] the core uses, followed by the
    environment they act on: the settings file, whether each connection
    object created so far is closed (a handle is an index in
    [connections]), the threads started by [start_websocket_thread] with
    the point their coroutine has reached, the display updates queued by
    [root.after], and whether the connection objects of the installed
    [websockets] library have the attribute [closed] at all: those of the
    legacy client (up to version 13) have it, those [websockets.connect]
    returns from version 14 on have not, and the README installs the
    library without a version. *)
Record monitor := Monitor {
  selected_currencies : list string;
  currency_vars : list (string * bool);
  currency_data : gmap string currency_entry;
  running : bool;
  websockets : gmap string nat;
  reconnect_attempts : gmap string nat;
  settings_file : settings_file_state;
  connections : list bool;
  threads : list (string * phase);
  scheduled : list string;
  closed_attribute : bool
}.

Definition max_reconnect_attempts : nat := 5.

Definition set_selected_currencies v (st : monitor) : monitor :=
  Monitor v (currency_vars st) (currency_data st) (running st) (websockets st)
    (reconnect_attempts st) (settings_file st) (connections st) (threads st)
    (scheduled st) (closed_attribute st).
Definition set_currency_vars v (st : monitor) : monitor :=
  Monitor (selected_currencies st) v (currency_data st) (running st)
    (websockets st) (reconnect_attempts st) (settings_file st)
    (connections st) (threads st) (scheduled st) (closed_attribute st).
Definition set_currency_data v (st : monitor) : monitor :=
  Monitor (selected_currencies st) (currency_vars st) v (running st)
    (websockets st) (reconnect_attempts st) (settings_file st)
    (connections st) (threads st) (scheduled st) (closed_attribute st).
Definition set_running v (st : monitor) : monitor :=
  Monitor (selected_currencies st) (currency_vars st) (currency_data st) v
    (websockets st) (reconnect_attempts st) (settings_file st)
    (connections st) (threads st) (scheduled st) (closed_attribute st).
Definition set_websockets v (st : monitor) : monitor :=
  Monitor (selected_currencies st) (currency_vars st) (currency_data st)
    (running st) v (reconnect_attempts st) (settings_file st)
    (connections st) (threads st) (scheduled st) (closed_attribute st).
Definition set_reconnect_attempts v (st : monitor) : monitor :=
  Monitor (selected_currencies st) (currency_vars st) (currency_data st)
    (running st) (websockets st) v (settings_file st) (connections st)
    (threads st) (scheduled st) (closed_attribute st).
Definition set_settings_file v (st : monitor) : monitor :=
  Monitor (selected_currencies st) (currency_vars st) (currency_data st)
    (running st) (websockets st) (reconnect_attempts st) v (connections st)
    (threads st) (scheduled st) (closed_attribute st).
Definition set_connections v (st : monitor) : monitor :=
  Monitor (selected_currencies st) (currency_vars st) (currency_data st)
    (running st) (websockets st) (reconnect_attempts st) (settings_file st)
    v (threads st) (scheduled st) (closed_attribute st).
Definition set_threads v (st : monitor) : monitor :=
  Monitor (selected_currencies st) (currency_vars st) (currency_data st)
    (running st) (websockets st) (reconnect_attempts st) (settings_file st)
    (connections st) v (scheduled st) (closed_attribute st).
Definition set_scheduled v (st : monitor) : monitor :=
  Monitor (selected_currencies st) (currency_vars st) (currency_data st)
    (running st) (websockets st) (reconnect_attempts st) (settings_file st)
    (connections st) (threads st) v (closed_attribute st).

(** [__init__] up to the creation of the window; it raises only if
    [load_settings] does. *)
Definition init (has_closed : bool) (f : settings_file_state) : result monitor :=
  sel ← load_settings f;
  Ok (Monitor sel []
        (list_to_map ((λ c, (c, loading_entry)) <$> catalog_codes))
        true ∅ ∅ f [] [] [] has_closed).

(** [start_websocket_thread]: a new daemon thread whose coroutine runs to
    its first await. Looking up the feed symbol (line 406) precedes the
    [try]: for a code outside the catalog the coroutine ends at once with
    a [KeyError]. *)
Definition start_websocket_thread (currency : string) (st : monitor) : monitor :=
  set_threads
    (threads st ++ [(currency, if in_catalog currency then Connecting else Finished)]) st.

(** [self.websockets[currency].closed] (line 371): the flag of the
    connection, or the [AttributeError] of an object without the
    attribute. *)
Definition read_closed (st : monitor) (ws : nat) : result bool :=
  if closed_attribute st then
    match connections st !! ws with
    | Some closed => Ok closed
    | None => Raise AttributeError
    end
  else Raise AttributeError.

(** The test of [start_websocket_connections] (lines 368-375): no
    connection is registered for the currency, or the registered one is
    closed; the bare [except] around the reading of [closed] makes every
    exception count as closed. *)
Definition needs_start (st : monitor) (currency : string) : bool :=
  match websockets st !! currency with
  | None => true
  | Some ws =>
      match read_closed st ws with
      | Ok websocket_closed => websocket_closed
      | Raise _ => true
      end
  end.

Fixpoint start_loop (cs : list string) (st : monitor) : monitor * list call :=
  match cs with
  | [] => (st, [])
  | currency :: cs' =>
      if needs_start st currency then
        let st1 := set_reconnect_attempts (<[currency := 0]> (reconnect_attempts st)) st in
        let '(st2, calls) := start_loop cs' (start_websocket_thread currency st1) in
        (st2, StartThread currency :: calls)
      else start_loop cs' st
  end.

Definition start_websocket_connections (st : monitor) : monitor * list call :=
  start_loop (selected_currencies st) st.

(** [run]: start the connections, then enter the Tk main loop. *)
Definition run (st : monitor) : monitor := (start_websocket_connections st).1.

Fixpoint reconnect_loop (cs : list string) (st : monitor) : monitor * list call :=
  match cs with
  | [] => (st, [])
  | currency :: cs' =>
      let st1 := set_reconnect_attempts (<[currency := 0]> (reconnect_attempts st)) st in
      let '(st2, calls) := reconnect_loop cs' (start_websocket_thread currency st1) in
      (st2, StartThread currency :: calls)
  end.

(** [reconnect], the context-menu command. *)
Definition reconnect (st : monitor) : monitor * list call :=
  reconnect_loop (selected_currencies st) st.

(** [show_currency_selector]: one [BooleanVar] per catalog entry, ticked
    when the currency is selected. *)
Definition show_currency_selector (st : monitor) : monitor :=
  set_currency_vars
    ((λ c, (c, bool_decide (c ∈ selected_currencies st))) <$> catalog_codes) st.

(** The user clicking the checkbox of [currency]. *)
Definition toggle (currency : string) (st : monitor) : monitor :=
  set_currency_vars
    ((λ kv : string * bool,
        if decide (kv.1 = currency) then (kv.1, negb kv.2) else kv)
       <$> currency_vars st) st.

Definition new_selection_of (vars : list (string * bool)) : list string :=
  (filter (λ kv : string * bool, kv.2 = true) vars).*1.

(** [validate_selection]: whether the Apply button is enabled. *)
Definition validate_selection (st : monitor) : bool :=
  let selected_count := length (new_selection_of (currency_vars st)) in
  bool_decide (1 ≤ selected_count ≤ 3).

(** The first loop of [apply_currency_selection]: a close is requested for
    a de-selected currency that has a registered connection. The request
    is wrapped in a bare [try/except] and writes none of the modelled
    fields; a connection is seen closed when its own coroutine leaves
    [async with] (the events [ConnectionEnds], [ConnectionLost] or the
    [break] of the receive loop). *)
Definition close_calls (old new : list string) (ws : gmap string nat) : list call :=
  CloseCall <$> filter (λ c, (c ∉ new) ∧ is_Some (ws !! c)) old.

(** [apply_currency_selection]: the state after the call, the calls made,
    and the value returned to the caller (Python's [None] on every path). *)
Definition apply_currency_selection (io : write_outcome) (st : monitor)
    : monitor * list call * result pyval :=
  let new_selection := new_selection_of (currency_vars st) in
  if bool_decide (1 ≤ length new_selection ≤ 3) then
    let closes := close_calls (selected_currencies st) new_selection (websockets st) in
    let st1 := set_selected_currencies new_selection st in
    let st2 := set_settings_file
                 (save_settings (selected_currencies st1) io (settings_file st1)) st1 in
    let '(st3, starts) := start_websocket_connections st2 in
    (st3, closes ++ starts ++ [DestroyWindow], Ok PyNone)
  else (st, [], Ok PyNone).

(** [quit_application]: clears [running]; the close requests are as in
    [close_calls]. *)
Definition quit_application (st : monitor) : monitor * list call :=
  (set_running false st, CloseCall <$> (map_to_list (websockets st)).*1).

(** ** The coroutine [connect_binance_websocket] *)

(** [o[key]] for a string key: a missing key of a dictionary is a
    [KeyError]; lists and strings want integer indices, the other values
    are not subscriptable (both [TypeError]). *)
Definition py_getitem (o : pyval) (key : string) : result pyval :=
  match o with
  | PyDict d =>
      match assoc_lookup key d with
      | Some v => Ok v
      | None => Raise KeyError
      end
  | _ => Raise TypeError
  end.

(** What the transport hands to a suspended coroutine. A received frame
    is given by what [json.loads] makes of it. *)
Inductive net_event : Type :=
  | ConnectOk
  | ConnectFails
  | Message (decoded : result pyval)
  | ConnectionLost
  | ConnectionEnds
  | SleepDone.

Section Coroutine.

(** Python's [float] on a [str]: the parsed double, or [ValueError]. *)
Variable float_of_str : string → option spec_float.

(** [float(v)] *)
Definition py_float (v : pyval) : result spec_float :=
  match v with
  | PyFloat f => Ok f
  | PyInt z => float_of_int z
  | PyBool b => float_of_int (if b then 1 else 0)
  | PyStr s =>
      match float_of_str s with
      | Some f => Ok f
      | None => Raise ValueError
      end
  | PyNone | PyList _ | PyDict _ => Raise TypeError
  end.

(** [root.after(0, lambda c=currency: self.update_price_display(c))] *)
Definition schedule_display (currency : string) (st : monitor) : monitor :=
  set_scheduled (scheduled st ++ [currency]) st.

(** Lines 423-443, the body of the inner [try]. The three item
    assignments go through [self.currency_data[currency]], a [KeyError]
    before anything is written when the entry is missing. *)
Definition handle_message_try (currency : string) (message : result pyval)
    (st : monitor) : result monitor :=
  data ← message;
  new_price ← py_getitem data "c" ≫= py_float;
  price_change ← py_getitem data "P" ≫= py_float;
  change_24h ← py_getitem data "P" ≫= py_float;
  let formatted := formatted_price new_price in
  match currency_data st !! currency with
  | None => Raise KeyError
  | Some _ =>
      Ok (schedule_display currency
            (set_currency_data
               (<[currency := CurrencyEntry formatted price_change change_24h]>
                  (currency_data st)) st))
  end.

(** [except (KeyError, ValueError, json.JSONDecodeError)] *)
Definition parse_error_caught (e : exn) : bool :=
  match e with
  | KeyError => true
  | _ => is_ValueError e
  end.

(** One iteration of the receive loop past the [break] test: a caught
    exception is logged and the loop goes on with the state as it was;
    any other exception leaves the loop. *)
Definition handle_message (currency : string) (message : result pyval)
    (st : monitor) : result monitor :=
  try_except (handle_message_try currency message st)
    (λ e, if parse_error_caught e then Ok st else Raise e).

(** Leaving [async with] closes the connection. *)
Definition close_connection (ws : nat) (st : monitor) : monitor :=
  set_connections (<[ws := true]> (connections st)) st.

(** The outer [except Exception] (lines 453-463): either count the attempt
    and go to sleep before the recursive call, or publish ["Error"] and
    return. *)
Definition except_handler (currency : string) (st : monitor) : phase * monitor :=
  let attempts := default 0 (reconnect_attempts st !! currency) in
  if running st && bool_decide (currency ∈ selected_currencies st)
     && bool_decide (attempts < max_reconnect_attempts)
  then (Sleeping,
        set_reconnect_attempts (<[currency := attempts + 1]> (reconnect_attempts st)) st)
  else
    match currency_data st !! currency with
    | None => (Finished, st)
    | Some entry =>
        (Finished,
         schedule_display currency
           (set_currency_data
              (<[currency := CurrencyEntry "Error" (price_change entry) (change_24h entry)]>
                 (currency_data st)) st))
    end.

(** The coroutine run from one suspension to the next with no other
    thread running in between: resumed in phase [ph] by event [ev], the
    phase it suspends in next and the state it leaves. [None]: the event
    cannot occur in that phase. The recursive call made after the sleep
    re-enters at [Connecting]; when it returns, the callers have nothing
    left to do. *)
Definition connect_binance_websocket (currency : string) (ph : phase)
    (ev : net_event) (st : monitor) : option (phase * monitor) :=
  match ph, ev with
  | Connecting, ConnectOk =>
      let ws := length (connections st) in
      Some (Streaming ws,
            set_reconnect_attempts (<[currency := 0]> (reconnect_attempts st))
              (set_websockets (<[currency := ws]> (websockets st))
                 (set_connections (connections st ++ [false]) st)))
  | Connecting, ConnectFails => Some (except_handler currency st)
  | Streaming ws, Message message =>
      if negb (running st) || negb (bool_decide (currency ∈ selected_currencies st))
      then Some (Finished, close_connection ws st)
      else
        match handle_message currency message st with
        | Ok st' => Some (Streaming ws, st')
        | Raise _ => Some (except_handler currency (close_connection ws st))
        end
  | Streaming ws, ConnectionLost => Some (except_handler currency (close_connection ws st))
  | Streaming ws, ConnectionEnds => Some (Finished, close_connection ws st)
  | Sleeping, SleepDone => Some (Connecting, st)
  | _, _ => None
  end.

(** ** The coroutine step by step *)

(** The same code between the points where another thread can run.
    [serial_steps] below shows that [connect_binance_websocket] is what
    these steps amount to when no other thread runs in between. *)

(** Lines 423-426: the three numbers read from a frame. *)
Definition parse_ticker (message : result pyval)
    : result (spec_float * spec_float * spec_float) :=
  data ← message;
  new_price ← py_getitem data "c" ≫= py_float;
  price_change ← py_getitem data "P" ≫= py_float;
  change_24h ← py_getitem data "P" ≫= py_float;
  Ok (new_price, price_change, change_24h).

(** What one step of a coroutine does to what the threads share. *)
Inductive effect : Type :=
  | NoEffect
  | Open
  | Register (ws : nat)
  | StoreAttempts (n : nat)
  | StorePrice (formatted : string)
  | StorePriceChange (change : spec_float)
  | StoreChange24h (change24 : spec_float)
  | Schedule
  | Close (ws : nat).

(** [self.currency_data[currency][field] = value]; nothing is written
    when the currency has no entry (the lookup raises [KeyError]). *)
Definition store_field (f : currency_entry → currency_entry) (currency : string)
    (st : monitor) : monitor :=
  match currency_data st !! currency with
  | Some entry => set_currency_data (<[currency := f entry]> (currency_data st)) st
  | None => st
  end.

Definition perform (currency : string) (eff : effect) (st : monitor) : monitor :=
  match eff with
  | NoEffect => st
  | Open => set_connections (connections st ++ [false]) st
  | Register ws => set_websockets (<[currency := ws]> (websockets st)) st
  | StoreAttempts n =>
      set_reconnect_attempts (<[currency := n]> (reconnect_attempts st)) st
  | StorePrice formatted =>
      store_field (λ entry, CurrencyEntry formatted (price_change entry) (change_24h entry))
        currency st
  | StorePriceChange change =>
      store_field (λ entry, CurrencyEntry (price entry) change (change_24h entry))
        currency st
  | StoreChange24h change24 =>
      store_field (λ entry, CurrencyEntry (price entry) (price_change entry) change24)
        currency st
  | Schedule => schedule_display currency st
  | Close ws => close_connection ws st
  end.

(** One step of the coroutine of a thread: an event of the transport when
    it is suspended ([ev] is the event), otherwise ([ev] is [None]) the
    one access to shared data it stands before, followed by the code up to
    the next such access. The result is the point reached and the effect
    of the access. Reading a field only to log it is left out. *)
Definition coroutine_step (currency : string) (ph : phase) (ev : option net_event)
    (st : monitor) : option (phase * effect) :=
  match ph, ev with
  | Connecting, Some ConnectOk => Some (Connected (length (connections st)), Open)
  | Connecting, Some ConnectFails => Some (Excepted, NoEffect)
  | Connected ws, None => Some (Registered ws, Register ws)
  | Registered ws, None => Some (Streaming ws, StoreAttempts 0)
  | Streaming ws, Some (Message message) => Some (Received ws message, NoEffect)
  | Streaming ws, Some ConnectionLost => Some (Excepted, Close ws)
  | Streaming ws, Some ConnectionEnds => Some (Finished, Close ws)
  | Received ws message, None =>
      Some (if running st then Checked ws message else Leaving ws, NoEffect)
  | Checked ws message, None =>
      if bool_decide (currency ∈ selected_currencies st) then
        match parse_ticker message with
        | Ok (new_price, change, change24) =>
            Some (StoringPrice ws (formatted_price new_price) change change24, NoEffect)
        | Raise e =>
            Some (if parse_error_caught e then Streaming ws else Raising ws, NoEffect)
        end
      else Some (Leaving ws, NoEffect)
  | StoringPrice ws formatted change change24, None =>
      match currency_data st !! currency with
      | Some _ => Some (StoringChange ws change change24, StorePrice formatted)
      | None => Some (Streaming ws, NoEffect)
      end
  | StoringChange ws change change24, None =>
      match currency_data st !! currency with
      | Some _ => Some (StoringChange24h ws change24, StorePriceChange change)
      | None => Some (Streaming ws, NoEffect)
      end
  | StoringChange24h ws change24, None =>
      match currency_data st !! currency with
      | Some _ => Some (Scheduling ws, StoreChange24h change24)
      | None => Some (Streaming ws, NoEffect)
      end
  | Scheduling ws, None => Some (Streaming ws, Schedule)
  | Raising ws, None => Some (Excepted, Close ws)
  | Leaving ws, None => Some (Finished, Close ws)
  | Excepted, None => Some (if running st then ExceptChecked else Failing, NoEffect)
  | ExceptChecked, None =>
      Some (if bool_decide (currency ∈ selected_currencies st)
            then ExceptCounting else Failing, NoEffect)
  | ExceptCounting, None =>
      Some (if bool_decide (default 0 (reconnect_attempts st !! currency)
                            < max_reconnect_attempts)
            then Incrementing else Failing, NoEffect)
  | Incrementing, None =>
      Some (StoringAttempts (default 0 (reconnect_attempts st !! currency) + 1), NoEffect)
  | StoringAttempts n, None => Some (Sleeping, StoreAttempts n)
  | Sleeping, Some SleepDone => Some (Connecting, NoEffect)
  | Failing, None =>
      match currency_data st !! currency with
      | Some _ => Some (FailScheduling, StorePrice "Error")
      | None => Some (Finished, NoEffect)
      end
  | FailScheduling, None => Some (Finished, Schedule)
  | _, _ => None
  end.

(** ** The whole program as a transition system *)

(** Every coroutine runs in a thread of its own (lines 467-474), so the
    threads interleave wherever the interpreter switches: a step is one
    [coroutine_step] of one thread, or one command of the Tk thread (which
    stops issuing commands once [quit_application] has run). A command of
    the Tk thread is taken whole; the invariants proved of all reachable
    states are kept by each of its writes on its own as well
    ([tk_writes_keep_invariant]). *)
Inductive step : monitor → monitor → Prop :=
  | step_coroutine st i currency ph ev ph' eff :
      threads st !! i = Some (currency, ph) →
      coroutine_step currency ph ev st = Some (ph', eff) →
      step st (set_threads (<[i := (currency, ph')]> (threads st))
                 (perform currency eff st))
  | step_show_selector st :
      running st = true → step st (show_currency_selector st)
  | step_toggle st currency :
      running st = true → step st (toggle currency st)
  | step_apply st io :
      running st = true → step st (apply_currency_selection io st).1.1
  | step_reconnect st :
      running st = true → step st (reconnect st).1
  | step_quit st :
      running st = true → step st (quit_application st).1.

(** Thread [i] makes its next step, on event [ev] if it is suspended. *)
Definition advance (i : nat) (ev : option net_event) (st : monitor) : option monitor :=
  match threads st !! i with
  | Some (currency, ph) =>
      match coroutine_step currency ph ev st with
      | Some (ph', eff) =>
          Some (set_threads (<[i := (currency, ph')]> (threads st))
                  (perform currency eff st))
      | None => None
      end
  | None => None
  end.

(** The state in which thread [i], of [currency], stands at [ph]. *)
Definition thread_at (i : nat) (currency : string) (ph : phase) (st : monitor) : monitor :=
  set_threads (<[i := (currency, ph)]> (threads st)) st.

(** Thread [i] takes a step. *)
Definition thread_steps (i : nat) (st st' : monitor) : Prop :=
  ∃ ev, advance i ev st = Some st'.

(** Thread [i] resumed by event [ev] and run to its next suspension with
    no other thread in between, as a function (the state is left alone
    when there is no such thread or the event does not apply). *)
Definition resume (i : nat) (ev : net_event) (st : monitor) : monitor :=
  match threads st !! i with
  | Some (currency, ph) =>
      match connect_binance_websocket currency ph ev st with
      | Some (ph', st') => set_threads (<[i := (currency, ph')]> (threads st')) st'
      | None => st
      end
  | None => st
  end.

(** States the program can be in after start-up on settings file [f]. *)
Inductive reachable (f : settings_file_state) : monitor → Prop :=
  | reachable_run has_closed st0 :
      init has_closed f = Ok st0 → reachable f (run st0)
  | reachable_step st st' : reachable f st → step st st' → reachable f st'.

(** The same, through states that all satisfy [P]. *)
Inductive reachable_within (P : monitor → Prop) (f : settings_file_state)
    : monitor → Prop :=
  | within_run has_closed st0 :
      init has_closed f = Ok st0 → reachable_within P f (run st0)
  | within_step st st' :
      reachable_within P f st → P st → step st st' → reachable_within P f st'.

(** Schedules: a step of thread [i], a whole resumption of thread [i] run
    without interruption, or a command of the Tk thread. *)
Inductive action : Type :=
  | Go (i : nat) (ev : option net_event)
  | Resume (i : nat) (ev : net_event)
  | ShowSelector
  | Toggle (currency : string)
  | Apply (io : write_outcome)
  | Reconnect
  | Quit.

Definition act (a : action) (st : monitor) : option monitor :=
  match a with
  | Go i ev => advance i ev st
  | Resume i ev =>
      match threads st !! i with
      | Some (currency, ph) =>
          match connect_binance_websocket currency ph ev st with
          | Some _ => Some (resume i ev st)
          | None => None
          end
      | None => None
      end
  | ShowSelector => if running st then Some (show_currency_selector st) else None
  | Toggle currency => if running st then Some (toggle currency st) else None
  | Apply io => if running st then Some (apply_currency_selection io st).1.1 else None
  | Reconnect => if running st then Some (reconnect st).1 else None
  | Quit => if running st then Some (quit_application st).1 else None
  end.

(** The state a schedule leads to, [None] when one of its actions cannot
    take place. *)
Fixpoint exec (acts : list action) (st : monitor) : option monitor :=
  match acts with
  | [] => Some st
  | a :: acts' =>
      match act a st with
      | Some st' => exec acts' st'
      | None => None
      end
  end.

End Coroutine.

Definition is_streaming (ph : phase) : bool :=
  match ph with
  | Streaming _ => true
  | _ => false
  end.

(** Number of threads currently streaming [currency]. *)
Definition live_connections (currency : string) (st : monitor) : nat :=
  length (filter (λ t : string * phase,
                    t.1 = currency ∧ is_streaming t.2 = true) (threads st)).

(** The currencies a list of calls asks to close, resp. to start. *)
Definition stop_calls (calls : list call) : list string :=
  omap (λ c, match c with CloseCall x => Some x | _ => None end) calls.
Definition start_calls (calls : list call) : list string :=
  omap (λ c, match c with StartThread x => Some x | _ => None end) calls.

(** The monitor as [__init__] leaves it when there is no settings file,
    with the legacy client installed. *)
Definition fresh_monitor : monitor :=
  Monitor ["BTC"] []
    (list_to_map ((λ c, (c, loading_entry)) <$> catalog_codes))
    true ∅ ∅ FileAbsent [] [] [] true.

(** Start-up followed by opening the selector dialog. *)
Definition selector_opened : monitor := show_currency_selector (run fresh_monitor).

(** A [float] for strings that parses nothing; used where no string is
    ever converted. *)
Definition no_float : string → option spec_float := λ _, None.

(** Start-up with no settings file, then the BTC connection established. *)
Definition btc_streaming : monitor := resume no_float 0 ConnectOk (run fresh_monitor).

(** An entry of [currency_data] for every catalog code. *)
Definition data_complete (st : monitor) : Prop :=
  ∀ c, c ∈ catalog_codes → is_Some (currency_data st !! c).

(** The events that enter the outer [except] from the transport: the
    connection attempt failing, or the open connection breaking. *)
Definition is_transport_error (ph : phase) (ev : net_event) : bool :=
  match ph, ev with
  | Connecting, ConnectFails => true
  | Streaming _, ConnectionLost => true
  | _, _ => false
  end.

(** The same start-up and connection with a library whose connection
    objects have no attribute [closed]. *)
Definition fresh_monitor_14 : monitor :=
  Monitor ["BTC"] []
    (list_to_map ((λ c, (c, loading_entry)) <$> catalog_codes))
    true ∅ ∅ FileAbsent [] [] [] false.

Definition btc_streaming_14 : monitor :=
  resume no_float 0 ConnectOk (run fresh_monitor_14).

(** Start-up with the feed unreachable: [n] failed connection attempts of
    the BTC thread, each followed by the five-second sleep. *)
Definition failed_attempts (n : nat) : monitor :=
  Nat.iter n (λ st, resume no_float 0 SleepDone (resume no_float 0 ConnectFails st))
    (run fresh_monitor).

(** "Reconnect" chosen from the menu while BTC is streaming, and the new
    thread's connection established as well. *)
Definition reconnected_while_streaming : monitor :=
  resume no_float 1 ConnectOk (reconnect btc_streaming).1.

(** Two threads of BTC failing together. ETH is added in the selector
    while the BTC thread of the start-up is still connecting, so nothing
    is registered for BTC and a second BTC thread is started. The first
    thread fails four times, the second stays in its first attempt. Then
    both attempts fail: both coroutines test the counter at 4 before
    either one stores its increment. *)
Definition racing_failures : list action :=
  [ShowSelector; Toggle "ETH"; Apply WriteOk;
   Resume 0 ConnectFails; Resume 0 SleepDone; Resume 0 ConnectFails; Resume 0 SleepDone;
   Resume 0 ConnectFails; Resume 0 SleepDone; Resume 0 ConnectFails; Resume 0 SleepDone;
   Go 0 (Some ConnectFails); Go 0 None; Go 0 None; Go 0 None;
   Go 1 (Some ConnectFails); Go 1 None; Go 1 None; Go 1 None;
   Go 0 None; Go 0 None;
   Go 1 None; Go 1 None].

Definition raced : monitor :=
  default fresh_monitor (exec no_float racing_failures (run fresh_monitor)).

(** Two frames of BTC, the 24-hour change +1.5 in one and -2.5 in the
    other. *)
Definition frame_up : result pyval :=
  Ok (PyDict [("c", PyFloat (float_of_decimal 6789012 2));
              ("P", PyFloat (float_of_decimal 15 1))]).
Definition frame_down : result pyval :=
  Ok (PyDict [("c", PyFloat (float_of_decimal 6780000 2));
              ("P", PyFloat (float_of_decimal (-25) 1))]).

(** Two threads streaming BTC (after "Reconnect"), each handling a frame:
    the first has stored the price and [price_change] of its frame when
    the second handles its frame from beginning to end; then the first
    stores [change_24h]. *)
Definition crossing_frames : list action :=
  [Resume 0 ConnectOk; Reconnect; Resume 1 ConnectOk;
   Go 0 (Some (Message frame_up)); Go 0 None; Go 0 None; Go 0 None; Go 0 None;
   Resume 1 (Message frame_down);
   Go 0 None; Go 0 None].

Definition crossed : monitor :=
  default fresh_monitor (exec no_float crossing_frames (run fresh_monitor)).

(** The first connection attempt fails and the coroutine has read
    [self.running] in the outer [except] when the user quits. *)
Definition quit_during_retry : list action :=
  [Go 0 (Some ConnectFails); Go 0 None; Quit].

Definition quit_mid_retry : monitor :=
  default fresh_monitor (exec no_float quit_during_retry (run fresh_monitor)).

(** The coroutine goes on from there to its sleep. *)
Definition late_retry : list action := [Go 0 None; Go 0 None; Go 0 None; Go 0 None].

Definition retried_after_quit : monitor :=
  default fresh_monitor (exec no_float late_retry quit_mid_retry).

(** A ticker frame whose last price is JSON [null]. *)
Definition null_price_message : result pyval :=
  Ok (PyDict [("c", PyNone); ("P", PyStr "1.50")]).

(** ** Further definitions used by the additional properties *)

(** Whether [hash(v)] succeeds: lists and dictionaries are unhashable. *)
Definition hashable (v : pyval) : bool :=
  match v with
  | PyList _ | PyDict _ => false
  | _ => true
  end.

(** The strings among a list of decoded items, in order. *)
Definition strings_of (l : list pyval) : list string :=
  omap (λ v, match v with PyStr s => Some s | _ => None end) l.

(** What [load_settings] makes of a list of codes: the first three at most
    of those found in the catalog, [["BTC"]] when there is none. *)
Definition first_three_or_default (codes : list string) : list string :=
  match filter (λ c, c ∈ catalog_codes) codes with
  | [] => ["BTC"]
  | valid => take 3 valid
  end.


(** The connection a coroutine has in hand: from [websockets.connect]
    returning to the connection being closed. *)
Definition connection_of (ph : phase) : option nat :=
  match ph with
  | Streaming ws | Connected ws | Registered ws | Received ws _ | Checked ws _
  | StoringPrice ws _ _ _ | StoringChange ws _ _ | StoringChange24h ws _
  | Scheduling ws | Raising ws | Leaving ws => Some ws
  | _ => None
  end.

(** A coroutine that is connecting or has a connection in hand: it has
    not returned, is not in the outer [except] and is not waiting to
    retry. *)
Definition is_live (ph : phase) : bool :=
  match ph with
  | Connecting => true
  | _ => bool_decide (is_Some (connection_of ph))
  end.

Definition is_finished (ph : phase) : bool :=
  match ph with
  | Finished => true
  | _ => false
  end.

(** At most one thread of [currency] has not returned. *)
Definition single_thread (currency : string) (st : monitor) : Prop :=
  ∀ i j ph ph',
    threads st !! i = Some (currency, ph) → threads st !! j = Some (currency, ph') →
    is_finished ph = false → is_finished ph' = false → i = j.

(** The counter of [currency] is within the limit, the increment a
    coroutine of the currency is in the middle of included. *)
Definition counter_within (currency : string) (st : monitor) : Prop :=
  (∀ n, reconnect_attempts st !! currency = Some n → n ≤ max_reconnect_attempts)
  ∧ (∀ i, threads st !! i = Some (currency, Incrementing) →
          default 0 (reconnect_attempts st !! currency) < max_reconnect_attempts)
  ∧ (∀ i n, threads st !! i = Some (currency, StoringAttempts n) →
            n ≤ max_reconnect_attempts).

(** A coroutine that has passed the test of [self.running] in the outer
    [except] and has not yet gone to sleep. *)
Definition retry_pending (ph : phase) : bool :=
  match ph with
  | ExceptChecked | ExceptCounting | Incrementing | StoringAttempts _ => true
  | _ => false
  end.

(** The number of resumptions a coroutine can still get when its currency
    is no longer wanted. *)
Definition remaining (ph : phase) : nat :=
  match ph with
  | Sleeping => 3
  | Connecting => 2
  | Streaming _ => 1
  | _ => 0
  end.

(** The currency has a registered connection, and it is open. *)
Definition open_registered (st : monitor) (currency : string) : bool :=
  match websockets st !! currency with
  | Some ws => bool_decide (connections st !! ws = Some false)
  | None => false
  end.

(** Some thread is connecting [currency] or has a connection for it. *)
Definition served (currency : string) (st : monitor) : Prop :=
  Exists (λ t : string * phase, t.1 = currency ∧ is_live t.2 = true) (threads st).

Global Instance served_dec currency st : Decision (served currency st).
Proof. unfold served. apply _. Defined.

(** The checkboxes are those of the catalog, once the selector has been
    opened. *)
Definition vars_from_catalog (st : monitor) : Prop :=
  currency_vars st = [] ∨ (currency_vars st).*1 = catalog_codes.

(** A selection as the program keeps it: one to three catalog codes. *)
Definition selection_in_range (st : monitor) : Prop :=
  1 ≤ length (selected_currencies st) ≤ 3
  ∧ Forall (λ c, c ∈ catalog_codes) (selected_currencies st).

(** Every handle, registered or in the hands of a coroutine, is that of a
    connection object, and an open registered connection is in the hands
    of a thread of that currency. *)
Definition handles_valid (st : monitor) : Prop :=
  ∀ c ws, websockets st !! c = Some ws → ws < length (connections st).

Definition threads_valid (st : monitor) : Prop :=
  ∀ i c ph ws, threads st !! i = Some (c, ph) → connection_of ph = Some ws →
               ws < length (connections st).

Definition open_is_held (st : monitor) : Prop :=
  ∀ c ws, websockets st !! c = Some ws → connections st !! ws = Some false →
          ∃ i ph, threads st !! i = Some (c, ph) ∧ connection_of ph = Some ws.

(** What the program keeps true from start-up on, however the threads
    interleave. *)
Definition system_invariant (st : monitor) : Prop :=
  selection_in_range st ∧ vars_from_catalog st ∧ handles_valid st
  ∧ threads_valid st ∧ open_is_held st.


(** ** The window: [update_price_labels] and [update_price_display] *)

(** [x >= k] between a float and a Python int, on the exact values. *)
Definition float_ge_int (x : spec_float) (k : Z) : bool :=
  match x with
  | S754_nan => false
  | S754_infinity s => negb s
  | S754_zero _ => bool_decide (k ≤ 0)%Z
  | S754_finite s m e =>
      let v := if s then Z.neg m else Z.pos m in
      if bool_decide (0 ≤ e)%Z then bool_decide (k ≤ v * 2 ^ e)%Z
      else bool_decide (k * 2 ^ (- e) ≤ v)%Z
  end.

(** Decimal digits of [v ≥ 0], most significant first, no grouping. *)
Definition plain_int (v : Z) : list ascii := rev (digits_rev (digit_fuel v) v).

(** [f"{x:+.{n}f}"] for [n ≥ 1]: the sign is always printed. *)
Definition format_signed (n : nat) (x : spec_float) : string :=
  match x with
  | S754_nan => "+nan"
  | S754_infinity s => if s then "-inf" else "+inf"
  | _ =>
      string_of_list_ascii
        ((if sign_bit x then "-"%char else "+"%char)
         :: plain_int (printed_integer n x / 10 ^ Z.of_nat n)%Z
         ++ "."%char :: low_digits n (printed_integer n x))
  end.

(** A [tk.Label] as far as the program configures it. *)
Record label := Label {
  text : string;
  fg : string;
  destroyed : bool
}.

(** The labels created so far (a label is known by its index), the dict
    [self.price_labels] in insertion order, and the height passed to
    [root.geometry]. *)
Record window := Window {
  labels : list label;
  price_labels : list (string * nat);
  height : nat
}.

(** [d[k] = v] on a dict kept in insertion order. *)
Fixpoint dict_set {A} (k : string) (v : A) (d : list (string * A)) : list (string * A) :=
  match d with
  | [] => [(k, v)]
  | (k', v') :: d' =>
      if decide (k = k') then (k, v) :: d' else (k', v') :: dict_set k v d'
  end.

(** [label.destroy()] for every value of [self.price_labels]. *)
Definition destroy_all (ids : list nat) (ls : list label) : list label :=
  foldr (λ i ls, alter (λ l, Label (text l) (fg l) true) i ls) ls ids.

Definition icon_of (currency : string) : result string :=
  match assoc_lookup currency available_currencies with
  | Some info => Ok (icon info)
  | None => Raise KeyError
  end.

(** The label made for a currency: white, not yet showing a price. *)
Definition loading_label (ic currency : string) : label :=
  Label (ic +:+ " " +:+ currency +:+ ": Loading...") "#ffffff" false.

(** The loop of [update_price_labels]; a currency outside the catalog
    raises [KeyError] with the labels made so far in place. *)
Fixpoint create_labels (cs : list string) (w : window) : window * option exn :=
  match cs with
  | [] => (w, None)
  | currency :: cs' =>
      match icon_of currency with
      | Ok ic =>
          create_labels cs'
            (Window (labels w ++ [loading_label ic currency])
                    (dict_set currency (length (labels w)) (price_labels w))
                    (height w))
      | Raise e => (w, Some e)
      end
  end.

(** [update_price_labels]: the old labels are destroyed, one label per
    entry of the selection is made, and the window is resized. *)
Definition update_price_labels (selected : list string) (w : window)
    : window * option exn :=
  let cleared := Window (destroy_all (price_labels w).*2 (labels w)) [] (height w) in
  match create_labels selected cleared with
  | (w', None) => (Window (labels w') (price_labels w') (30 + length selected * 25), None)
  | (w', Some e) => (w', Some e)
  end.

Definition price_up_color : string := "#10b981".
Definition price_down_color : string := "#ef4444".

(** The colour and the arrow chosen by [update_price_display]. *)
Definition display_color (e : currency_entry) : string :=
  if float_ge_int (price_change e) 0 then price_up_color else price_down_color.
Definition display_arrow (e : currency_entry) : string :=
  if float_ge_int (price_change e) 0 then "▲" else "▼".

(** The percentage printed after the arrow. *)
Definition display_percent (e : currency_entry) : string :=
  format_signed 2 (change_24h e).

Definition display_text (ic currency : string) (e : currency_entry) : string :=
  ic +:+ " " +:+ currency +:+ ": $" +:+ price e +:+ " " +:+ display_arrow e
     +:+ " " +:+ display_percent e +:+ "%".

(** [update_price_display]: nothing happens for a currency without a
    label; otherwise the label registered for it gets a new text and
    colour. *)
Definition update_price_display (currency : string) (st : monitor) (w : window)
    : result window :=
  match assoc_lookup currency (price_labels w) with
  | None => Ok w
  | Some id =>
      match currency_data st !! currency with
      | None => Raise KeyError
      | Some data =>
          ic ← icon_of currency;
          Ok (Window
                (alter (λ l, Label (display_text ic currency data) (display_color data)
                                   (destroyed l)) id (labels w))
                (price_labels w) (height w))
      end
  end.

(** The window as [setup_window] leaves it: no label yet, then
    [update_price_labels]. *)
Definition setup_window (st : monitor) : window * option exn :=
  update_price_labels (selected_currencies st) (Window [] [] 0).

(** * Properties *)

(** ** Settings: [load_settings] and [save_settings] *)

Lemma valid_codes_strings (codes : list string) :
  valid_codes (PyStr <$> codes) = Ok (filter (λ c, c ∈ catalog_codes) codes).
Proof.
  induction codes as [|c codes IH]; [done|].
  cbn [fmap list_fmap valid_codes]. fold (fmap (M:=list) PyStr codes).
  rewrite IH, filter_cons. cbn. unfold in_catalog.
  case_bool_decide; case_decide; done.
Qed.

Lemma valid_codes_elem (l : list pyval) (r : list string) (s : string) :
  valid_codes l = Ok r → s ∈ r → PyStr s ∈ l ∧ s ∈ catalog_codes.
Proof.
  revert r. induction l as [|c l IH]; intros r Hr Hs.
  - injection Hr as <-. by apply elem_of_nil in Hs.
  - destruct c; cbn in Hr; try discriminate;
      try (destruct (IH r Hr Hs); split; [by right|done]).
    destruct (valid_codes l) as [rest|] eqn:Hl; [|discriminate].
    cbn in Hr. injection Hr as <-. unfold in_catalog in Hs.
    case_bool_decide as Hc.
    + apply elem_of_cons in Hs as [->|Hs]; [split; [by left|done]|].
      destruct (IH rest eq_refl Hs). split; [by right|done].
    + destruct (IH rest eq_refl Hs). split; [by right|done].
Qed.

Lemma valid_codes_NoDup (l : list pyval) (r : list string) :
  valid_codes l = Ok r → NoDup l → NoDup r.
Proof.
  revert r. induction l as [|c l IH]; intros r Hr Hnd.
  - injection Hr as <-. constructor.
  - apply NoDup_cons in Hnd as [Hc Hnd].
    destruct c; cbn in Hr; try discriminate; try by apply IH.
    destruct (valid_codes l) as [rest|] eqn:Hl; [|discriminate].
    cbn in Hr. injection Hr as <-.
    destruct (in_catalog s); [|by apply IH].
    apply NoDup_cons. split; [|by apply IH].
    intros Hs. apply Hc. by eapply valid_codes_elem.
Qed.

(** The selection [load_settings] computes from a readable file, given the
    valid codes found in it. *)
Lemma load_settings_of_valid settings saved items valid :
  py_get settings "selected_currencies" (PyList [PyStr "BTC"]) = Ok saved →
  py_iter saved = Ok items →
  valid_codes items = Ok valid →
  load_settings (FilePresent (Ok settings)) =
    Ok (match valid with
        | [] => ["BTC"]
        | _ => if bool_decide (3 < length valid) then take 3 valid else valid
        end).
Proof.
  intros Hget Hiter Hvalid. unfold load_settings, load_settings_try. cbn.
  rewrite Hget. cbn. rewrite Hiter. cbn. rewrite Hvalid. cbn.
  destruct valid; [done|]. by case_bool_decide.
Qed.

Lemma load_settings_total f : ∃ sel, load_settings f = Ok sel.
Proof.
  unfold load_settings. destruct (load_settings_try f) as [sel|e]; cbn; eauto.
Qed.

Lemma load_settings_shape f sel :
  load_settings f = Ok sel →
  1 ≤ length sel ≤ 3 ∧ Forall (λ c, c ∈ catalog_codes) sel.
Proof.
  assert (Hbtc : 1 ≤ length ["BTC"] ≤ 3 ∧ Forall (λ c, c ∈ catalog_codes) ["BTC"]).
  { split; [cbn; lia|]. repeat constructor. }
  unfold load_settings, load_settings_try. destruct f as [|[settings|e]]; cbn.
  - by intros [= <-].
  - destruct (py_get settings _ _) as [saved|]; cbn; [|by intros [= <-]].
    destruct (py_iter saved) as [items|]; cbn; [|by intros [= <-]].
    destruct (valid_codes items) as [valid|] eqn:Hvalid; cbn; [|by intros [= <-]].
    assert (Hcat : Forall (λ c, c ∈ catalog_codes) valid).
    { apply Forall_forall. intros c Hc. by eapply valid_codes_elem. }
    destruct valid as [|c valid]; [by intros [= <-]|].
    case_bool_decide as Hlen; intros [= <-].
    + change (c :: take 2 valid) with (take 3 (c :: valid)).
      split; [rewrite length_take; cbn [length] in *; lia|]. by apply Forall_take.
    + split; [cbn in *; lia|done].
  - by intros [= <-].
Qed.

(** C4. [load_settings] never raises: on every state of the settings file
    it returns a selection made of catalog codes only; it returns the
    default [["BTC"]] when the file is missing, when reading or parsing it
    raises, when anything in the [try] raises, and when no valid code is
    left after filtering. *)
Theorem load_settings_never_raises :
  (∀ f, ∃ sel, load_settings f = Ok sel ∧ Forall (λ c, c ∈ catalog_codes) sel)
  ∧ load_settings FileAbsent = Ok ["BTC"]
  ∧ (∀ e, load_settings (FilePresent (Raise e)) = Ok ["BTC"])
  ∧ (∀ f e, load_settings_try f = Raise e → load_settings f = Ok ["BTC"])
  ∧ (∀ settings saved items,
       py_get settings "selected_currencies" (PyList [PyStr "BTC"]) = Ok saved →
       py_iter saved = Ok items →
       valid_codes items = Ok [] →
       load_settings (FilePresent (Ok settings)) = Ok ["BTC"]).
Proof.
  split_and!.
  - intros f. destruct (load_settings_total f) as [sel Hsel].
    exists sel. split; [done|]. by apply (load_settings_shape f).
  - done.
  - done.
  - intros f e He. unfold load_settings. by rewrite He.
  - intros settings saved items Hget Hiter Hvalid.
    by rewrite (load_settings_of_valid _ _ _ _ Hget Hiter Hvalid).
Qed.

Lemma load_settings_never_raises_witness :
  load_settings (FilePresent (Ok (PyList []))) = Ok ["BTC"]
  ∧ load_settings
      (FilePresent (Ok (PyDict [("selected_currencies", PyList [PyStr "DOGE"; PyInt 7])])))
    = Ok ["BTC"].
Proof.
  destruct load_settings_never_raises as (_ & _ & _ & Hraise & Hempty). split.
  - apply (Hraise (FilePresent (Ok (PyList []))) AttributeError). reflexivity.
  - apply (Hempty _ (PyList [PyStr "DOGE"; PyInt 7]) [PyStr "DOGE"; PyInt 7]);
      reflexivity.
Defined.

(** C10. When the persisted list holds more than three catalog codes,
    [load_settings] keeps the first three of them, in the persisted order,
    instead of falling back to the default. *)
Theorem load_settings_truncates (d : list (string * pyval)) (codes : list string) :
  assoc_lookup "selected_currencies" d = Some (PyList (PyStr <$> codes)) →
  3 < length (filter (λ c, c ∈ catalog_codes) codes) →
  load_settings (FilePresent (Ok (PyDict d))) =
    Ok (take 3 (filter (λ c, c ∈ catalog_codes) codes)).
Proof.
  intros Hd Hlen.
  rewrite (load_settings_of_valid (PyDict d) (PyList (PyStr <$> codes))
             (PyStr <$> codes) (filter (λ c, c ∈ catalog_codes) codes)).
  - destruct (filter _ codes) eqn:Hf; [cbn in Hlen; lia|].
    by rewrite bool_decide_eq_true_2.
  - cbn. by rewrite Hd.
  - done.
  - apply valid_codes_strings.
Qed.

Lemma load_settings_truncates_witness :
  load_settings
    (FilePresent (Ok (settings_dict ["TRX"; "XRP"; "BTC"; "ASTER"; "ETH"; "BNB"])))
  = Ok ["TRX"; "BTC"; "ASTER"].
Proof.
  apply (load_settings_truncates _ ["TRX"; "XRP"; "BTC"; "ASTER"; "ETH"; "BNB"]).
  - reflexivity.
  - vm_compute. lia.
Defined.

(** Loading what [save_settings] wrote: the codes pass the catalog filter
    and the length is in range, so nothing is changed. *)
Lemma load_saved (sel : list string) (f : settings_file_state) :
  1 ≤ length sel ≤ 3 → Forall (λ c, c ∈ catalog_codes) sel →
  load_settings (save_settings sel WriteOk f) = Ok sel.
Proof.
  intros [Hlo Hhi] Hcat. cbn [save_settings].
  rewrite (load_settings_of_valid (settings_dict sel) (PyList (PyStr <$> sel))
             (PyStr <$> sel) (filter (λ c, c ∈ catalog_codes) sel));
    [|done|done|apply valid_codes_strings].
  assert (Hfilter : filter (λ c, c ∈ catalog_codes) sel = sel).
  { clear Hlo Hhi. induction Hcat as [|c sel Hc Hcat IH]; [done|].
    rewrite filter_cons. case_decide; [by rewrite IH|done]. }
  rewrite Hfilter. destruct sel; [cbn in Hlo; lia|].
  by rewrite bool_decide_eq_false_2 by (cbn in *; lia).
Qed.

(** C7. Saving a valid selection (the write completing) and loading the
    file again gives the same selection back. *)
Theorem save_load_roundtrip (sel : list string) (f : settings_file_state) :
  valid_selection sel →
  load_settings (save_settings sel WriteOk f) = Ok sel.
Proof. intros (Hlen & Hcat & _). by apply load_saved. Qed.

Lemma save_load_roundtrip_witness :
  load_settings (save_settings ["ETH"; "BTC"; "ASTER"] WriteOk FileAbsent)
  = Ok ["ETH"; "BTC"; "ASTER"].
Proof.
  apply save_load_roundtrip. apply (bool_decide_unpack _). vm_compute. exact I.
Defined.

(** ** The currency selector *)

(** What the loop of [start_websocket_connections] does: it starts a
    thread, with the counter reset, for exactly the listed currencies that
    [needs_start] holds of, and touches nothing else. *)
Lemma start_loop_spec (cs : list string) (st : monitor) :
  let started := filter (λ c, needs_start st c = true) cs in
  let st' := (start_loop cs st).1 in
  (start_loop cs st).2 = StartThread <$> started
  ∧ selected_currencies st' = selected_currencies st
  ∧ currency_vars st' = currency_vars st
  ∧ currency_data st' = currency_data st
  ∧ running st' = running st
  ∧ websockets st' = websockets st
  ∧ settings_file st' = settings_file st
  ∧ connections st' = connections st
  ∧ scheduled st' = scheduled st
  ∧ threads st' = threads st ++
      ((λ c, (c, if in_catalog c then Connecting else Finished)) <$> started)
  ∧ ∀ c, reconnect_attempts st' !! c =
         if decide (c ∈ started) then Some 0 else reconnect_attempts st !! c.
Proof.
  revert st. induction cs as [|c cs IH]; intros st; cbn zeta.
  - cbn. rewrite app_nil_r. split_and!; done.
  - rewrite filter_cons. cbn [start_loop].
    destruct (needs_start st c) eqn:Hneed.
    + set (st1 := start_websocket_thread c _).
      specialize (IH st1). cbn zeta in IH.
      assert (Hsame : ∀ x, needs_start st1 x = needs_start st x) by done.
      rewrite (list_filter_iff _ (λ x, needs_start st x = true)) in IH
        by (intros x; by rewrite Hsame).
      destruct (start_loop cs st1) as [st2 calls]. cbn [fst snd] in IH |- *.
      destruct IH as (-> & -> & -> & -> & -> & -> & -> & -> & -> & -> & Hatt).
      rewrite decide_True by done. cbn. split_and!; try done.
      * by rewrite <- app_assoc.
      * intros x. rewrite Hatt. cbn.
        destruct (decide (c = x)) as [->|Hne].
        -- rewrite lookup_insert_eq, (decide_True (P := x ∈ x :: _)) by by left.
           by case_decide.
        -- rewrite lookup_insert_ne by done. apply decide_ext.
           rewrite elem_of_cons. split; [by right|intros [Hx|Hx]]; [by subst|done].
    + rewrite decide_False by done. apply IH.
Qed.

Lemma reconnect_loop_spec (cs : list string) (st : monitor) :
  let st' := (reconnect_loop cs st).1 in
  (reconnect_loop cs st).2 = StartThread <$> cs
  ∧ selected_currencies st' = selected_currencies st
  ∧ currency_data st' = currency_data st
  ∧ running st' = running st
  ∧ threads st' = threads st ++
      ((λ c, (c, if in_catalog c then Connecting else Finished)) <$> cs)
  ∧ ∀ c, reconnect_attempts st' !! c =
         if decide (c ∈ cs) then Some 0 else reconnect_attempts st !! c.
Proof.
  revert st. induction cs as [|c cs IH]; intros st; cbn zeta.
  - cbn. rewrite app_nil_r. split_and!; done.
  - cbn [reconnect_loop]. set (st1 := start_websocket_thread c _).
    specialize (IH st1). cbn zeta in IH.
    destruct (reconnect_loop cs st1) as [st2 calls]. cbn [fst snd] in IH |- *.
    destruct IH as (-> & -> & -> & -> & -> & Hatt).
    cbn. split_and!; try done.
    + by rewrite <- app_assoc.
    + intros x. rewrite Hatt. cbn.
      destruct (decide (c = x)) as [->|Hne].
      * rewrite lookup_insert_eq, (decide_True (P := x ∈ x :: _)) by by left.
        by case_decide.
      * rewrite lookup_insert_ne by done. apply decide_ext.
        rewrite elem_of_cons. split; [by right|intros [Hx|Hx]]; [by subst|done].
Qed.

Lemma show_currency_selector_keys st :
  (currency_vars (show_currency_selector st)).*1 = catalog_codes.
Proof. done. Qed.

Lemma toggle_keys currency st :
  (currency_vars (toggle currency st)).*1 = (currency_vars st).*1.
Proof.
  cbn. induction (currency_vars st) as [|[k b] l IH]; [done|].
  cbn. rewrite IH. by case_decide.
Qed.

(** A candidate read off the checkboxes is a duplicate-free list of
    catalog codes. *)
Lemma new_selection_of_catalog (vars : list (string * bool)) :
  vars.*1 = catalog_codes →
  Forall (λ c, c ∈ catalog_codes) (new_selection_of vars)
  ∧ NoDup (new_selection_of vars).
Proof.
  intros Hkeys.
  assert (Hsub : sublist (new_selection_of vars) catalog_codes).
  { rewrite <- Hkeys. unfold new_selection_of.
    apply fmap_sublist, sublist_filter. }
  split.
  - apply Forall_forall. intros c Hc. by eapply elem_of_sublist.
  - eapply sublist_NoDup; [|exact Hsub]. by apply (bool_decide_unpack _).
Qed.

Lemma stop_calls_app c1 c2 : stop_calls (c1 ++ c2) = stop_calls c1 ++ stop_calls c2.
Proof. apply omap_app. Qed.
Lemma start_calls_app c1 c2 : start_calls (c1 ++ c2) = start_calls c1 ++ start_calls c2.
Proof. apply omap_app. Qed.
Lemma stop_calls_close l : stop_calls (CloseCall <$> l) = l.
Proof. induction l as [|x l IH]; [done|]. cbn. by f_equal. Qed.
Lemma stop_calls_start l : stop_calls (StartThread <$> l) = [].
Proof. by induction l. Qed.
Lemma start_calls_start l : start_calls (StartThread <$> l) = l.
Proof. induction l as [|x l IH]; [done|]. cbn. by f_equal. Qed.
Lemma start_calls_close l : start_calls (CloseCall <$> l) = [].
Proof. by induction l. Qed.

(** The accepting branch of [apply_currency_selection]. *)
Lemma apply_accepted (io : write_outcome) (st : monitor) :
  let old := selected_currencies st in
  let new := new_selection_of (currency_vars st) in
  let r := apply_currency_selection io st in
  1 ≤ length new ≤ 3 →
  selected_currencies r.1.1 = new
  ∧ settings_file r.1.1 = save_settings new io (settings_file st)
  ∧ r.2 = Ok PyNone
  ∧ r.1.2 = close_calls old new (websockets st)
            ++ (StartThread <$> filter (λ c, needs_start st c = true) new)
            ++ [DestroyWindow]
  ∧ running r.1.1 = running st
  ∧ currency_data r.1.1 = currency_data st
  ∧ threads r.1.1 = threads st ++
      ((λ c, (c, if in_catalog c then Connecting else Finished))
         <$> filter (λ c, needs_start st c = true) new)
  ∧ ∀ c, reconnect_attempts r.1.1 !! c =
         if decide (c ∈ filter (λ c, needs_start st c = true) new)
         then Some 0 else reconnect_attempts st !! c.
Proof.
  intros old new r Hlen. subst r. unfold apply_currency_selection.
  fold new. rewrite bool_decide_eq_true_2 by done.
  unfold start_websocket_connections.
  set (st2 := set_settings_file _ _).
  pose proof (start_loop_spec (selected_currencies st2) st2) as Hspec.
  cbn zeta in Hspec.
  destruct (start_loop (selected_currencies st2) st2) as [st3 starts].
  cbn [fst snd] in Hspec |- *.
  destruct Hspec as (-> & -> & _ & -> & -> & _ & -> & _ & _ & -> & Hatt).
  split_and!; try done.
Qed.

Lemma apply_accepted_net (io : write_outcome) (st : monitor) :
  let r := apply_currency_selection io st in
  1 ≤ length (new_selection_of (currency_vars st)) ≤ 3 →
  currency_vars r.1.1 = currency_vars st
  ∧ websockets r.1.1 = websockets st
  ∧ connections r.1.1 = connections st
  ∧ scheduled r.1.1 = scheduled st.
Proof.
  intros r Hlen. subst r. unfold apply_currency_selection.
  rewrite bool_decide_eq_true_2 by done. unfold start_websocket_connections.
  set (st2 := set_settings_file _ _).
  pose proof (start_loop_spec (selected_currencies st2) st2) as Hspec.
  cbn zeta in Hspec.
  destruct (start_loop (selected_currencies st2) st2) as [st3 starts].
  cbn [fst snd] in Hspec |- *.
  by destruct Hspec as (_ & _ & -> & _ & _ & -> & _ & -> & -> & _).
Qed.

Lemma apply_rejected (io : write_outcome) (st : monitor) :
  ¬ (1 ≤ length (new_selection_of (currency_vars st)) ≤ 3) →
  apply_currency_selection io st = (st, [], Ok PyNone).
Proof.
  intros Hlen. unfold apply_currency_selection.
  by rewrite bool_decide_eq_false_2.
Qed.

(** C6, as the code has it. A selection produced by [load_settings] or by
    [apply_currency_selection] has one to three codes, all from the
    catalog. One produced by the selector has no duplicate either (the
    candidate is read off the catalog's checkboxes; a rejected candidate
    leaves the selection as it was). [load_settings] does not remove
    duplicates: its result is duplicate-free when the persisted items
    are. *)
Theorem selection_invariant :
  (∀ f sel, load_settings f = Ok sel →
     1 ≤ length sel ≤ 3 ∧ Forall (λ c, c ∈ catalog_codes) sel)
  ∧ (∀ settings saved items sel,
       py_get settings "selected_currencies" (PyList [PyStr "BTC"]) = Ok saved →
       py_iter saved = Ok items →
       NoDup items →
       load_settings (FilePresent (Ok settings)) = Ok sel →
       valid_selection sel)
  ∧ (∀ io st,
       (currency_vars st).*1 = catalog_codes →
       let st' := (apply_currency_selection io st).1.1 in
       (1 ≤ length (new_selection_of (currency_vars st)) ≤ 3 →
          valid_selection (selected_currencies st'))
       ∧ (valid_selection (selected_currencies st) →
          valid_selection (selected_currencies st'))).
Proof.
  split_and!.
  - apply load_settings_shape.
  - intros settings saved items sel Hget Hiter Hnd Hload.
    destruct (load_settings_shape _ _ Hload) as [Hlen Hcat].
    split_and!; [lia|lia|done|].
    unfold load_settings, load_settings_try in Hload. cbn in Hload.
    rewrite Hget in Hload. cbn in Hload. rewrite Hiter in Hload. cbn in Hload.
    destruct (valid_codes items) as [valid|] eqn:Hvalid; cbn in Hload.
    + pose proof (valid_codes_NoDup _ _ Hvalid Hnd) as Hv.
      destruct valid as [|c valid]; [injection Hload as <-; by apply NoDup_singleton|].
      case_bool_decide; injection Hload as <-; [|done].
      change (c :: take 2 valid) with (take 3 (c :: valid)).
      eapply sublist_NoDup; [exact Hv|apply sublist_take].
    + injection Hload as <-. by apply NoDup_singleton.
  - intros io st Hkeys st'.
    destruct (new_selection_of_catalog _ Hkeys) as [Hcat Hnd].
    assert (Hacc : 1 ≤ length (new_selection_of (currency_vars st)) ≤ 3 →
                   valid_selection (selected_currencies st')).
    { intros Hlen. subst st'.
      destruct (apply_accepted io st Hlen) as (-> & _). done. }
    split; [done|]. intros Hold.
    destruct (decide (1 ≤ length (new_selection_of (currency_vars st)) ≤ 3))
      as [Hlen|Hlen]; [by apply Hacc|].
    subst st'. by rewrite apply_rejected.
Qed.

Lemma fresh_monitor_init : init true FileAbsent = Ok fresh_monitor.
Proof. reflexivity. Qed.

Lemma selection_invariant_witness :
  valid_selection ["ETH"; "BNB"]
  ∧ valid_selection
      (selected_currencies
         (apply_currency_selection WriteOk (toggle "ETH" selector_opened)).1.1)
  ∧ valid_selection
      (selected_currencies
         (apply_currency_selection WriteOk (toggle "BTC" selector_opened)).1.1).
Proof.
  destruct selection_invariant as (_ & Hload & Happly). split_and!.
  - apply (Hload (settings_dict ["ETH"; "BNB"]) (PyList [PyStr "ETH"; PyStr "BNB"])
             [PyStr "ETH"; PyStr "BNB"]); try reflexivity.
    apply NoDup_cons. split; [|apply NoDup_singleton].
    rewrite list_elem_of_singleton. discriminate.
  - apply (proj1 (Happly WriteOk (toggle "ETH" selector_opened) eq_refl)).
    vm_compute. lia.
  - apply (proj2 (Happly WriteOk (toggle "BTC" selector_opened) eq_refl)).
    apply (bool_decide_unpack _). vm_compute. exact I.
Defined.

(** C6 as stated fails: a settings file listing a code twice is loaded
    with the duplicate. *)
Lemma load_settings_keeps_duplicates :
  load_settings (FilePresent (Ok (settings_dict ["BTC"; "BTC"]))) = Ok ["BTC"; "BTC"]
  ∧ ¬ valid_selection ["BTC"; "BTC"].
Proof.
  split; [reflexivity|]. intros (_ & _ & Hnd).
  apply NoDup_cons in Hnd as [Hin _]. apply Hin. by left.
Qed.

(** The Apply button is enabled exactly for the candidates
    [apply_currency_selection] accepts. *)
Lemma validate_selection_accepts st :
  validate_selection st = true
  ↔ 1 ≤ length (new_selection_of (currency_vars st)) ≤ 3.
Proof. unfold validate_selection. apply bool_decide_eq_true. Qed.

(** C5, as the code has it. A candidate of length 0 or above 3 changes
    nothing (selection, settings file, threads: the whole state is as
    before, and no call is made) and the method returns [None] like on the
    accepting path: the rejection is silent. A candidate of length 1 to 3
    becomes the selection and is handed to [save_settings]. Candidates are
    read off the catalog's checkboxes, so all their codes are in the
    catalog; when the write completes, the file loads back as the new
    selection. *)
Theorem apply_selection_validation (io : write_outcome) (st : monitor) :
  let new := new_selection_of (currency_vars st) in
  let r := apply_currency_selection io st in
  (¬ (1 ≤ length new ≤ 3) → r = (st, [], Ok PyNone))
  ∧ (1 ≤ length new ≤ 3 →
       selected_currencies r.1.1 = new
       ∧ settings_file r.1.1 = save_settings new io (settings_file st)
       ∧ r.2 = Ok PyNone)
  ∧ ((currency_vars st).*1 = catalog_codes →
       Forall (λ c, c ∈ catalog_codes) new
       ∧ (1 ≤ length new ≤ 3 → io = WriteOk →
            load_settings (settings_file r.1.1) = Ok new)).
Proof.
  intros new r. split_and!.
  - apply apply_rejected.
  - intros Hlen. destruct (apply_accepted io st Hlen) as (? & ? & ? & _). done.
  - intros Hkeys. destruct (new_selection_of_catalog _ Hkeys) as [Hcat Hnd].
    split; [done|]. intros Hlen ->.
    destruct (apply_accepted WriteOk st Hlen) as (_ & Hfile & _).
    subst r. rewrite Hfile. by apply load_saved.
Qed.

Lemma apply_selection_validation_witness :
  apply_currency_selection WriteOk (toggle "BTC" selector_opened)
    = (toggle "BTC" selector_opened, [], Ok PyNone)
  ∧ selected_currencies
      (apply_currency_selection WriteOk (toggle "ETH" selector_opened)).1.1
    = ["BTC"; "ETH"]
  ∧ load_settings
      (settings_file
         (apply_currency_selection WriteOk (toggle "ETH" selector_opened)).1.1)
    = Ok ["BTC"; "ETH"].
Proof.
  split_and!.
  - apply (proj1 (apply_selection_validation WriteOk (toggle "BTC" selector_opened))).
    vm_compute. lia.
  - apply (proj1 (proj2 (apply_selection_validation WriteOk
                           (toggle "ETH" selector_opened)))).
    vm_compute. lia.
  - apply (proj2 (proj2 (apply_selection_validation WriteOk
                           (toggle "ETH" selector_opened))));
      [reflexivity|vm_compute; lia|reflexivity].
Defined.

(** C5 as stated fails: with every box unticked the candidate is empty,
    and the call returns [None], exactly as it does for the accepted
    candidate [["ETH"]]; no error value or exception reaches the caller. *)
Lemma apply_rejection_is_silent :
  new_selection_of (currency_vars (toggle "BTC" selector_opened)) = []
  ∧ (apply_currency_selection WriteOk (toggle "BTC" selector_opened)).2 = Ok PyNone
  ∧ new_selection_of (currency_vars (toggle "ETH" (toggle "BTC" selector_opened)))
    = ["ETH"]
  ∧ (apply_currency_selection WriteOk
       (toggle "ETH" (toggle "BTC" selector_opened))).2 = Ok PyNone.
Proof. split_and!; reflexivity. Qed.

(** The test of [start_websocket_connections] in terms of the state: a
    thread is started unless the connection objects have the attribute
    [closed] and the currency has an open registered connection. *)
Lemma needs_start_spec st c :
  needs_start st c = negb (closed_attribute st && open_registered st c).
Proof.
  unfold needs_start, read_closed, open_registered.
  destruct (websockets st !! c) as [ws|]; [|by rewrite andb_false_r].
  destruct (closed_attribute st); [|done]. cbn [andb].
  destruct (connections st !! ws) as [[]|]; done.
Qed.

Lemma open_registered_true st c :
  open_registered st c = true → is_Some (websockets st !! c).
Proof. unfold open_registered. destruct (websockets st !! c); [eauto|done]. Qed.

(** C3, as the code has it. On an accepted change, a close is requested
    for exactly the de-selected currencies that have a registered
    connection; the request changes nothing (the registry, the
    connections and the threads there are stay as they were), and the
    stream of a de-selected currency is ended by its own receive loop,
    which closes the connection at the next frame. A thread is started
    only for currencies of the new selection, and for every one of them
    that has no open registered connection. Where the connection objects
    have the attribute [closed], these are all the starts; when moreover
    the currencies with an open registered connection are those of the
    old selection, stops and starts are the set difference both ways and
    the symbols kept get no call. *)
Theorem apply_selection_reconciles (float_of_str : string → option spec_float)
    (io : write_outcome) (st : monitor) :
  let old := selected_currencies st in
  let new := new_selection_of (currency_vars st) in
  let r := apply_currency_selection io st in
  let calls := r.1.2 in
  1 ≤ length new ≤ 3 →
  stop_calls calls = filter (λ c, (c ∉ new) ∧ is_Some (websockets st !! c)) old
  ∧ websockets r.1.1 = websockets st
  ∧ connections r.1.1 = connections st
  ∧ (∃ started, threads r.1.1 = threads st ++ started)
  ∧ (∀ c ws message, c ∉ new →
       connect_binance_websocket float_of_str c (Streaming ws) (Message message) r.1.1
       = Some (Finished, close_connection ws r.1.1))
  ∧ (∀ c, c ∈ start_calls calls → c ∈ new)
  ∧ (∀ c, c ∈ new → open_registered st c = false → c ∈ start_calls calls)
  ∧ (closed_attribute st = true →
       start_calls calls = filter (λ c, open_registered st c = false) new
       ∧ (Forall (λ c, c ∈ old ↔ open_registered st c = true) (old ++ new) →
            list_to_set (stop_calls calls)
            = (list_to_set old ∖ list_to_set new : gset string)
            ∧ list_to_set (start_calls calls)
              = (list_to_set new ∖ list_to_set old : gset string)
            ∧ ∀ c, c ∈ old → c ∈ new →
                   (c ∉ stop_calls calls) ∧ (c ∉ start_calls calls))).
Proof.
  intros old new r calls Hlen. subst calls r.
  destruct (apply_accepted io st Hlen) as (Hsel & _ & _ & -> & _ & _ & Ht & _).
  destruct (apply_accepted_net io st Hlen) as (_ & Hw & Hc & _).
  fold old new. unfold close_calls.
  rewrite !stop_calls_app, !start_calls_app, stop_calls_close, stop_calls_start,
    start_calls_close, start_calls_start.
  change (stop_calls [DestroyWindow]) with (@nil string).
  change (start_calls [DestroyWindow]) with (@nil string).
  cbn [app]. rewrite !app_nil_r.
  split_and!; try done.
  - by eexists.
  - intros c ws message Hc0. cbn. rewrite Hsel. fold new.
    rewrite (bool_decide_eq_false_2 _ Hc0). cbn. by rewrite orb_true_r.
  - intros c Hc0. by apply list_elem_of_filter in Hc0 as [_ ?].
  - intros c Hc0 Hopen. apply list_elem_of_filter. split; [|done].
    by rewrite needs_start_spec, Hopen, andb_false_r.
  - intros Hattr.
    assert (Hfilter : filter (λ c, needs_start st c = true) new
                      = filter (λ c, open_registered st c = false) new).
    { apply list_filter_iff. intros c. rewrite needs_start_spec, Hattr. cbn [andb].
      by destruct (open_registered st c). }
    rewrite Hfilter. split; [done|].
    intros Hsync. rewrite Forall_app, !Forall_forall in Hsync.
    destruct Hsync as [Hold Hnew].
    assert (Hstop : ∀ c, c ∈ filter (λ c, (c ∉ new) ∧ is_Some (websockets st !! c)) old
                         ↔ c ∈ old ∧ c ∉ new).
    { intros c. rewrite list_elem_of_filter. split; [tauto|].
      intros [Ho Hn]. split_and!; try done.
      apply open_registered_true. by apply (Hold c Ho). }
    assert (Hstart : ∀ c, c ∈ filter (λ c, open_registered st c = false) new
                          ↔ c ∈ new ∧ c ∉ old).
    { intros c. rewrite list_elem_of_filter. split.
      - intros [Hs Hn]. split; [done|]. intros Ho%(Hnew c Hn). congruence.
      - intros [Hn Ho]. split; [|done].
        destruct (open_registered st c) eqn:Hs; [|done]. by apply (Hnew c Hn) in Hs. }
    split_and!.
    + apply set_eq. intros c.
      rewrite elem_of_difference, !elem_of_list_to_set. apply Hstop.
    + apply set_eq. intros c.
      rewrite elem_of_difference, !elem_of_list_to_set. apply Hstart.
    + intros c Ho Hn. rewrite Hstop, Hstart. tauto.
Qed.

Lemma apply_selection_reconciles_witness :
  let st := toggle "BTC" (toggle "ETH" (show_currency_selector btc_streaming)) in
  let calls := (apply_currency_selection WriteOk st).1.2 in
  selected_currencies st = ["BTC"]
  ∧ new_selection_of (currency_vars st) = ["ETH"]
  ∧ stop_calls calls = ["BTC"]
  ∧ start_calls calls = ["ETH"]
  ∧ list_to_set (stop_calls calls) = (list_to_set ["BTC"] ∖ list_to_set ["ETH"] : gset string)
  ∧ connect_binance_websocket no_float "BTC" (Streaming 0)
      (Message (Ok (PyDict []))) (apply_currency_selection WriteOk st).1.1
    = Some (Finished, close_connection 0 (apply_currency_selection WriteOk st).1.1).
Proof.
  intros st calls.
  pose proof (apply_selection_reconciles no_float WriteOk st) as H.
  cbn zeta in H. fold calls in H.
  destruct H as (Hstop & _ & _ & _ & Hframe & _ & _ & Hattr).
  { vm_compute. lia. }
  destruct (Hattr eq_refl) as [Hstart Hsets].
  split_and!; [reflexivity|reflexivity|rewrite Hstop; reflexivity
              |rewrite Hstart; reflexivity| |].
  - apply Hsets. apply (bool_decide_unpack _). vm_compute. exact I.
  - apply Hframe. apply (bool_decide_unpack _). vm_compute. exact I.
Defined.

(** C3 as stated fails. The BTC connection has failed for good (six
    failed attempts, the thread has ended, nothing is registered in
    [websockets]). (1) The selection goes from [BTC] to [BTC, ETH]: a
    thread is started for BTC as well, a symbol of the intersection.
    (2) The selection goes from [BTC] to [ETH]: no close is requested for
    BTC, a symbol of old minus new. *)
Lemma apply_selection_not_set_difference :
  (let st := toggle "ETH" (show_currency_selector (failed_attempts 6)) in
   selected_currencies st = ["BTC"]
   ∧ new_selection_of (currency_vars st) = ["BTC"; "ETH"]
   ∧ threads st = [("BTC", Finished)]
   ∧ start_calls (apply_currency_selection WriteOk st).1.2 = ["BTC"; "ETH"]
   ∧ threads (apply_currency_selection WriteOk st).1.1
     = [("BTC", Finished); ("BTC", Connecting); ("ETH", Connecting)])
  ∧ (let st := toggle "BTC" (toggle "ETH" (show_currency_selector (failed_attempts 6))) in
     selected_currencies st = ["BTC"]
     ∧ new_selection_of (currency_vars st) = ["ETH"]
     ∧ stop_calls (apply_currency_selection WriteOk st).1.2 = []).
Proof. split; split_and!; reflexivity. Qed.

(** ** The connection life cycle *)

Section CoroutineProperties.

Variable float_of_str : string → option spec_float.

Lemma data_complete_insert st c e :
  data_complete st →
  data_complete (set_currency_data (<[c := e]> (currency_data st)) st).
Proof.
  intros Hst c' Hc'. cbn. rewrite lookup_insert.
  destruct (decide (c = c')); [eauto|by apply Hst].
Qed.

Lemma store_field_data_complete f c st :
  data_complete st → data_complete (store_field f c st).
Proof.
  intros Hst. unfold store_field. destruct (currency_data st !! c); [|done].
  by apply data_complete_insert.
Qed.

Lemma perform_data_complete c eff st :
  data_complete st → data_complete (perform c eff st).
Proof.
  intros Hst. destruct eff; cbn [perform]; try apply store_field_data_complete; done.
Qed.

Lemma step_inv st st' :
  step float_of_str st st' → data_complete st → data_complete st'.
Proof.
  intros Hstep Hdata.
  destruct Hstep as [st i c ph ev ph' eff Hth Hco| | |st io _|st _|]; try done.
  - intros c' Hc'. by apply (perform_data_complete c eff st Hdata).
  - destruct (decide (1 ≤ length (new_selection_of (currency_vars st)) ≤ 3))
      as [Hlen|Hlen]; [|by rewrite apply_rejected].
    destruct (apply_accepted io st Hlen) as (_ & _ & _ & _ & _ & Hd & _).
    intros c Hc. rewrite Hd. by apply Hdata.
  - destruct (reconnect_loop_spec (selected_currencies st) st)
      as (_ & _ & Hd & _).
    intros c Hc. unfold reconnect. rewrite Hd. by apply Hdata.
Qed.

(** Every catalog code has its entry of [currency_data], in every
    reachable state. *)
Lemma reachable_inv f st :
  reachable float_of_str f st → data_complete st.
Proof.
  induction 1 as [has_closed st0 Hinit|st st' _ Hdata Hstep].
  - unfold init in Hinit. destruct (load_settings f) as [sel|]; [|done].
    injection Hinit as <-. unfold run, start_websocket_connections.
    set (st0 := Monitor _ _ _ _ _ _ _ _ _ _ _).
    destruct (start_loop_spec (selected_currencies st0) st0)
      as (_ & _ & _ & Hd & _).
    intros c Hc. rewrite Hd. cbn.
    assert (Hall : Forall (λ c, is_Some
              (list_to_map (M:=gmap string currency_entry)
                 ((λ c, (c, loading_entry)) <$> catalog_codes) !! c)) catalog_codes).
    { apply (bool_decide_unpack _). vm_compute. exact I. }
    rewrite Forall_forall in Hall. by apply Hall.
  - by apply (step_inv st st').
Qed.

(** *** An uninterrupted resumption is a sequence of steps *)

Lemma coroutine_step_threads c ph ev t st :
  coroutine_step float_of_str c ph ev (set_threads t st)
  = coroutine_step float_of_str c ph ev st.
Proof. done. Qed.

Lemma perform_threads c eff t st :
  perform c eff (set_threads t st) = set_threads t (perform c eff st).
Proof.
  destruct eff; try done; cbn [perform]; unfold store_field;
    cbn [currency_data set_threads]; by destruct (currency_data st !! c).
Qed.

Lemma threads_perform c eff st : threads (perform c eff st) = threads st.
Proof.
  destruct eff; try done; cbn [perform]; unfold store_field;
    by destruct (currency_data st !! c).
Qed.

Lemma threads_store_field f c st : threads (store_field f c st) = threads st.
Proof. unfold store_field. by destruct (currency_data st !! c). Qed.

Lemma thread_at_id i c ph st :
  threads st !! i = Some (c, ph) → thread_at i c ph st = st.
Proof.
  intros Hth. unfold thread_at. rewrite list_insert_id by done. by destruct st.
Qed.

Lemma local_step i c ph ev st ph' eff :
  i < length (threads st) →
  coroutine_step float_of_str c ph ev st = Some (ph', eff) →
  thread_steps float_of_str i (thread_at i c ph st) (thread_at i c ph' (perform c eff st)).
Proof.
  intros Hi Hco. exists ev. unfold advance, thread_at.
  cbn [threads set_threads]. rewrite list_lookup_insert_eq by done.
  rewrite coroutine_step_threads, Hco, perform_threads, threads_perform.
  by rewrite list_insert_insert_eq.
Qed.

Lemma store_field_lookup f c st e :
  currency_data st !! c = Some e →
  currency_data (store_field f c st) !! c = Some (f e).
Proof.
  intros He. unfold store_field. rewrite He. cbn. by rewrite lookup_insert_eq.
Qed.

Lemma store_field_insert f c st e :
  currency_data st !! c = Some e →
  store_field f c st = set_currency_data (<[c := f e]> (currency_data st)) st.
Proof. intros He. unfold store_field. by rewrite He. Qed.

(** Lines 423-443 in terms of [parse_ticker]. *)
Lemma handle_message_parse c message st :
  handle_message float_of_str c message st
  = match parse_ticker float_of_str message with
    | Ok (p, q1, q2) =>
        match currency_data st !! c with
        | Some _ =>
            Ok (schedule_display c
                  (set_currency_data
                     (<[c := CurrencyEntry (formatted_price p) q1 q2]> (currency_data st))
                     st))
        | None => Ok st
        end
    | Raise e => if parse_error_caught e then Ok st else Raise e
    end.
Proof.
  unfold handle_message, handle_message_try, parse_ticker, try_except.
  destruct message as [data|e]; cbn; [|done].
  destruct (py_getitem data "c" ≫= py_float float_of_str) as [p|e]; cbn; [|done].
  destruct (py_getitem data "P" ≫= py_float float_of_str) as [q|e]; cbn; [|done].
  by destruct (currency_data st !! c).
Qed.

Ltac local_go ev tac :=
  eapply rtc_l;
    [eapply (local_step _ _ _ ev);
       [by rewrite ?threads_perform, ?threads_store_field
       |cbn [coroutine_step perform]; tac; reflexivity]
    |cbn [perform]].

Lemma failing_steps i c st :
  i < length (threads st) →
  rtc (thread_steps float_of_str i) (thread_at i c Failing st)
    (thread_at i c Finished
       match currency_data st !! c with
       | Some entry =>
           schedule_display c
             (set_currency_data
                (<[c := CurrencyEntry "Error" (price_change entry) (change_24h entry)]>
                   (currency_data st)) st)
       | None => st
       end).
Proof.
  intros Hi. destruct (currency_data st !! c) as [entry|] eqn:He.
  - local_go (@None net_event) ltac:(rewrite He).
    rewrite (store_field_insert _ c st entry He).
    local_go (@None net_event) idtac.
    apply rtc_refl.
  - local_go (@None net_event) ltac:(rewrite He).
    apply rtc_refl.
Qed.

Lemma except_steps i c st :
  i < length (threads st) →
  rtc (thread_steps float_of_str i) (thread_at i c Excepted st)
    (thread_at i c (except_handler c st).1 (except_handler c st).2).
Proof.
  intros Hi. pose proof (failing_steps i c st Hi) as Hfail. unfold except_handler.
  destruct (running st) eqn:Hrun; cbn [andb].
  2:{ local_go (@None net_event) ltac:(rewrite Hrun).
      by destruct (currency_data st !! c). }
  destruct (bool_decide (c ∈ selected_currencies st)) eqn:Hsel; cbn [andb].
  2:{ local_go (@None net_event) ltac:(rewrite Hrun).
      local_go (@None net_event) ltac:(rewrite Hsel).
      by destruct (currency_data st !! c). }
  destruct (bool_decide (default 0 (reconnect_attempts st !! c) < max_reconnect_attempts))
    eqn:Hlt.
  2:{ local_go (@None net_event) ltac:(rewrite Hrun).
      local_go (@None net_event) ltac:(rewrite Hsel).
      local_go (@None net_event) ltac:(rewrite Hlt).
      by destruct (currency_data st !! c). }
  local_go (@None net_event) ltac:(rewrite Hrun).
  local_go (@None net_event) ltac:(rewrite Hsel).
  local_go (@None net_event) ltac:(rewrite Hlt).
  local_go (@None net_event) idtac.
  local_go (@None net_event) idtac.
  apply rtc_refl.
Qed.

Lemma store_three c st entry formatted q1 q2 :
  currency_data st !! c = Some entry →
  store_field (λ e, CurrencyEntry (price e) (price_change e) q2) c
    (store_field (λ e, CurrencyEntry (price e) q1 (change_24h e)) c
       (store_field (λ e, CurrencyEntry formatted (price_change e) (change_24h e)) c st))
  = set_currency_data (<[c := CurrencyEntry formatted q1 q2]> (currency_data st)) st.
Proof.
  intros He.
  pose proof (store_field_lookup
                (λ e, CurrencyEntry formatted (price_change e) (change_24h e)) c st entry He)
    as H1.
  pose proof (store_field_lookup (λ e, CurrencyEntry (price e) q1 (change_24h e)) c _ _ H1)
    as H2.
  rewrite (store_field_insert _ c _ _ H2), (store_field_insert _ c _ _ H1),
    (store_field_insert _ c _ _ He).
  cbn. by rewrite !insert_insert_eq.
Qed.

(** The coroutine run from one suspension to the next is a sequence of
    steps of its thread. *)
Lemma serial_steps i c ph ev st ph' st' :
  i < length (threads st) →
  connect_binance_websocket float_of_str c ph ev st = Some (ph', st') →
  rtc (thread_steps float_of_str i) (thread_at i c ph st) (thread_at i c ph' st').
Proof.
  intros Hi Hco.
  destruct ph as [|ws| | |ws'|ws'|ws' m'|ws' m'|ws' s' x' y'|ws' x' y'|ws' y'|ws'|ws'|ws'| | | | |n'| | ],
           ev as [| |message| | |]; cbn in Hco; try discriminate.
  - injection Hco as <- <-.
    local_go (Some ConnectOk) idtac. local_go (@None net_event) idtac.
    local_go (@None net_event) idtac. apply rtc_refl.
  - injection Hco as Hco. local_go (Some ConnectFails) idtac.
    pose proof (except_steps i c st Hi) as H. by rewrite Hco in H.
  - local_go (Some (Message message)) idtac.
    destruct (running st) eqn:Hrun; cbn [negb orb] in Hco.
    2:{ injection Hco as <- <-. local_go (@None net_event) ltac:(rewrite Hrun).
        local_go (@None net_event) idtac. apply rtc_refl. }
    local_go (@None net_event) ltac:(rewrite Hrun).
    destruct (bool_decide (c ∈ selected_currencies st)) eqn:Hsel; cbn [negb] in Hco.
    2:{ injection Hco as <- <-. local_go (@None net_event) ltac:(rewrite Hsel).
        local_go (@None net_event) idtac. apply rtc_refl. }
    rewrite handle_message_parse in Hco.
    destruct (parse_ticker float_of_str message) as [[[p q1] q2]|e] eqn:Hparse.
    + local_go (@None net_event) ltac:(rewrite Hsel, Hparse).
      destruct (currency_data st !! c) as [entry|] eqn:He; injection Hco as <- <-.
      * pose proof (store_field_lookup
                      (λ e, CurrencyEntry (formatted_price p) (price_change e) (change_24h e))
                      c st entry He) as H1.
        pose proof (store_field_lookup
                      (λ e, CurrencyEntry (price e) q1 (change_24h e)) c _ _ H1) as H2.
        local_go (@None net_event) ltac:(rewrite He).
        local_go (@None net_event) ltac:(rewrite H1).
        local_go (@None net_event) ltac:(rewrite H2).
        local_go (@None net_event) idtac.
        rewrite (store_three c st entry _ q1 q2 He). apply rtc_refl.
      * local_go (@None net_event) ltac:(rewrite He). apply rtc_refl.
    + local_go (@None net_event) ltac:(rewrite Hsel, Hparse).
      destruct (parse_error_caught e).
      * injection Hco as <- <-. apply rtc_refl.
      * injection Hco as Hco. local_go (@None net_event) idtac.
        pose proof (except_steps i c (close_connection ws st) Hi) as H.
        by rewrite Hco in H.
  - injection Hco as Hco. local_go (Some ConnectionLost) idtac.
    pose proof (except_steps i c (close_connection ws st) Hi) as H. by rewrite Hco in H.
  - injection Hco as <- <-. local_go (Some ConnectionEnds) idtac. apply rtc_refl.
  - injection Hco as <- <-. local_go (Some SleepDone) idtac. apply rtc_refl.
Qed.

Lemma thread_steps_step i st st' :
  thread_steps float_of_str i st st' → step float_of_str st st'.
Proof.
  intros [ev Hadv]. unfold advance in Hadv.
  destruct (threads st !! i) as [[c ph]|] eqn:Hth; [|done].
  destruct (coroutine_step float_of_str c ph ev st) as [[ph' eff]|] eqn:Hco; [|done].
  injection Hadv as <-. by eapply step_coroutine.
Qed.

Lemma thread_steps_length i st st' :
  thread_steps float_of_str i st st' → length (threads st') = length (threads st).
Proof.
  intros [ev Hadv]. unfold advance in Hadv.
  destruct (threads st !! i) as [[c ph]|] eqn:Hth; [|done].
  destruct (coroutine_step float_of_str c ph ev st) as [[ph' eff]|] eqn:Hco; [|done].
  injection Hadv as <-. cbn. by rewrite length_insert.
Qed.

Lemma resume_steps i ev st :
  rtc (thread_steps float_of_str i) st (resume float_of_str i ev st).
Proof.
  unfold resume.
  destruct (threads st !! i) as [[c ph]|] eqn:Hth; [|apply rtc_refl].
  destruct (connect_binance_websocket float_of_str c ph ev st) as [[ph' st']|] eqn:Hco;
    [|apply rtc_refl].
  rewrite <- (thread_at_id i c ph st Hth) at 1.
  apply (serial_steps i c ph ev st ph' st'); [|done]. by eapply lookup_lt_Some.
Qed.

Lemma steps_reachable f st st' :
  reachable float_of_str f st → rtc (step float_of_str) st st' →
  reachable float_of_str f st'.
Proof.
  intros Hreach Hsteps. induction Hsteps as [|st st1 st' Hstep _ IH]; [done|].
  apply IH. by eapply reachable_step.
Qed.

Lemma thread_steps_rtc i st st' :
  rtc (thread_steps float_of_str i) st st' → rtc (step float_of_str) st st'.
Proof.
  induction 1 as [|st st1 st' Hstep _ IH]; [apply rtc_refl|].
  eapply rtc_l; [by eapply thread_steps_step|done].
Qed.

(** Steps of coroutines stay within [P] when [P] only looks at how many
    threads there are. *)
Lemma thread_steps_within (P : monitor → Prop) f i st st' :
  (∀ s, length (threads s) = length (threads st) → P s) →
  reachable_within float_of_str P f st →
  rtc (thread_steps float_of_str i) st st' →
  reachable_within float_of_str P f st'.
Proof.
  intros HP Hreach Hsteps. induction Hsteps as [|st st1 st' Hstep _ IH]; [done|].
  apply IH.
  - intros s Hs. apply HP. rewrite Hs. by eapply thread_steps_length.
  - eapply within_step; [exact Hreach|by apply HP|by eapply thread_steps_step].
Qed.

(** The except-branch taken with the counter at the limit. *)
Lemma except_handler_at_limit c st :
  data_complete st → c ∈ catalog_codes →
  reconnect_attempts st !! c = Some max_reconnect_attempts →
  ∃ st', except_handler c st = (Finished, st')
         ∧ price <$> currency_data st' !! c = Some "Error"
         ∧ reconnect_attempts st' = reconnect_attempts st
         ∧ threads st' = threads st.
Proof.
  intros Hdata Hc Hatt. unfold except_handler. rewrite Hatt.
  change (default 0 (Some max_reconnect_attempts)) with max_reconnect_attempts.
  rewrite (bool_decide_eq_false_2 (_ < _)) by lia. rewrite !andb_false_r.
  destruct (Hdata c Hc) as [entry ->]. eexists. split; [done|].
  cbn. by rewrite lookup_insert_eq.
Qed.

(** The except-branch taken with the counter below the limit. *)
Lemma except_handler_below_limit c st :
  running st = true → c ∈ selected_currencies st →
  default 0 (reconnect_attempts st !! c) < max_reconnect_attempts →
  ∃ st', except_handler c st = (Sleeping, st')
         ∧ reconnect_attempts st' !! c
           = Some (default 0 (reconnect_attempts st !! c) + 1).
Proof.
  intros Hrun Hsel Hlt. unfold except_handler.
  rewrite Hrun, !bool_decide_eq_true_2 by done. eexists. split; [done|].
  cbn. by rewrite lookup_insert_eq.
Qed.

(** *** The reconnect counter *)

Lemma coroutine_step_counter c ph ev st ph' eff :
  coroutine_step float_of_str c ph ev st = Some (ph', eff) →
  is_finished ph = false
  ∧ (∀ n, eff = StoreAttempts n →
          (n = 0 ∧ ∃ ws, ph = Registered ws) ∨ ph = StoringAttempts n)
  ∧ (ph' = Incrementing →
       ph = ExceptCounting
       ∧ default 0 (reconnect_attempts st !! c) < max_reconnect_attempts)
  ∧ (∀ n, ph' = StoringAttempts n →
          ph = Incrementing ∧ n = default 0 (reconnect_attempts st !! c) + 1).
Proof.
  intros Hco.
  destruct ph, ev as [[]|]; cbn in Hco; try discriminate;
    repeat (case_match; try discriminate);
    injection Hco as <- <-; split_and!; try done; intros; simplify_eq; eauto.
  split; [done|]. by eapply bool_decide_eq_true_1.
Qed.

Lemma attempts_perform c eff st c' :
  c' ≠ c → reconnect_attempts (perform c eff st) !! c' = reconnect_attempts st !! c'.
Proof.
  intros Hne. destruct eff; cbn [perform]; unfold store_field;
    try (by destruct (currency_data st !! c)); try done.
  cbn. by rewrite lookup_insert_ne.
Qed.

Lemma attempts_perform_same c eff st :
  reconnect_attempts (perform c eff st)
  = match eff with
    | StoreAttempts n => <[c := n]> (reconnect_attempts st)
    | _ => reconnect_attempts st
    end.
Proof.
  destruct eff; cbn [perform]; unfold store_field;
    try (by destruct (currency_data st !! c)); done.
Qed.

(** The threads [start_websocket_thread] adds are connecting, or have
    returned at once. *)
Lemma started_phase (l : list string) i c ph :
  ((λ c, (c, if in_catalog c then Connecting else Finished)) <$> l) !! i = Some (c, ph) →
  ph = Connecting ∨ ph = Finished.
Proof.
  rewrite list_lookup_fmap. destruct (l !! i) as [x|]; [|done]. cbn.
  intros [= <- <-]. destruct (in_catalog x); eauto.
Qed.

Lemma counter_within_start c st st' (l : list string) :
  threads st' = threads st ++ ((λ c, (c, if in_catalog c then Connecting else Finished)) <$> l) →
  (∀ x, reconnect_attempts st' !! x
        = if decide (x ∈ l) then Some 0 else reconnect_attempts st !! x) →
  counter_within c st → counter_within c st'.
Proof.
  intros Ht Ha (H1 & H2 & H3).
  assert (Hold : ∀ i ph, threads st' !! i = Some (c, ph) →
                         ph ≠ Connecting → ph ≠ Finished →
                         threads st !! i = Some (c, ph)).
  { intros i ph Hi Hc Hf. rewrite Ht in Hi.
    apply lookup_app_Some in Hi as [Hi|[_ Hi]]; [done|].
    apply started_phase in Hi as [->| ->]; done. }
  split_and!.
  - intros n. rewrite Ha. case_decide; [|apply H1].
    intros [= <-]. unfold max_reconnect_attempts. lia.
  - intros i Hi. apply Hold in Hi; [|done..]. rewrite Ha. case_decide.
    + cbn. unfold max_reconnect_attempts. lia.
    + by apply (H2 i).
  - intros i n Hi. apply Hold in Hi; [|done..]. by apply (H3 i).
Qed.

(** The bound on the counter of a currency is kept by every step taken
    while the currency has a single thread. *)
Lemma counter_step c st st' :
  step float_of_str st st' → single_thread c st →
  counter_within c st → counter_within c st'.
Proof.
  intros Hstep Hsingle (H1 & H2 & H3).
  destruct Hstep as [st i0 c0 ph ev ph' eff Hth Hco|st _|st c1 _|st io _|st _|st _];
    try (by split_and!).
  - destruct (coroutine_step_counter _ _ _ _ _ _ Hco) as (Hph & Hstore & Hinc & Hsto).
    assert (Hi0 : i0 < length (threads st)) by by eapply lookup_lt_Some.
    destruct (decide (c0 = c)) as [->|Hne].
    + assert (Hother : ∀ i ph1, threads st !! i = Some (c, ph1) → i ≠ i0 →
                                is_finished ph1 = true).
      { intros i ph1 Hi Hne. destruct (is_finished ph1) eqn:Hf; [done|].
        by destruct (Hne (Hsingle i i0 ph1 ph Hi Hth Hf Hph)). }
      assert (Hnew : ∀ i ph1, threads (set_threads (<[i0 := (c, ph')]> (threads st))
                                         (perform c eff st)) !! i = Some (c, ph1) →
                              is_finished ph1 = false → i = i0 ∧ ph1 = ph').
      { intros i ph1. cbn. destruct (decide (i = i0)) as [->|Hi].
        - rewrite list_lookup_insert_eq by done. by intros [= <-].
        - rewrite list_lookup_insert_ne by done. intros Hi1 Hf.
          rewrite (Hother i ph1 Hi1 Hi) in Hf. discriminate. }
      split_and!.
      * intros n. cbn. rewrite attempts_perform_same. destruct eff; try apply H1.
        rewrite lookup_insert_eq. intros [= <-].
        destruct (Hstore n0 eq_refl) as [[-> _]| ->].
        -- unfold max_reconnect_attempts. lia.
        -- by apply (H3 i0).
      * intros i Hi. destruct (Hnew i _ Hi eq_refl) as [-> Hp].
        destruct (Hinc (eq_sym Hp)) as [-> Hlt].
        cbn. rewrite attempts_perform_same. destruct eff; try done.
        destruct (Hstore _ eq_refl) as [[_ [ws Heq]]|Heq]; discriminate.
      * intros i n Hi. destruct (Hnew i _ Hi eq_refl) as [-> Hp].
        destruct (Hsto n (eq_sym Hp)) as [-> ->].
        pose proof (H2 i0 Hth). lia.
    + assert (Hsame : ∀ i ph1, threads (set_threads (<[i0 := (c0, ph')]> (threads st))
                                          (perform c0 eff st)) !! i = Some (c, ph1) →
                               threads st !! i = Some (c, ph1)).
      { intros i ph1. cbn. destruct (decide (i = i0)) as [->|Hi].
        - rewrite list_lookup_insert_eq by done. intros [= ? ?]. by subst.
        - by rewrite list_lookup_insert_ne. }
      split_and!.
      * intros n. cbn. rewrite attempts_perform by done. apply H1.
      * intros i Hi. cbn. rewrite attempts_perform by done. apply (H2 i). by apply Hsame.
      * intros i n Hi. apply (H3 i). by apply Hsame.
  - destruct (decide (1 ≤ length (new_selection_of (currency_vars st)) ≤ 3))
      as [Hlen|Hlen]; [|by rewrite apply_rejected].
    destruct (apply_accepted io st Hlen) as (_ & _ & _ & _ & _ & _ & Ht & Ha).
    by eapply counter_within_start.
  - destruct (reconnect_loop_spec (selected_currencies st) st)
      as (_ & _ & _ & _ & Ht & Ha).
    by eapply counter_within_start.
Qed.

Lemma within_counter c f st :
  reachable_within float_of_str (single_thread c) f st → counter_within c st.
Proof.
  induction 1 as [has_closed st0 Hinit|st st' _ IH Hsingle Hstep];
    [|by eapply counter_step].
  unfold init in Hinit. destruct (load_settings f) as [sel|]; [|done].
  injection Hinit as <-. unfold run, start_websocket_connections.
  set (st0 := Monitor _ _ _ _ _ _ _ _ _ _ _).
  destruct (start_loop_spec (selected_currencies st0) st0)
    as (_ & _ & _ & _ & _ & _ & _ & _ & _ & Ht & Ha).
  eapply (counter_within_start c st0); [exact Ht|exact Ha|].
  split_and!; intros *; cbn; by rewrite ?lookup_empty.
Qed.

(** C2, as the code has it. As long as a currency has at most one thread
    that has not returned, its reconnect counter never exceeds
    [max_reconnect_attempts], however the threads interleave. The counter
    is tested before it is incremented: a transport error that finds it
    below the limit (the program running, the currency selected, the
    handler run with no other thread in between) raises it by one and
    sends the coroutine to sleep before the next attempt; a transport
    error that finds it at the limit ends the coroutine: the published
    price becomes ["Error"], the counter stays, no thread is added. A
    coroutine that has returned takes no step, so nothing retries on its
    own; a new attempt comes only from [reconnect] or
    [start_websocket_connections], which reset the counter to 0 and start
    a thread. *)
Theorem reconnect_attempts_limit f st :
  reachable float_of_str f st →
  (∀ c, reachable_within float_of_str (single_thread c) f st →
        ∀ n, reconnect_attempts st !! c = Some n → n ≤ max_reconnect_attempts)
  ∧ (∀ c ph ev,
       is_transport_error ph ev = true →
       running st = true → c ∈ selected_currencies st →
       default 0 (reconnect_attempts st !! c) < max_reconnect_attempts →
       ∃ st', connect_binance_websocket float_of_str c ph ev st = Some (Sleeping, st')
              ∧ reconnect_attempts st' !! c
                = Some (default 0 (reconnect_attempts st !! c) + 1))
  ∧ (∀ c ph ev,
       is_transport_error ph ev = true → c ∈ catalog_codes →
       reconnect_attempts st !! c = Some max_reconnect_attempts →
       ∃ st', connect_binance_websocket float_of_str c ph ev st = Some (Finished, st')
              ∧ price <$> currency_data st' !! c = Some "Error"
              ∧ reconnect_attempts st' !! c = Some max_reconnect_attempts
              ∧ threads st' = threads st)
  ∧ (∀ c ev ev' st1,
       connect_binance_websocket float_of_str c Finished ev st1 = None
       ∧ coroutine_step float_of_str c Finished ev' st1 = None)
  ∧ (∀ c, c ∈ selected_currencies st → c ∈ catalog_codes →
       reconnect_attempts (reconnect st).1 !! c = Some 0
       ∧ (c, Connecting) ∈ threads (reconnect st).1)
  ∧ (∀ c, c ∈ selected_currencies st → c ∈ catalog_codes →
       needs_start st c = true →
       reconnect_attempts (start_websocket_connections st).1 !! c = Some 0
       ∧ (c, Connecting) ∈ threads (start_websocket_connections st).1).
Proof.
  intros Hreach. pose proof (reachable_inv _ _ Hreach) as Hdata.
  split_and!.
  - intros c Hwithin. by destruct (within_counter c f st Hwithin) as [H _].
  - intros c ph ev Herr Hrun Hsel Hlt.
    destruct ph as [|ws| | |ws'|ws'|ws' m'|ws' m'|ws' s' x' y'|ws' x' y'|ws' y'|ws'|ws'|ws'| | | | |n'| | ], ev as [| |message| | |]; try discriminate; cbn.
    + destruct (except_handler_below_limit c st Hrun Hsel Hlt) as (st' & -> & Ha).
      by exists st'.
    + destruct (except_handler_below_limit c (close_connection ws st) Hrun Hsel Hlt)
        as (st' & -> & Ha).
      by exists st'.
  - intros c ph ev Herr Hc Hlim.
    destruct ph as [|ws| | |ws'|ws'|ws' m'|ws' m'|ws' s' x' y'|ws' x' y'|ws' y'|ws'|ws'|ws'| | | | |n'| | ], ev as [| |message| | |]; try discriminate; cbn.
    + destruct (except_handler_at_limit c st Hdata Hc Hlim)
        as (st' & -> & Hp & Ha & Ht).
      exists st'. split_and!; try done. by rewrite Ha.
    + destruct (except_handler_at_limit c (close_connection ws st) Hdata Hc Hlim)
        as (st' & -> & Hp & Ha & Ht).
      exists st'. split_and!; try done. by rewrite Ha.
  - intros c ev ev' st1. split; [by destruct ev|by destruct ev' as [[]|]].
  - intros c Hsel Hc.
    destruct (reconnect_loop_spec (selected_currencies st) st)
      as (_ & _ & _ & _ & Ht & Ha).
    unfold reconnect. rewrite Ha, Ht, decide_True by done. split; [done|].
    apply elem_of_app. right. apply list_elem_of_fmap. exists c. split; [|done].
    unfold in_catalog. by rewrite bool_decide_eq_true_2.
  - intros c Hsel Hc Hneed.
    destruct (start_loop_spec (selected_currencies st) st)
      as (_ & _ & _ & _ & _ & _ & _ & _ & _ & Ht & Ha).
    assert (Hin : c ∈ filter (λ c, needs_start st c = true) (selected_currencies st))
      by by apply list_elem_of_filter.
    unfold start_websocket_connections. rewrite Ha, Ht, decide_True by done.
    split; [done|].
    apply elem_of_app. right. apply list_elem_of_fmap. exists c. split; [|done].
    unfold in_catalog. by rewrite bool_decide_eq_true_2.
Qed.

(** A decoding failure of a class the inner [except] lists drops the
    message: the coroutine stays in the receive loop and the state is
    untouched (no display update queued, price and change as before). *)
Lemma caught_decode_error_dropped c ws message st e :
  running st = true → c ∈ selected_currencies st →
  handle_message_try float_of_str c message st = Raise e →
  parse_error_caught e = true →
  connect_binance_websocket float_of_str c (Streaming ws) (Message message) st
  = Some (Streaming ws, st).
Proof.
  intros Hrun Hsel Htry Hcaught. cbn. rewrite Hrun.
  rewrite bool_decide_eq_true_2 by done. cbn.
  unfold handle_message. rewrite Htry. cbn. by rewrite Hcaught.
Qed.

(** C8 fails on the code: a frame whose ["c"] is [null] makes [float]
    raise [TypeError], which the inner [except] does not list. The
    exception leaves the receive loop, the connection is closed and the
    outer handler counts a reconnect attempt and goes to sleep. *)
Theorem null_price_tears_down_connection :
  threads btc_streaming = [("BTC", Streaming 0)]
  ∧ connections btc_streaming = [false]
  ∧ handle_message float_of_str "BTC" null_price_message btc_streaming
    = Raise TypeError
  ∧ ∃ st', connect_binance_websocket float_of_str "BTC" (Streaming 0)
             (Message null_price_message) btc_streaming = Some (Sleeping, st')
           ∧ connections st' = [true]
           ∧ reconnect_attempts st' !! "BTC" = Some 1.
Proof.
  split_and!; [reflexivity|reflexivity|reflexivity|].
  eexists. split_and!; reflexivity.
Qed.

Lemma resume_reachable f i ev st :
  reachable float_of_str f st → reachable float_of_str f (resume float_of_str i ev st).
Proof.
  intros Hreach. eapply steps_reachable; [exact Hreach|].
  apply (thread_steps_rtc i), resume_steps.
Qed.

Lemma resume_within (P : monitor → Prop) f i ev st :
  (∀ s, length (threads s) = length (threads st) → P s) →
  reachable_within float_of_str P f st →
  reachable_within float_of_str P f (resume float_of_str i ev st).
Proof.
  intros HP Hreach. eapply thread_steps_within; [exact HP|exact Hreach|].
  apply resume_steps.
Qed.

Lemma resume_length i ev st :
  length (threads (resume float_of_str i ev st)) = length (threads st).
Proof.
  pose proof (resume_steps i ev st) as Hsteps.
  induction Hsteps as [|st st1 st' Hstep _ IH]; [done|].
  rewrite IH. by eapply thread_steps_length.
Qed.

Lemma act_reachable f a st st' :
  reachable float_of_str f st → act float_of_str a st = Some st' →
  reachable float_of_str f st'.
Proof.
  intros Hreach Hact. destruct a as [i ev|i ev| |c|io| |]; cbn in Hact.
  - eapply reachable_step; [exact Hreach|]. eapply thread_steps_step. by exists ev.
  - destruct (threads st !! i) as [[c ph]|]; [|done].
    destruct (connect_binance_websocket float_of_str c ph ev st); [|done].
    injection Hact as <-. by apply resume_reachable.
  - destruct (running st) eqn:Hrun; [|done]. injection Hact as <-.
    eapply reachable_step; [exact Hreach|]. by apply step_show_selector.
  - destruct (running st) eqn:Hrun; [|done]. injection Hact as <-.
    eapply reachable_step; [exact Hreach|]. by apply step_toggle.
  - destruct (running st) eqn:Hrun; [|done]. injection Hact as <-.
    eapply reachable_step; [exact Hreach|]. by apply step_apply.
  - destruct (running st) eqn:Hrun; [|done]. injection Hact as <-.
    eapply reachable_step; [exact Hreach|]. by apply step_reconnect.
  - destruct (running st) eqn:Hrun; [|done]. injection Hact as <-.
    eapply reachable_step; [exact Hreach|]. by apply step_quit.
Qed.

(** What a schedule leads to is reachable. *)
Lemma exec_reachable f acts st st' :
  reachable float_of_str f st → exec float_of_str acts st = Some st' →
  reachable float_of_str f st'.
Proof.
  revert st. induction acts as [|a acts IH]; intros st Hreach Hexec; cbn in Hexec.
  - by injection Hexec as <-.
  - destruct (act float_of_str a st) as [st1|] eqn:Hact; [|done].
    eapply IH; [|exact Hexec]. by eapply act_reachable.
Qed.

(** C9 fails on the code: [reconnect] starts a thread for every selected
    currency without looking at the running one (the test that
    [start_websocket_connections] makes). With BTC streaming, choosing
    "Reconnect" leads to two threads streaming BTC, each writing
    [currency_data["BTC"]]. *)
Theorem reconnect_duplicates_connection :
  reachable float_of_str FileAbsent reconnected_while_streaming
  ∧ threads reconnected_while_streaming
    = [("BTC", Streaming 0); ("BTC", Streaming 1)]
  ∧ live_connections "BTC" reconnected_while_streaming = 2.
Proof.
  split_and!; [|reflexivity|reflexivity].
  assert (H0 : reachable float_of_str FileAbsent (run fresh_monitor))
    by (eapply reachable_run; reflexivity).
  assert (H1 : reachable float_of_str FileAbsent btc_streaming).
  { change btc_streaming with (resume float_of_str 0 ConnectOk (run fresh_monitor)).
    by apply resume_reachable. }
  assert (H2 : reachable float_of_str FileAbsent (reconnect btc_streaming).1).
  { eapply reachable_step; [exact H1|]. by apply step_reconnect. }
  change reconnected_while_streaming
    with (resume float_of_str 1 ConnectOk (reconnect btc_streaming).1).
  by apply resume_reachable.
Qed.

End CoroutineProperties.

Lemma failed_attempts_reachable n :
  reachable no_float FileAbsent (failed_attempts n).
Proof.
  induction n as [|n IH].
  - eapply reachable_run. reflexivity.
  - unfold failed_attempts. rewrite Nat.iter_succ.
    by do 2 apply resume_reachable.
Qed.

Lemma failed_attempts_threads n : length (threads (failed_attempts n)) = 1.
Proof.
  induction n as [|n IH]; [done|].
  unfold failed_attempts. rewrite Nat.iter_succ. by rewrite !resume_length.
Qed.

Lemma single_thread_one c st : length (threads st) = 1 → single_thread c st.
Proof.
  intros Hlen i j ph ph' Hi Hj _ _.
  apply lookup_lt_Some in Hi, Hj. lia.
Qed.

(** With the feed unreachable from the start there is one thread, that of
    BTC, all along. *)
Lemma failed_attempts_within n :
  reachable_within no_float (single_thread "BTC") FileAbsent (failed_attempts n).
Proof.
  induction n as [|n IH].
  - eapply within_run. reflexivity.
  - unfold failed_attempts. rewrite Nat.iter_succ.
    fold (failed_attempts n).
    apply resume_within.
    + intros s Hs. apply single_thread_one.
      by rewrite Hs, resume_length, failed_attempts_threads.
    + apply resume_within; [|done].
      intros s Hs. apply single_thread_one. by rewrite Hs, failed_attempts_threads.
Qed.

(** C2 as stated fails: the counter is tested before it is incremented.
    The fifth failure in a row finds it at 4, raises it to the limit 5 and
    puts the coroutine to sleep for another attempt; with the limit
    reached the thread is connecting again and the price is not
    ["Error"]. Only the sixth failure ends the coroutine. *)
Lemma limit_reached_retries_once_more :
  threads (failed_attempts 4) = [("BTC", Connecting)]
  ∧ reconnect_attempts (failed_attempts 4) !! "BTC" = Some 4
  ∧ threads (resume no_float 0 ConnectFails (failed_attempts 4)) = [("BTC", Sleeping)]
  ∧ reconnect_attempts (resume no_float 0 ConnectFails (failed_attempts 4)) !! "BTC"
    = Some max_reconnect_attempts
  ∧ threads (failed_attempts 5) = [("BTC", Connecting)]
  ∧ reconnect_attempts (failed_attempts 5) !! "BTC" = Some max_reconnect_attempts
  ∧ price <$> currency_data (failed_attempts 5) !! "BTC" = Some "Loading..."
  ∧ threads (resume no_float 0 ConnectFails (failed_attempts 5)) = [("BTC", Finished)]
  ∧ price <$> currency_data (resume no_float 0 ConnectFails (failed_attempts 5)) !! "BTC"
    = Some "Error".
Proof. split_and!; reflexivity. Qed.

Lemma reconnect_attempts_limit_witness :
  5 ≤ max_reconnect_attempts
  ∧ reconnect_attempts (failed_attempts 5) !! "BTC" = Some 5
  ∧ (∃ st', connect_binance_websocket no_float "BTC" Connecting ConnectFails
              (failed_attempts 4) = Some (Sleeping, st')
            ∧ reconnect_attempts st' !! "BTC" = Some 5)
  ∧ (∃ st', connect_binance_websocket no_float "BTC" Connecting ConnectFails
              (failed_attempts 5) = Some (Finished, st')
            ∧ price <$> currency_data st' !! "BTC" = Some "Error"
            ∧ reconnect_attempts st' !! "BTC" = Some 5
            ∧ threads st' = threads (failed_attempts 5))
  ∧ reconnect_attempts (reconnect (failed_attempts 5)).1 !! "BTC" = Some 0.
Proof.
  destruct (reconnect_attempts_limit no_float FileAbsent (failed_attempts 5)
              (failed_attempts_reachable 5)) as (Hbound & _ & Hlimit & _ & Hreconnect & _).
  destruct (reconnect_attempts_limit no_float FileAbsent (failed_attempts 4)
              (failed_attempts_reachable 4)) as (_ & Hretry & _).
  split_and!.
  - apply (Hbound "BTC" (failed_attempts_within 5)). vm_compute. reflexivity.
  - vm_compute. reflexivity.
  - apply (Hretry "BTC" Connecting ConnectFails); [reflexivity|reflexivity| |].
    + apply (bool_decide_unpack _). vm_compute. exact I.
    + vm_compute. lia.
  - apply Hlimit; [reflexivity| |reflexivity].
    apply (bool_decide_unpack _). vm_compute. exact I.
  - apply Hreconnect; apply (bool_decide_unpack _); vm_compute; exact I.
Defined.

(** ** Price formatting *)

Local Open Scope Z_scope.

Example format_0_0514 : formatted_price (float_of_decimal 514 4) = "0.0514"%string.
Proof. vm_compute. reflexivity. Qed.
Example format_3456_789 : formatted_price (float_of_decimal 3456789 3) = "3,456.79"%string.
Proof. vm_compute. reflexivity. Qed.
Example format_67890_12 : formatted_price (float_of_decimal 6789012 2) = "67,890.1"%string.
Proof. vm_compute. reflexivity. Qed.
Example format_12_345 : formatted_price (float_of_decimal 12345 3) = "12.345"%string.
Proof. vm_compute. reflexivity. Qed.
Example format_1234567 : formatted_price (float_of_decimal 12345678 1) = "1,234,567.8"%string.
Proof. vm_compute. reflexivity. Qed.
Example format_10 : formatted_price (float_of_decimal 10 0) = "10.000"%string.
Proof. vm_compute. reflexivity. Qed.
Example format_9_99996 : formatted_price (float_of_decimal 999996 5) = "10.0000"%string.
Proof. vm_compute. reflexivity. Qed.

Lemma is_digit_digit_char d : 0 ≤ d < 10 → is_digit (digit_char d) = true.
Proof.
  intros Hd.
  assert (H : d = 0 ∨ d = 1 ∨ d = 2 ∨ d = 3 ∨ d = 4 ∨ d = 5 ∨ d = 6 ∨ d = 7
              ∨ d = 8 ∨ d = 9) by lia.
  repeat destruct H as [->|H]; try reflexivity. by subst.
Qed.

Lemma low_digits_length n v : length (low_digits n v) = n.
Proof.
  revert v. induction n as [|n IH]; intros v; [done|].
  cbn [low_digits]. rewrite length_app, IH. cbn. lia.
Qed.

Lemma low_digits_digits n v : Forall (λ a, is_digit a = true) (low_digits n v).
Proof.
  revert v. induction n as [|n IH]; intros v; [constructor|].
  cbn [low_digits]. apply Forall_app. split; [apply IH|].
  repeat constructor. apply is_digit_digit_char. by apply Z.mod_pos_bound.
Qed.

Lemma digits_rev_digits fuel v : Forall (λ a, is_digit a = true) (digits_rev fuel v).
Proof.
  revert v. induction fuel as [|fuel IH]; intros v; [constructor|].
  cbn [digits_rev]. constructor.
  - apply is_digit_digit_char. by apply Z.mod_pos_bound.
  - case_bool_decide; [constructor|apply IH].
Qed.

(** Induction following the recursion of [group_rev]. *)
Lemma list_ind3 {A} (P : list A → Prop) :
  (∀ r, (length r ≤ 3)%nat → P r) →
  (∀ a b c d rest, P (d :: rest) → P (a :: b :: c :: d :: rest)) →
  ∀ r, P r.
Proof.
  intros Hsmall Hstep r. remember (length r) as n eqn:Hn. revert r Hn.
  induction n as [n IH] using lt_wf_ind. intros r ->.
  destruct r as [|a [|b [|c [|d rest]]]]; try (apply Hsmall; cbn; lia).
  apply Hstep. apply (IH (length (d :: rest))); [cbn; lia|done].
Qed.

Lemma group_rev_head d rest : ∃ t, group_rev (d :: rest) = d :: t.
Proof. destruct rest as [|b [|c [|e rest]]]; cbn; eauto. Qed.

Lemma group_rev_nonempty r : r ≠ [] → group_rev r ≠ [].
Proof.
  destruct r as [|d rest]; [done|]. intros _.
  by destruct (group_rev_head d rest) as [t ->].
Qed.

Lemma groups_ok_group_rev r :
  r ≠ [] → Forall (λ a, is_digit a = true) r → groups_ok_rev (group_rev r) = true.
Proof.
  induction r as [r Hlen|a b c d rest IH] using list_ind3; intros Hne Hdig.
  - destruct r as [|a [|b [|c [|d rest]]]]; [done| | | |cbn in Hlen; lia];
      rewrite !Forall_cons in Hdig; cbn [group_rev groups_ok_rev];
      rewrite ?andb_true_iff; tauto.
  - apply Forall_cons in Hdig as [H Hdig].
    apply Forall_cons in Hdig as [Hb Hdig]. apply Forall_cons in Hdig as [Hc Hdig].
    specialize (IH ltac:(done) Hdig).
    change (group_rev (a :: b :: c :: d :: rest))
      with (a :: b :: c :: ","%char :: group_rev (d :: rest)).
    destruct (group_rev_head d rest) as [t Ht]. rewrite Ht in IH |- *.
    change (groups_ok_rev (a :: b :: c :: ","%char :: d :: t))
      with (is_digit a && is_digit b && is_digit c && Ascii.eqb "," ","
            && groups_ok_rev (d :: t)).
    rewrite H, Hb, Hc, IH. reflexivity.
Qed.

Lemma group_rev_chars r :
  Forall (λ a, is_digit a = true) r →
  Forall (λ a, is_digit a = true ∨ a = ","%char) (group_rev r).
Proof.
  induction r as [r Hlen|a b c d rest IH] using list_ind3; intros Hdig.
  - assert (group_rev r = r) as ->.
    { by destruct r as [|a [|b [|c [|d rest]]]]; [| | | |cbn in Hlen; lia]. }
    eapply Forall_impl; [exact Hdig|]. cbn. tauto.
  - apply Forall_cons in Hdig as [Ha Hdig]. apply Forall_cons in Hdig as [Hb Hdig].
    apply Forall_cons in Hdig as [Hc Hdig].
    change (group_rev (a :: b :: c :: d :: rest))
      with (a :: b :: c :: ","%char :: group_rev (d :: rest)).
    repeat (constructor; [tauto|]). by apply IH.
Qed.

(** Removing the commas gives the digits back. *)
Lemma group_rev_ungroup r :
  Forall (λ a, is_digit a = true) r →
  filter (λ a, a ≠ ","%char) (group_rev r) = r.
Proof.
  induction r as [r Hlen|a b c d rest IH] using list_ind3; intros Hdig.
  - assert (group_rev r = r) as ->.
    { by destruct r as [|a [|b [|c [|d rest]]]]; [| | | |cbn in Hlen; lia]. }
    clear Hlen. induction Hdig as [|a r Ha Hdig IHr]; [done|].
    rewrite filter_cons. case_decide as Hcomma; [by rewrite IHr|].
    subst a. discriminate.
  - apply Forall_cons in Hdig as [Ha Hdig]. apply Forall_cons in Hdig as [Hb Hdig].
    apply Forall_cons in Hdig as [Hc Hdig].
    change (group_rev (a :: b :: c :: d :: rest))
      with (a :: b :: c :: ","%char :: group_rev (d :: rest)).
    rewrite !filter_cons, IH by done.
    repeat case_decide; try done; subst; discriminate.
Qed.

Lemma grouped_int_well_grouped v : well_grouped (grouped_int v) = true.
Proof.
  unfold well_grouped, grouped_int. rewrite rev_involutive.
  apply groups_ok_group_rev; [done|apply digits_rev_digits].
Qed.

Lemma grouped_int_chars v :
  Forall (λ a, is_digit a = true ∨ a = ","%char) (grouped_int v).
Proof.
  unfold grouped_int. apply Forall_rev, group_rev_chars, digits_rev_digits.
Qed.

Lemma grouped_int_nonempty v : grouped_int v ≠ [].
Proof.
  unfold grouped_int, digit_fuel. intros H.
  apply (f_equal (@rev ascii)) in H. rewrite rev_involutive in H.
  by apply group_rev_nonempty in H.
Qed.

(** The comparison the code makes is the comparison of the exact values. *)
Lemma float_lt_int_value x k :
  is_finite_float x = true →
  float_lt_int x k = true ↔ (float_value x < inject_Z k)%Q.
Proof.
  destruct x as [s|s| |s m e]; try discriminate; intros _;
    cbn [float_lt_int float_value].
  - rewrite bool_decide_eq_true. unfold Qlt. cbn. lia.
  - case_bool_decide as He; rewrite bool_decide_eq_true.
    + by rewrite <- Zlt_Qlt.
    + unfold Qlt. cbn [Qnum Qden inject_Z].
      rewrite Z2Pos.id by (apply Z.pow_pos_nonneg; lia). lia.
Qed.

Lemma float_lt_int_false x k :
  is_finite_float x = true →
  float_lt_int x k = false ↔ (inject_Z k <= float_value x)%Q.
Proof.
  intros Hfin. rewrite <- not_true_iff_false, (float_lt_int_value x k Hfin).
  split; [apply Qnot_lt_le|apply Qle_not_lt].
Qed.

(** The branch [formatted_price] takes is the row of the table. *)
Lemma formatted_price_by_table x :
  is_finite_float x = true →
  formatted_price x = format_fixed (table_places (float_value x)) x.
Proof.
  intros Hfin. unfold formatted_price, table_places.
  destruct (Qlt_le_dec (float_value x) 10) as [H10|H10].
  { apply (float_lt_int_value x 10 Hfin) in H10. by rewrite H10. }
  apply (float_lt_int_false x 10 Hfin) in H10. rewrite H10.
  destruct (Qlt_le_dec (float_value x) 100) as [H100|H100].
  { apply (float_lt_int_value x 100 Hfin) in H100. by rewrite H100. }
  apply (float_lt_int_false x 100 Hfin) in H100. rewrite H100.
  destruct (Qlt_le_dec (float_value x) 10000) as [H10000|H10000].
  { apply (float_lt_int_value x 10000 Hfin) in H10000. by rewrite H10000. }
  apply (float_lt_int_false x 10000 Hfin) in H10000. by rewrite H10000.
Qed.

Lemma table_places_positive q : (1 ≤ table_places q)%nat.
Proof. unfold table_places. repeat destruct (Qlt_le_dec _ _); lia. Qed.

(** The characters of a formatted finite number: sign, grouped integer
    part, point, [n] decimals. *)
Lemma format_fixed_chars n x :
  is_finite_float x = true → (1 ≤ n)%nat →
  list_ascii_of_string (format_fixed n x) =
    (sign_chars (sign_bit x)
     ++ grouped_int (printed_integer n x / 10 ^ Z.of_nat n)
     ++ "."%char :: low_digits n (printed_integer n x))%list.
Proof.
  intros Hfin Hn. destruct n as [|n]; [lia|].
  destruct x as [s|s| |s m e]; try discriminate;
    cbn [format_fixed]; by rewrite list_ascii_of_string_of_list_ascii.
Qed.

Lemma before_after_point pre fp :
  Forall (λ a, a ≠ "."%char) pre →
  before_point (pre ++ "."%char :: fp) = pre
  ∧ after_point (pre ++ "."%char :: fp) = Some fp.
Proof.
  induction 1 as [|a pre Ha Hpre [IH1 IH2]]; [done|].
  cbn. destruct (Ascii.eqb_spec a "."); [done|]. by rewrite IH1, IH2.
Qed.

Lemma integer_chars_not_point g :
  Forall (λ a, is_digit a = true ∨ a = ","%char) g →
  Forall (λ a, a ≠ "."%char) g ∧ Forall (λ a, a ≠ "-"%char) g.
Proof.
  intros Hg. split; (eapply Forall_impl; [exact Hg|]); cbn;
    intros a [Ha|Ha] Hp; subst; discriminate.
Qed.

Lemma drop_sign_chars s g :
  g ≠ [] → Forall (λ a, a ≠ "-"%char) g → drop_sign (sign_chars s ++ g) = g.
Proof.
  intros Hne Hg. destruct s; [done|]. cbn.
  destruct g as [|a g]; [done|]. apply Forall_cons in Hg as [Ha _]. cbn.
  by destruct (Ascii.eqb_spec a "-").
Qed.

(** What a formatted finite price looks like. *)
Lemma formatted_price_shape x :
  is_finite_float x = true →
  let n := table_places (float_value x) in
  decimals_shown (formatted_price x) = Some n
  ∧ integer_part (formatted_price x)
    = grouped_int (printed_integer n x / 10 ^ Z.of_nat n)
  ∧ well_grouped (integer_part (formatted_price x)) = true.
Proof.
  intros Hfin n. unfold decimals_shown, integer_part.
  rewrite (formatted_price_by_table x Hfin). fold n.
  rewrite (format_fixed_chars n x Hfin (table_places_positive _)).
  set (g := grouped_int _).
  destruct (integer_chars_not_point g (grouped_int_chars _)) as [Hpoint Hsign].
  rewrite app_assoc.
  destruct (before_after_point (sign_chars (sign_bit x) ++ g)
              (low_digits n (printed_integer n x))) as [-> ->].
  { apply Forall_app. split; [|done]. destruct (sign_bit x); repeat constructor.
    discriminate. }
  rewrite drop_sign_chars by (done || apply grouped_int_nonempty).
  split_and!; [|done|apply grouped_int_well_grouped].
  cbn. by rewrite low_digits_length.
Qed.

(** *** The digits printed spell the rounded value *)

Lemma read_digits_fold s : read_digits s = fold_left read_step s 0.
Proof. reflexivity. Qed.

Lemma read_step_digit_char acc d :
  0 ≤ d < 10 → read_step acc (digit_char d) = 10 * acc + d.
Proof.
  intros Hd. unfold read_step. rewrite is_digit_digit_char by done.
  assert (H : d = 0 ∨ d = 1 ∨ d = 2 ∨ d = 3 ∨ d = 4 ∨ d = 5 ∨ d = 6 ∨ d = 7
              ∨ d = 8 ∨ d = 9) by lia.
  repeat destruct H as [->|H]; try reflexivity. by subst.
Qed.

Lemma fold_low_digits n v acc :
  fold_left read_step (low_digits n v) acc
  = acc * 10 ^ Z.of_nat n + v mod 10 ^ Z.of_nat n.
Proof.
  revert v acc. induction n as [|n IH]; intros v acc.
  - cbn. rewrite Z.mod_1_r. lia.
  - cbn [low_digits]. rewrite fold_left_app, IH. cbn [fold_left].
    rewrite read_step_digit_char by (by apply Z.mod_pos_bound).
    rewrite Nat2Z.inj_succ, Z.pow_succ_r by lia.
    rewrite (Z.rem_mul_r v 10 (10 ^ Z.of_nat n)) by lia. lia.
Qed.

Lemma fold_digits_rev fuel v :
  0 ≤ v < 10 ^ Z.of_nat fuel →
  fold_right (λ a acc, read_step acc a) 0 (digits_rev fuel v) = v.
Proof.
  revert v. induction fuel as [|fuel IH]; intros v Hv.
  - cbn in *. lia.
  - cbn [digits_rev fold_right].
    rewrite read_step_digit_char by (by apply Z.mod_pos_bound).
    rewrite Nat2Z.inj_succ, Z.pow_succ_r in Hv by lia.
    case_bool_decide as Hq.
    + cbn. rewrite (Z.div_mod v 10) at 2 by lia. lia.
    + rewrite IH.
      * rewrite (Z.div_mod v 10) at 3 by lia. lia.
      * split; [apply Z.div_pos; lia|]. apply Z.div_lt_upper_bound; lia.
Qed.

Lemma digit_fuel_enough v : 0 ≤ v → v < 10 ^ Z.of_nat (digit_fuel v).
Proof.
  intros Hv. unfold digit_fuel. rewrite Nat2Z.inj_succ, Z2Nat.id by apply Z.log2_nonneg.
  destruct (decide (v = 0)) as [->|Hne]; [done|].
  destruct (Z.log2_spec v) as [_ Hlt]; [lia|].
  eapply Z.lt_le_trans; [exact Hlt|].
  apply Z.pow_le_mono_l. split; [lia|lia].
Qed.

Lemma fold_group_rev r :
  fold_right (λ a acc, read_step acc a) 0 (group_rev r)
  = fold_right (λ a acc, read_step acc a) 0 r.
Proof.
  induction r as [r Hlen|a b c d rest IH] using list_ind3.
  - by destruct r as [|a [|b [|c [|d rest]]]]; [| | | |cbn in Hlen; lia].
  - change (group_rev (a :: b :: c :: d :: rest))
      with (a :: b :: c :: ","%char :: group_rev (d :: rest)).
    cbn [fold_right]. by rewrite IH.
Qed.

Lemma read_grouped_int v : 0 ≤ v → read_digits (grouped_int v) = v.
Proof.
  intros Hv. rewrite read_digits_fold. unfold grouped_int.
  rewrite <- fold_left_rev_right, rev_involutive, fold_group_rev.
  apply fold_digits_rev. split; [done|by apply digit_fuel_enough].
Qed.

Lemma printed_integer_nonneg n x : 0 ≤ printed_integer n x.
Proof.
  destruct x as [s|s| |s m e]; cbn; try lia. unfold scaled.
  case_bool_decide as He.
  - apply Z.mul_nonneg_nonneg; [apply Z.mul_nonneg_nonneg|]; try lia;
      apply Z.pow_nonneg; lia.
  - unfold round_half_even.
    assert (0 ≤ Z.pos m * 10 ^ Z.of_nat n / 2 ^ (- e)).
    { apply Z.div_pos; [|apply Z.pow_pos_nonneg; lia].
      apply Z.mul_nonneg_nonneg; [lia|apply Z.pow_nonneg; lia]. }
    destruct (_ ?= _); [destruct (Z.even _)| |]; lia.
Qed.

(** Read as a number, the formatted price is the rounded integer. *)
Lemma shown_scaled_printed x :
  is_finite_float x = true →
  shown_scaled (formatted_price x)
  = printed_integer (table_places (float_value x)) x.
Proof.
  intros Hfin. unfold shown_scaled.
  rewrite (formatted_price_by_table x Hfin).
  set (n := table_places (float_value x)).
  rewrite (format_fixed_chars n x Hfin (table_places_positive _)).
  pose proof (printed_integer_nonneg n x) as Hk. set (k := printed_integer n x) in *.
  assert (Hpow : 0 < 10 ^ Z.of_nat n) by (apply Z.pow_pos_nonneg; lia).
  rewrite read_digits_fold, !fold_left_app.
  assert (fold_left read_step (sign_chars (sign_bit x)) 0 = 0) as ->
    by by destruct (sign_bit x).
  rewrite <- read_digits_fold, read_grouped_int by (apply Z.div_pos; lia).
  cbn [fold_left]. change (read_step (k / 10 ^ Z.of_nat n) ".") with (k / 10 ^ Z.of_nat n).
  rewrite fold_low_digits. rewrite (Z.div_mod k (10 ^ Z.of_nat n)) at 3 by lia. lia.
Qed.

Lemma round_half_even_spec num den :
  0 ≤ num → 0 < den →
  2 * Z.abs (round_half_even num den * den - num) ≤ den
  ∧ (2 * Z.abs (round_half_even num den * den - num) = den →
     Z.even (round_half_even num den) = true).
Proof.
  intros Hnum Hden. unfold round_half_even.
  pose proof (Z.div_mod num den ltac:(lia)) as Hdm.
  pose proof (Z.mod_pos_bound num den Hden) as Hr.
  set (q := num / den) in *. set (r := num mod den) in *.
  destruct (Z.compare_spec (2 * r) den) as [Heq|Hlt|Hgt].
  - destruct (Z.even q) eqn:Hev.
    + split; [lia|done].
    + split; [lia|]. intros _.
      by rewrite Z.add_1_r, Z.even_succ, <- Z.negb_even, Hev.
  - split; lia.
  - split; lia.
Qed.

(** The integer printed is [|x| * 10^n] rounded to nearest, ties to even. *)
Lemma printed_integer_nearest n x :
  is_finite_float x = true →
  nearest_even (Qabs (float_value x) * inject_Z (10 ^ Z.of_nat n))
    (printed_integer n x).
Proof.
  assert (Hpow : 0 < 10 ^ Z.of_nat n) by (apply Z.pow_pos_nonneg; lia).
  destruct x as [s|s| |s m e]; try discriminate; intros _.
  - unfold nearest_even, Qle, Qeq. cbn. split; [lia|done].
  - cbn [float_value printed_integer]. unfold scaled.
    set (v := if s then Z.neg m else Z.pos m).
    assert (Hv : Z.abs v = Z.pos m) by (by destruct s).
    case_bool_decide as He.
    + assert (H2 : 0 < 2 ^ e) by (apply Z.pow_pos_nonneg; lia).
      unfold nearest_even, Qle, Qeq, Qabs, Qminus, Qplus, Qopp, Qmult, inject_Z.
      cbn [Qnum Qden]. rewrite Z.abs_mul, Hv, (Z.abs_eq (2 ^ e)) by lia.
      split; [lia|]. intros H. exfalso. revert H.
      generalize (Z.pos m * 2 ^ e * 10 ^ Z.of_nat n). intros z. cbn. lia.
    + assert (H2 : 0 < 2 ^ (- e)) by (apply Z.pow_pos_nonneg; lia).
      destruct (round_half_even_spec (Z.pos m * 10 ^ Z.of_nat n) (2 ^ (- e)))
        as [Hle Heven]; [lia|lia|].
      set (k := round_half_even _ _) in *.
      unfold nearest_even, Qle, Qeq, Qabs, Qminus, Qplus, Qopp, Qmult, inject_Z.
      cbn [Qnum Qden]. rewrite Hv, !Pos.mul_1_r, !Pos.mul_1_l.
      rewrite Z2Pos.id by done.
      split; [lia|]. intros H. apply Heven. lia.
Qed.

(** C1. For every finite price [x ≥ 0] the string built in the receive
    loop shows exactly the number of decimals the specification's table
    gives for the value of [x] (4 below 10, 3 from 10 to below 100, 2 from
    100 to below 10000, 1 from 10000 on), its integer part is split by
    commas into groups of three digits, and the digits spell [x * 10^n]
    rounded to the nearest integer. A price exactly at 10, 100 or 10000
    falls in the row that starts there, and the three prices quoted by
    the specification format as it says. *)
Theorem formatted_price_table :
  (∀ x, is_finite_float x = true → (0 <= float_value x)%Q →
     let n := table_places (float_value x) in
     decimals_shown (formatted_price x) = Some n
     ∧ well_grouped (integer_part (formatted_price x)) = true
     ∧ nearest_even (float_value x * inject_Z (10 ^ Z.of_nat n))
         (shown_scaled (formatted_price x)))
  ∧ (table_places 10 = 3%nat ∧ table_places 100 = 2%nat ∧ table_places 10000 = 1%nat)
  ∧ formatted_price (float_of_decimal 10 0) = "10.000"%string
  ∧ formatted_price (float_of_decimal 100 0) = "100.00"%string
  ∧ formatted_price (float_of_decimal 10000 0) = "10,000.0"%string
  ∧ formatted_price (float_of_decimal 514 4) = "0.0514"%string
  ∧ formatted_price (float_of_decimal 3456789 3) = "3,456.79"%string
  ∧ formatted_price (float_of_decimal 6789012 2) = "67,890.1"%string.
Proof.
  split; [|split_and!; vm_compute; reflexivity].
  intros x Hfin Hpos n.
  destruct (formatted_price_shape x Hfin) as (Hdec & _ & Hgroup).
  split_and!; [done|done|].
  rewrite (shown_scaled_printed x Hfin). fold n.
  destruct (printed_integer_nearest n x Hfin) as [Hle Heven].
  unfold nearest_even.
  assert (Habs : (Qabs (float_value x) == float_value x)%Q) by by apply Qabs_pos.
  split.
  - by rewrite <- Habs at 1.
  - intros H. apply Heven. by rewrite Habs.
Qed.

Lemma formatted_price_table_witness :
  decimals_shown (formatted_price (float_of_decimal 6789012 2)) = Some 1%nat
  ∧ well_grouped (integer_part (formatted_price (float_of_decimal 6789012 2))) = true
  ∧ nearest_even
      (float_value (float_of_decimal 6789012 2) * inject_Z (10 ^ Z.of_nat 1))
      (shown_scaled (formatted_price (float_of_decimal 6789012 2))).
Proof.
  destruct formatted_price_table as [Hall _].
  apply (Hall (float_of_decimal 6789012 2)).
  - reflexivity.
  - vm_compute. discriminate.
Defined.

Local Close Scope Z_scope.

(** * Further properties of the code *)

(** ** Settings *)

Lemma valid_codes_hashable (l : list pyval) :
  Forall (λ v, hashable v = true) l →
  valid_codes l = Ok (filter (λ c, c ∈ catalog_codes) (strings_of l)).
Proof.
  induction 1 as [|v l Hv Hl IH]; [done|].
  destruct v; try discriminate; cbn [valid_codes]; rewrite IH; try done.
  change (strings_of (PyStr s :: l)) with (s :: strings_of l).
  rewrite filter_cons. cbn. unfold in_catalog.
  case_bool_decide; case_decide; done.
Qed.

Lemma valid_codes_unhashable (l : list pyval) :
  Exists (λ v, hashable v = false) l → valid_codes l = Raise TypeError.
Proof.
  induction 1 as [v l Hv|v l Hl IH].
  - by destruct v.
  - destruct v; cbn [valid_codes]; rewrite ?IH; done.
Qed.

(** X1. For a settings object whose ["selected_currencies"] is a list of
    hashable items (strings, numbers, booleans, null), [load_settings]
    returns the strings of the list that are catalog codes, in the
    persisted order, cut after the third; non-strings and unknown codes
    are skipped, and [["BTC"]] is returned when nothing is left. *)
Theorem load_settings_list (d : list (string * pyval)) (l : list pyval) :
  assoc_lookup "selected_currencies" d = Some (PyList l) →
  Forall (λ v, hashable v = true) l →
  load_settings (FilePresent (Ok (PyDict d)))
  = Ok (first_three_or_default (strings_of l)).
Proof.
  intros Hd Hl.
  rewrite (load_settings_of_valid (PyDict d) (PyList l) l
             (filter (λ c, c ∈ catalog_codes) (strings_of l)));
    [|by cbn; rewrite Hd|done|by apply valid_codes_hashable].
  unfold first_three_or_default.
  destruct (filter _ (strings_of l)) as [|c valid] eqn:Hf; [done|].
  case_bool_decide as Hlen; [done|].
  by rewrite take_ge by lia.
Qed.

Lemma load_settings_list_witness :
  load_settings
    (FilePresent (Ok (PyDict [("version", PyStr "3.0");
                              ("selected_currencies",
                               PyList [PyStr "TRX"; PyInt 7; PyStr "DOGE"; PyNone;
                                       PyStr "BTC"])])))
  = Ok ["TRX"; "BTC"].
Proof.
  apply (load_settings_list _ [PyStr "TRX"; PyInt 7; PyStr "DOGE"; PyNone; PyStr "BTC"]).
  - reflexivity.
  - repeat constructor.
Defined.

(** X2. One unhashable item (a nested list or object) anywhere in the
    persisted list makes the membership test raise: the whole file is
    given up and [["BTC"]] is loaded, whatever valid codes the list
    holds. *)
Theorem load_settings_unhashable_item (d : list (string * pyval)) (l : list pyval) :
  assoc_lookup "selected_currencies" d = Some (PyList l) →
  Exists (λ v, hashable v = false) l →
  load_settings (FilePresent (Ok (PyDict d))) = Ok ["BTC"].
Proof.
  intros Hd Hl. unfold load_settings, load_settings_try. cbn. rewrite Hd. cbn.
  by rewrite (valid_codes_unhashable l Hl).
Qed.

Lemma load_settings_unhashable_item_witness :
  load_settings
    (FilePresent (Ok (PyDict [("selected_currencies",
                               PyList [PyStr "ETH"; PyList []; PyStr "BNB"])])))
  = Ok ["BTC"].
Proof.
  apply (load_settings_unhashable_item _ [PyStr "ETH"; PyList []; PyStr "BNB"]).
  - reflexivity.
  - apply Exists_cons_tl, Exists_cons_hd. reflexivity.
Defined.

(** X3. Whatever the settings file holds, saving the loaded selection and
    loading again gives the loaded selection back: what [load_settings]
    returns is always something [save_settings] stores faithfully (a
    duplicate taken over from the file included). *)
Theorem load_save_load (f f' : settings_file_state) (sel : list string) :
  load_settings f = Ok sel →
  load_settings (save_settings sel WriteOk f') = Ok sel.
Proof.
  intros Hload. destruct (load_settings_shape f sel Hload) as [Hlen Hcat].
  by apply load_saved.
Qed.

Lemma load_save_load_witness :
  load_settings
    (save_settings ["BTC"; "BTC"] WriteOk (FilePresent (Raise OSError)))
  = Ok ["BTC"; "BTC"].
Proof.
  apply (load_save_load (FilePresent (Ok (settings_dict ["BTC"; "BTC"])))).
  reflexivity.
Defined.

(** ** The transition system *)

Section SystemProperties.

Variable float_of_str : string → option spec_float.

(** The two ways out of the outer [except]. *)
Lemma except_handler_cases c st :
  (∃ n, default 0 (reconnect_attempts st !! c) = n
        ∧ n < max_reconnect_attempts
        ∧ running st = true ∧ c ∈ selected_currencies st
        ∧ except_handler c st
          = (Sleeping, set_reconnect_attempts (<[c := n + 1]> (reconnect_attempts st)) st))
  ∨ ((running st = false ∨ c ∉ selected_currencies st
      ∨ max_reconnect_attempts ≤ default 0 (reconnect_attempts st !! c))
     ∧ (except_handler c st = (Finished, st)
        ∨ ∃ e, currency_data st !! c = Some e
               ∧ except_handler c st
                 = (Finished,
                    schedule_display c
                      (set_currency_data
                         (<[c := CurrencyEntry "Error" (price_change e) (change_24h e)]>
                            (currency_data st)) st)))).
Proof.
  unfold except_handler.
  destruct (running st) eqn:Hrun; cbn [andb].
  2:{ right. split; [by left|]. destruct (currency_data st !! c); eauto. }
  case_bool_decide as Hsel; cbn [andb].
  2:{ right. split; [by right; left|]. destruct (currency_data st !! c); eauto. }
  case_bool_decide as Hlt.
  - left. eexists. split_and!; done.
  - right. split; [right; right; lia|]. destruct (currency_data st !! c); eauto.
Qed.

(** A decoded message replaces the entry of its currency by one whose two
    change fields are the same number, or leaves the state alone. *)
Lemma handle_message_Ok_entry c message st st' :
  handle_message float_of_str c message st = Ok st' →
  st' = st
  ∨ ∃ p q, st' = schedule_display c
                   (set_currency_data
                      (<[c := CurrencyEntry (formatted_price p) q q]>
                         (currency_data st)) st).
Proof.
  unfold handle_message, handle_message_try, try_except.
  destruct message as [data|e]; cbn.
  2:{ destruct (parse_error_caught e); [|done]. intros [= <-]. by left. }
  destruct (py_getitem data "c" ≫= py_float float_of_str) as [p|e]; cbn.
  2:{ destruct (parse_error_caught e); [|done]. intros [= <-]. by left. }
  destruct (py_getitem data "P" ≫= py_float float_of_str) as [q|e]; cbn.
  2:{ destruct (parse_error_caught e); [|done]. intros [= <-]. by left. }
  destruct (currency_data st !! c); cbn.
  - intros [= <-]. right. eauto.
  - intros [= <-]. by left.
Qed.

(** What one resumption of a coroutine of [c] can change. *)
Lemma connect_frame c ph ev st ph' st' :
  connect_binance_websocket float_of_str c ph ev st = Some (ph', st') →
  selected_currencies st' = selected_currencies st
  ∧ currency_vars st' = currency_vars st
  ∧ running st' = running st
  ∧ settings_file st' = settings_file st
  ∧ threads st' = threads st
  ∧ (∀ c', c' ≠ c → currency_data st' !! c' = currency_data st !! c')
  ∧ (∀ c', c' ≠ c → reconnect_attempts st' !! c' = reconnect_attempts st !! c')
  ∧ (∀ c', c' ≠ c → websockets st' !! c' = websockets st !! c').
Proof.
  assert (Hexc : ∀ st0 ph0 st0',
            except_handler c st0 = (ph0, st0') →
            selected_currencies st0' = selected_currencies st0
            ∧ currency_vars st0' = currency_vars st0
            ∧ running st0' = running st0
            ∧ settings_file st0' = settings_file st0
            ∧ threads st0' = threads st0
            ∧ (∀ c', c' ≠ c → currency_data st0' !! c' = currency_data st0 !! c')
            ∧ (∀ c', c' ≠ c → reconnect_attempts st0' !! c' = reconnect_attempts st0 !! c')
            ∧ (∀ c', c' ≠ c → websockets st0' !! c' = websockets st0 !! c')).
  { intros st0 ph0 st0' H0.
    destruct (except_handler_cases c st0) as [(n & _ & _ & _ & _ & H)|[_ [H|(e & _ & H)]]];
      rewrite H in H0; injection H0 as <- <-; cbn; split_and!; try done;
      intros c' Hc'; by rewrite lookup_insert_ne. }
  intros Hstep.
  destruct ph as [|ws| | |ws'|ws'|ws' m'|ws' m'|ws' s' x' y'|ws' x' y'|ws' y'|ws'|ws'|ws'| | | | |n'| | ], ev as [| |message| | |]; cbn in Hstep; try discriminate.
  - injection Hstep as <- <-. cbn. split_and!; try done;
      intros c' Hc'; by rewrite lookup_insert_ne.
  - injection Hstep as Hst. by apply (Hexc st ph' st').
  - destruct (negb (running st) || negb (bool_decide (c ∈ selected_currencies st))).
    { injection Hstep as <- <-. done. }
    destruct (handle_message float_of_str c message st) as [st1|e] eqn:Hmsg.
    + injection Hstep as <- <-.
      destruct (handle_message_Ok_entry _ _ _ _ Hmsg) as [->|(p & q & ->)]; [done|].
      cbn. split_and!; try done. intros c' Hc'. by rewrite lookup_insert_ne.
    + injection Hstep as Hst. by apply (Hexc (close_connection ws st) ph' st').
  - injection Hstep as Hst. by apply (Hexc (close_connection ws st) ph' st').
  - injection Hstep as <- <-. done.
  - injection Hstep as <- <-. done.
Qed.

Lemma reconnect_loop_net (cs : list string) (st : monitor) :
  let st' := (reconnect_loop cs st).1 in
  currency_vars st' = currency_vars st
  ∧ websockets st' = websockets st
  ∧ connections st' = connections st
  ∧ settings_file st' = settings_file st
  ∧ scheduled st' = scheduled st.
Proof.
  revert st. induction cs as [|c cs IH]; intros st; cbn zeta; [done|].
  cbn [reconnect_loop]. set (st1 := start_websocket_thread c _).
  specialize (IH st1). cbn zeta in IH.
  destruct (reconnect_loop cs st1) as [st2 calls]. cbn [fst snd] in IH |- *.
  by destruct IH as (-> & -> & -> & -> & ->).
Qed.

(** What a step of a coroutine never touches. *)
Lemma perform_frame c eff st :
  selected_currencies (perform c eff st) = selected_currencies st
  ∧ currency_vars (perform c eff st) = currency_vars st
  ∧ running (perform c eff st) = running st
  ∧ settings_file (perform c eff st) = settings_file st
  ∧ closed_attribute (perform c eff st) = closed_attribute st.
Proof.
  destruct eff; cbn [perform]; unfold store_field;
    try (by destruct (currency_data st !! c)); done.
Qed.

(** How a step of a coroutine moves the connection it has in hand. *)
Lemma coroutine_step_net c ph ev st ph' eff :
  coroutine_step float_of_str c ph ev st = Some (ph', eff) →
  (ph = Connecting ∧ ph' = Connected (length (connections st)) ∧ eff = Open)
  ∨ (∃ ws, connection_of ph = Some ws ∧ connection_of ph' = Some ws ∧ eff = Register ws)
  ∨ (∃ ws, connection_of ph = Some ws ∧ connection_of ph' = None ∧ eff = Close ws)
  ∨ (connection_of ph' = connection_of ph
     ∧ websockets (perform c eff st) = websockets st
     ∧ connections (perform c eff st) = connections st).
Proof.
  intros Hco.
  destruct ph, ev as [[]|]; cbn in Hco; try discriminate;
    repeat (case_match; try discriminate);
    injection Hco as <- <-;
    first [ by left
          | by right; left; eexists
          | by right; right; left; eexists
          | right; right; right; split_and!; [done| |];
            cbn [perform]; unfold store_field; by destruct (currency_data st !! c) ].
Qed.

Lemma step_system_invariant st st' :
  step float_of_str st st' → system_invariant st → system_invariant st'.
Proof.
  intros Hstep (Hsel & Hvars & Hvalid & Hthreads & Hopen).
  destruct Hstep as [st i c ph ev ph' eff Hth Hco|st _|st c _|st io _|st _|st _].
  - destruct (perform_frame c eff st) as (Hs & Hv & _).
    assert (Hi : i < length (threads st)) by by eapply lookup_lt_Some.
    assert (Hlook : ∀ j c0 ph0,
              <[i := (c, ph')]> (threads st) !! j = Some (c0, ph0) →
              (j = i ∧ c0 = c ∧ ph0 = ph') ∨ (j ≠ i ∧ threads st !! j = Some (c0, ph0))).
    { intros j c0 ph0. destruct (decide (j = i)) as [->|Hj].
      - rewrite list_lookup_insert_eq by done. intros [= <- <-]. by left.
      - rewrite list_lookup_insert_ne by done. by right. }
    split_and!.
    + unfold selection_in_range. cbn. by rewrite Hs.
    + unfold vars_from_catalog. cbn. by rewrite Hv.
    + intros c0 ws0. cbn.
      destruct (coroutine_step_net _ _ _ _ _ _ Hco)
        as [(-> & -> & ->)|[(ws & Hph & Hph' & ->)|[(ws & Hph & Hph' & ->)|(_ & -> & ->)]]];
        cbn.
      * rewrite length_app. intros H%Hvalid. lia.
      * rewrite lookup_insert. destruct (decide (c = c0)); [|apply Hvalid].
        intros [= <-]. by eapply Hthreads.
      * rewrite length_insert. apply Hvalid.
      * apply Hvalid.
    + intros j c0 ph0 ws0. cbn. intros Hj Hws0.
      assert (Hlen : length (connections st) ≤ length (connections (perform c eff st))).
      { destruct (coroutine_step_net _ _ _ _ _ _ Hco)
          as [(_ & _ & ->)|[(ws & _ & _ & ->)|[(ws & _ & _ & ->)|(_ & _ & ->)]]];
          cbn; rewrite ?length_app, ?length_insert; lia. }
      destruct (Hlook j c0 ph0 Hj) as [(-> & -> & ->)|[Hne Hold]].
      * destruct (coroutine_step_net _ _ _ _ _ _ Hco)
          as [(-> & -> & ->)|[(ws & Hph & Hph' & ->)|[(ws & Hph & Hph' & ->)|(Heq & _ & ->)]]].
        -- cbn in Hws0 |- *. injection Hws0 as <-. rewrite length_app. cbn. lia.
        -- cbn. rewrite Hph' in Hws0. injection Hws0 as <-. by eapply Hthreads.
        -- by rewrite Hph' in Hws0.
        -- rewrite Heq in Hws0. by eapply Hthreads.
      * pose proof (Hthreads j c0 ph0 ws0 Hold Hws0). lia.
    + intros c0 ws0. cbn.
      destruct (coroutine_step_net _ _ _ _ _ _ Hco)
        as [(-> & -> & ->)|[(ws & Hph & Hph' & ->)|[(ws & Hph & Hph' & ->)|(Heq & -> & ->)]]];
        cbn.
      * intros Hc0 Hfalse. rewrite lookup_app_l in Hfalse by by eapply Hvalid.
        destruct (Hopen c0 ws0 Hc0 Hfalse) as (j & ph0 & Hj & Hws0). exists j, ph0.
        split; [|done]. rewrite list_lookup_insert_ne; [done|]. intros ->.
        rewrite Hth in Hj. by injection Hj as _ <-.
      * rewrite lookup_insert. destruct (decide (c = c0)) as [<-|Hne].
        -- intros [= <-] _. exists i, ph'. by rewrite list_lookup_insert_eq.
        -- intros Hc0 Hfalse.
           destruct (Hopen c0 ws0 Hc0 Hfalse) as (j & ph0 & Hj & Hws0). exists j, ph0.
           split; [|done]. rewrite list_lookup_insert_ne; [done|]. intros ->. congruence.
      * intros Hc0 Hfalse.
        assert (Hne : ws ≠ ws0).
        { intros ->. rewrite list_lookup_insert_eq in Hfalse by by eapply Hthreads.
          discriminate. }
        rewrite list_lookup_insert_ne in Hfalse by done.
        destruct (Hopen c0 ws0 Hc0 Hfalse) as (j & ph0 & Hj & Hws0). exists j, ph0.
        split; [|done]. rewrite list_lookup_insert_ne; [done|]. intros ->.
        rewrite Hth in Hj. injection Hj as _ <-. congruence.
      * intros Hc0 Hfalse.
        destruct (Hopen c0 ws0 Hc0 Hfalse) as (j & ph0 & Hj & Hws0).
        destruct (decide (j = i)) as [->|Hne].
        -- rewrite Hth in Hj. injection Hj as <- <-. exists i, ph'.
           rewrite list_lookup_insert_eq by done. by rewrite Heq.
        -- exists j, ph0. by rewrite list_lookup_insert_ne.
  - split_and!; try done. by right.
  - split_and!; try done. destruct Hvars as [Hnil|Hkeys].
    + left. cbn. by rewrite Hnil.
    + right. by rewrite toggle_keys.
  - destruct (decide (1 ≤ length (new_selection_of (currency_vars st)) ≤ 3))
      as [Hlen|Hlen]; [|by rewrite apply_rejected].
    destruct (apply_accepted io st Hlen) as (Hs & _ & _ & _ & _ & Hd & Ht & _).
    destruct (apply_accepted_net io st Hlen) as (Hv & Hw & Hc & _).
    assert (Hkeys : (currency_vars st).*1 = catalog_codes).
    { destruct Hvars as [Hnil|Hkeys]; [|done]. rewrite Hnil in Hlen. cbn in Hlen. lia. }
    destruct (new_selection_of_catalog _ Hkeys) as [Hcat _].
    split_and!.
    + unfold selection_in_range. by rewrite Hs.
    + unfold vars_from_catalog. rewrite Hv. by right.
    + unfold handles_valid. by rewrite Hw, Hc.
    + unfold threads_valid. rewrite Hc, Ht. intros j c0 ph0 ws0 Hj Hws0.
      apply lookup_app_Some in Hj as [Hj|[_ Hj]]; [by eapply Hthreads|].
      apply started_phase in Hj as [-> | ->]; discriminate.
    + unfold open_is_held. rewrite Hw, Hc, Ht. intros c ws Hc0 Hfalse.
      destruct (Hopen c ws Hc0 Hfalse) as (j & ph0 & Hj & Hws0). exists j, ph0.
      split; [|done]. by apply lookup_app_l_Some.
  - destruct (reconnect_loop_spec (selected_currencies st) st)
      as (_ & Hs & Hd & _ & Ht & _).
    destruct (reconnect_loop_net (selected_currencies st) st) as (Hv & Hw & Hc & _).
    unfold reconnect. split_and!.
    + unfold selection_in_range. by rewrite Hs.
    + unfold vars_from_catalog. by rewrite Hv.
    + unfold handles_valid. by rewrite Hw, Hc.
    + unfold threads_valid. rewrite Hc, Ht. intros j c0 ph0 ws0 Hj Hws0.
      apply lookup_app_Some in Hj as [Hj|[_ Hj]]; [by eapply Hthreads|].
      apply started_phase in Hj as [-> | ->]; discriminate.
    + unfold open_is_held. rewrite Hw, Hc, Ht. intros c ws Hc0 Hfalse.
      destruct (Hopen c ws Hc0 Hfalse) as (j & ph0 & Hj & Hws0). exists j, ph0.
      split; [|done]. by apply lookup_app_l_Some.
  - done.
Qed.

Lemma reachable_system_invariant f st :
  reachable float_of_str f st → system_invariant st.
Proof.
  induction 1 as [has_closed st0 Hinit|st st' _ IH Hstep];
    [|by eapply step_system_invariant].
  unfold init in Hinit. destruct (load_settings f) as [sel|] eqn:Hload; [|done].
  injection Hinit as <-. destruct (load_settings_shape f sel Hload) as [Hlen Hcat].
  unfold run, start_websocket_connections.
  set (st0 := Monitor _ _ _ _ _ _ _ _ _ _ _).
  destruct (start_loop_spec (selected_currencies st0) st0)
    as (_ & Hs & Hv & Hd & _ & Hw & _ & Hc & _ & Ht & _).
  split_and!.
  - unfold selection_in_range. by rewrite Hs.
  - unfold vars_from_catalog. rewrite Hv. by left.
  - unfold handles_valid. rewrite Hw. intros c ws. cbn. by rewrite lookup_empty.
  - unfold threads_valid. rewrite Ht. cbn [threads st0 app]. intros j c0 ph0 ws0 Hj Hws0.
    apply started_phase in Hj as [-> | ->]; discriminate.
  - unfold open_is_held. rewrite Hw. intros c ws. cbn. by rewrite lookup_empty.
Qed.

(** The writes a command of the Tk thread is made of keep the invariant
    one by one: the invariant does not depend on a command running
    without a coroutine in between. *)
Lemma tk_writes_keep_invariant st :
  system_invariant st →
  (∀ new, 1 ≤ length new ≤ 3 → Forall (λ c, c ∈ catalog_codes) new →
          system_invariant (set_selected_currencies new st))
  ∧ (∀ c, system_invariant
            (set_reconnect_attempts (<[c := 0]> (reconnect_attempts st)) st))
  ∧ (∀ c, system_invariant (start_websocket_thread c st))
  ∧ (∀ f, system_invariant (set_settings_file f st))
  ∧ system_invariant (set_running false st).
Proof.
  intros (Hsel & Hvars & Hvalid & Hthreads & Hopen).
  split_and!; [by intros new Hlen Hcat; split_and!|by intros c; split_and!|
               |by intros f; split_and!|by split_and!].
  intros c. split_and!; try done.
  - intros j c0 ph0 ws0. cbn. intros Hj Hws0.
    apply lookup_app_Some in Hj as [Hj|[_ Hj]]; [by eapply Hthreads|].
    apply list_lookup_singleton_Some in Hj as [_ [= <- <-]].
    by destruct (in_catalog c).
  - intros c0 ws0 Hc0 Hfalse. cbn.
    destruct (Hopen c0 ws0 Hc0 Hfalse) as (j & ph0 & Hj & Hws0). exists j, ph0.
    split; [|done]. by apply lookup_app_l_Some.
Qed.

(** X4. In every reachable state the selection has one to three codes,
    all from the catalog: no interleaving of coroutine steps and menu or
    dialog commands leaves the program without a selection or with an
    unknown currency. *)
Theorem reachable_selection_in_range f st :
  reachable float_of_str f st →
  1 ≤ length (selected_currencies st) ≤ 3
  ∧ Forall (λ c, c ∈ catalog_codes) (selected_currencies st).
Proof. intros Hreach. by destruct (reachable_system_invariant f st Hreach) as [? _]. Qed.

Lemma is_live_connection ph ws : connection_of ph = Some ws → is_live ph = true.
Proof. by destruct ph. Qed.

Lemma served_after_start cs st (ths : list (string * phase)) c :
  open_is_held st →
  ths = threads st ++ ((λ c, (c, if in_catalog c then Connecting else Finished))
                         <$> filter (λ c, needs_start st c = true) cs) →
  c ∈ cs → c ∈ catalog_codes →
  Exists (λ t : string * phase, t.1 = c ∧ is_live t.2 = true) ths.
Proof.
  intros Hopen -> Hc Hcat. apply Exists_exists.
  destruct (needs_start st c) eqn:Hneed.
  - exists (c, Connecting). split; [|done]. apply elem_of_app. right.
    apply list_elem_of_fmap. exists c. split.
    + unfold in_catalog. by rewrite bool_decide_eq_true_2.
    + by apply list_elem_of_filter.
  - rewrite needs_start_spec in Hneed. apply negb_false_iff, andb_prop in Hneed as [_ Hreg].
    unfold open_registered in Hreg.
    destruct (websockets st !! c) as [ws|] eqn:Hws; [|done].
    apply bool_decide_eq_true in Hreg.
    destruct (Hopen c ws Hws Hreg) as (j & ph & Hj & Hph).
    exists (c, ph). split; [|split; [done|by eapply is_live_connection]].
    apply elem_of_app. left. by eapply list_elem_of_lookup_2.
Qed.

(** X6. After [start_websocket_connections], run in any reachable state,
    every selected currency has a thread that is connecting or has a
    connection in hand: a currency is skipped only when a thread of it
    holds its registered connection, still open. The same holds for the
    new selection after an accepted [apply_currency_selection]. *)
Theorem selected_currencies_served f st :
  reachable float_of_str f st →
  Forall (λ c, served c (start_websocket_connections st).1) (selected_currencies st)
  ∧ ∀ io, 1 ≤ length (new_selection_of (currency_vars st)) ≤ 3 →
          let st' := (apply_currency_selection io st).1.1 in
          Forall (λ c, served c st') (selected_currencies st').
Proof.
  intros Hreach.
  destruct (reachable_system_invariant f st Hreach) as ([_ Hcat] & Hvars & _ & _ & Hopen).
  split.
  - apply Forall_forall. intros c Hc. unfold served, start_websocket_connections.
    destruct (start_loop_spec (selected_currencies st) st)
      as (_ & _ & _ & _ & _ & _ & _ & _ & _ & Ht & _).
    eapply served_after_start; [exact Hopen|exact Ht|exact Hc|].
    rewrite Forall_forall in Hcat. by apply Hcat.
  - intros io Hlen st'. subst st'.
    destruct (apply_accepted io st Hlen) as (Hs & _ & _ & _ & _ & _ & Ht & _).
    assert (Hkeys : (currency_vars st).*1 = catalog_codes).
    { destruct Hvars as [Hnil|Hkeys]; [|done]. rewrite Hnil in Hlen. cbn in Hlen. lia. }
    destruct (new_selection_of_catalog _ Hkeys) as [Hnew _].
    rewrite Hs. apply Forall_forall. intros c Hc. unfold served.
    eapply served_after_start; [exact Hopen|exact Ht|exact Hc|].
    rewrite Forall_forall in Hnew. by apply Hnew.
Qed.

(** X7. No step removes a thread or changes the currency it was started
    for, and a thread whose coroutine has returned stays so: threads are
    only ever added. *)
Theorem threads_persist st st' i c ph :
  step float_of_str st st' →
  threads st !! i = Some (c, ph) →
  ∃ ph', threads st' !! i = Some (c, ph') ∧ (ph = Finished → ph' = Finished).
Proof.
  intros Hstep Hi.
  destruct Hstep as [st i0 c0 ph0 ev ph' eff Hth Hco|st _|st c1 _|st io _|st _|st _];
    try (by exists ph).
  - cbn. destruct (decide (i0 = i)) as [->|Hne].
    + rewrite Hth in Hi. injection Hi as -> ->. exists ph'.
      rewrite list_lookup_insert_eq by by eapply lookup_lt_Some.
      split; [done|]. intros ->. by destruct ev as [[]|].
    + exists ph. by rewrite list_lookup_insert_ne.
  - destruct (decide (1 ≤ length (new_selection_of (currency_vars st)) ≤ 3))
      as [Hlen|Hlen]; [|rewrite apply_rejected by done; by exists ph].
    destruct (apply_accepted io st Hlen) as (_ & _ & _ & _ & _ & _ & Ht & _).
    exists ph. rewrite Ht. split; [|done]. by apply lookup_app_l_Some.
  - destruct (reconnect_loop_spec (selected_currencies st) st)
      as (_ & _ & _ & _ & Ht & _).
    exists ph. unfold reconnect. rewrite Ht. split; [|done]. by apply lookup_app_l_Some.
Qed.

Lemma coroutine_step_quit c ph ev st ph' eff :
  running st = false →
  coroutine_step float_of_str c ph ev st = Some (ph', eff) →
  (retry_pending ph' = true → retry_pending ph = true)
  ∧ (ph' = Sleeping → ∃ n, ph = StoringAttempts n ∧ eff = StoreAttempts n)
  ∧ (∀ n, eff = StoreAttempts n → n = 0 ∨ ph = StoringAttempts n).
Proof.
  intros Hrun Hco.
  destruct ph, ev as [[]|]; cbn in Hco; rewrite ?Hrun in Hco; try discriminate;
    repeat (case_match; try discriminate);
    injection Hco as <- <-; split_and!; try done; intros; simplify_eq; eauto.
Qed.

(** X8. Once [quit_application] has cleared [running], it stays cleared
    and no thread is started. No coroutine enters the retry path of the
    outer [except] any more: only one that had passed the test of
    [self.running] before the flag was cleared can still store its raised
    counter and go to sleep; every other write to a counter is the reset
    to 0 of a connection that still succeeds. *)
Theorem after_quit st st' :
  running st = false →
  step float_of_str st st' →
  running st' = false
  ∧ length (threads st') = length (threads st)
  ∧ (∀ i c ph', threads st' !! i = Some (c, ph') → retry_pending ph' = true →
       ∃ ph, threads st !! i = Some (c, ph) ∧ retry_pending ph = true)
  ∧ (∀ i c, threads st' !! i = Some (c, Sleeping) →
       threads st !! i = Some (c, Sleeping)
       ∨ ∃ n, threads st !! i = Some (c, StoringAttempts n))
  ∧ (∀ c n, reconnect_attempts st' !! c = Some n →
       n = 0 ∨ reconnect_attempts st !! c = Some n
       ∨ ∃ i, threads st !! i = Some (c, StoringAttempts n)).
Proof.
  intros Hrun Hstep.
  destruct Hstep as [st i0 c0 ph0 ev ph' eff Hth Hco|st H|st c1 H|st io H|st H|st H];
    try congruence.
  destruct (perform_frame c0 eff st) as (_ & _ & Hr & _).
  destruct (coroutine_step_quit _ _ _ _ _ _ Hrun Hco) as (Hretry & Hsleep & Hstore).
  assert (Hi0 : i0 < length (threads st)) by by eapply lookup_lt_Some.
  cbn. rewrite length_insert. split_and!; [congruence|done| | |].
  - intros i c ph1. destruct (decide (i = i0)) as [->|Hne].
    + rewrite list_lookup_insert_eq by done. intros [= <- <-] Hp. eauto.
    + rewrite list_lookup_insert_ne by done. eauto.
  - intros i c. destruct (decide (i = i0)) as [->|Hne].
    + rewrite list_lookup_insert_eq by done. intros [= <- Hp].
      destruct (Hsleep Hp) as (n & -> & _). eauto.
    + rewrite list_lookup_insert_ne by done. eauto.
  - intros c n. destruct (decide (c = c0)) as [->|Hne].
    + rewrite attempts_perform_same. destruct eff; eauto.
      rewrite lookup_insert_eq. intros [= <-].
      destruct (Hstore n0 eq_refl) as [->| ->]; eauto.
    + rewrite attempts_perform by done. eauto.
Qed.

(** X9. One resumption of a coroutine started for [c] writes
    [currency_data], [reconnect_attempts] and [websockets] at the key [c]
    only, and never touches the selection, the checkboxes, [running] or
    the settings file: each coroutine is the only coroutine writing its
    currency's entries as long as it is the only one started for it. *)
Theorem coroutine_writes_own_key c ph ev st ph' st' c' :
  connect_binance_websocket float_of_str c ph ev st = Some (ph', st') →
  c' ≠ c →
  currency_data st' !! c' = currency_data st !! c'
  ∧ reconnect_attempts st' !! c' = reconnect_attempts st !! c'
  ∧ websockets st' !! c' = websockets st !! c'
  ∧ selected_currencies st' = selected_currencies st
  ∧ currency_vars st' = currency_vars st
  ∧ running st' = running st
  ∧ settings_file st' = settings_file st.
Proof.
  intros Hco Hne.
  destruct (connect_frame _ _ _ _ _ _ Hco) as (? & ? & ? & ? & _ & Hd & Ha & Hw).
  split_and!; try done; [by apply Hd|by apply Ha|by apply Hw].
Qed.

End SystemProperties.

Lemma reachable_selection_in_range_witness :
  1 ≤ length (selected_currencies (failed_attempts 6)) ≤ 3
  ∧ Forall (λ c, c ∈ catalog_codes) (selected_currencies (failed_attempts 6)).
Proof.
  apply (reachable_selection_in_range no_float FileAbsent).
  apply (failed_attempts_reachable 6).
Defined.

Lemma selected_currencies_served_witness :
  Forall (λ c, served c (start_websocket_connections (failed_attempts 6)).1)
    (selected_currencies (failed_attempts 6))
  ∧ served "BTC" (start_websocket_connections (failed_attempts 6)).1.
Proof.
  pose proof (proj1 (selected_currencies_served no_float FileAbsent (failed_attempts 6)
                       (failed_attempts_reachable 6))) as H.
  split; [exact H|].
  rewrite Forall_forall in H. apply H.
  apply (bool_decide_unpack _). vm_compute. exact I.
Defined.

Lemma threads_persist_witness :
  ∃ ph', threads (reconnect (failed_attempts 6)).1 !! 0 = Some ("BTC", ph')
         ∧ (Finished = Finished → ph' = Finished).
Proof.
  apply (threads_persist no_float (failed_attempts 6) _ 0 "BTC" Finished).
  - apply step_reconnect. vm_compute. reflexivity.
  - vm_compute. reflexivity.
Defined.

Lemma after_quit_witness :
  running (thread_at 0 "BTC" Excepted
             (close_connection 0 (quit_application btc_streaming).1)) = false
  ∧ length (threads (thread_at 0 "BTC" Excepted
                       (close_connection 0 (quit_application btc_streaming).1)))
    = length (threads (quit_application btc_streaming).1).
Proof.
  assert (Hstep : step no_float (quit_application btc_streaming).1
                    (thread_at 0 "BTC" Excepted
                       (close_connection 0 (quit_application btc_streaming).1))).
  { apply (step_coroutine no_float (quit_application btc_streaming).1 0 "BTC"
             (Streaming 0) (Some ConnectionLost) Excepted (Close 0)).
    - vm_compute. reflexivity.
    - reflexivity. }
  destruct (after_quit no_float (quit_application btc_streaming).1 _ eq_refl Hstep)
    as (Hrun & Hlen & _).
  split; [exact Hrun|exact Hlen].
Defined.

Lemma coroutine_writes_own_key_witness :
  currency_data (resume no_float 0 ConnectOk (run fresh_monitor)) !! "ETH"
  = currency_data (run fresh_monitor) !! "ETH"
  ∧ websockets (resume no_float 0 ConnectOk (run fresh_monitor)) !! "ETH"
    = websockets (run fresh_monitor) !! "ETH".
Proof.
  assert (Hco : connect_binance_websocket no_float "BTC" Connecting ConnectOk
                  (run fresh_monitor)
                = Some (Streaming 0,
                        set_threads (threads (run fresh_monitor))
                          (resume no_float 0 ConnectOk (run fresh_monitor))))
    by (vm_compute; reflexivity).
  destruct (coroutine_writes_own_key no_float "BTC" Connecting ConnectOk
              (run fresh_monitor) _ _ "ETH" Hco) as (Hd & _ & Hw & _).
  - discriminate.
  - split; [exact Hd|exact Hw].
Defined.

(** ** Start-up and the selector *)

Lemma new_selection_of_ticked (P : string → Prop) `{!∀ c, Decision (P c)}
    (l : list string) :
  new_selection_of ((λ c, (c, bool_decide (P c))) <$> l) = filter P l.
Proof.
  unfold new_selection_of. induction l as [|c l IH]; [done|].
  cbn [fmap list_fmap]. rewrite !filter_cons. cbn [snd].
  case_bool_decide as Hc.
  - rewrite decide_True by done. rewrite decide_True by done. cbn. by f_equal.
  - rewrite decide_False by done. rewrite decide_False by done. done.
Qed.

(** X10. Pressing Apply in a freshly opened selector, no box touched,
    keeps the same set of currencies, but lists them in catalog order and
    without duplicates: a selection loaded as [ETH, BTC] becomes
    [BTC, ETH]. *)
Theorem apply_untouched_selector (io : write_outcome) (st : monitor) :
  1 ≤ length (selected_currencies st) ≤ 3 →
  Forall (λ c, c ∈ catalog_codes) (selected_currencies st) →
  let st' := (apply_currency_selection io (show_currency_selector st)).1.1 in
  selected_currencies st'
  = filter (λ c, c ∈ selected_currencies st) catalog_codes
  ∧ (∀ c, c ∈ selected_currencies st' ↔ c ∈ selected_currencies st)
  ∧ NoDup (selected_currencies st').
Proof.
  intros Hlen Hcat st'.
  set (new := filter (λ c, c ∈ selected_currencies st) catalog_codes).
  assert (Hnew : new_selection_of (currency_vars (show_currency_selector st)) = new)
    by apply new_selection_of_ticked.
  assert (Hiff : ∀ c, c ∈ new ↔ c ∈ selected_currencies st).
  { intros c. unfold new. rewrite list_elem_of_filter. split; [tauto|].
    intros Hc. split; [done|]. rewrite Forall_forall in Hcat. by apply Hcat. }
  assert (Hnd : NoDup new).
  { apply NoDup_filter. by apply (bool_decide_unpack _). }
  assert (Hacc : 1 ≤ length new ≤ 3).
  { split.
    - destruct (selected_currencies st) as [|c sel] eqn:Hsel; [cbn in Hlen; lia|].
      assert (Hc : c ∈ new) by (apply Hiff; by left).
      destruct new; [by apply elem_of_nil in Hc|cbn; lia].
    - etrans; [|exact (proj2 Hlen)]. apply submseteq_length, NoDup_submseteq; [done|].
      intros c. apply Hiff. }
  subst st'.
  destruct (apply_accepted io (show_currency_selector st)) as (-> & _).
  { by rewrite Hnew. }
  rewrite Hnew. done.
Qed.

Lemma apply_untouched_selector_witness :
  selected_currencies
    (apply_currency_selection WriteOk
       (show_currency_selector (set_selected_currencies ["ETH"; "BTC"; "ETH"] fresh_monitor))).1.1
  = ["BTC"; "ETH"].
Proof.
  apply (apply_untouched_selector WriteOk
           (set_selected_currencies ["ETH"; "BTC"; "ETH"] fresh_monitor)).
  - vm_compute. lia.
  - apply (bool_decide_unpack _). vm_compute. exact I.
Defined.

(** X11. Start-up: whatever the settings file holds and whichever
    [websockets] library is installed, [__init__] followed
    by [run] leaves one connecting thread per entry of the loaded
    selection (one to three of them), the reconnect counter at 0 for the
    selected currencies and unset for the others, and no connection
    registered. *)
Theorem startup_threads (has_closed : bool) (f : settings_file_state) (st0 : monitor) :
  init has_closed f = Ok st0 →
  threads (run st0) = (λ c, (c, Connecting)) <$> selected_currencies st0
  ∧ 1 ≤ length (threads (run st0)) ≤ 3
  ∧ (∀ c, reconnect_attempts (run st0) !! c
          = if decide (c ∈ selected_currencies st0) then Some 0 else None)
  ∧ websockets (run st0) = ∅
  ∧ load_settings f = Ok (selected_currencies (run st0)).
Proof.
  intros Hinit. unfold init in Hinit.
  destruct (load_settings f) as [sel|] eqn:Hload; [|done].
  injection Hinit as <-. destruct (load_settings_shape f sel Hload) as [Hlen Hcat].
  unfold run, start_websocket_connections.
  set (st0 := Monitor _ _ _ _ _ _ _ _ _ _ _).
  destruct (start_loop_spec (selected_currencies st0) st0)
    as (_ & Hs & _ & _ & _ & Hw & _ & _ & _ & Ht & Ha).
  assert (Hall : ∀ l : list string, filter (λ c, needs_start st0 c = true) l = l).
  { induction l as [|c l IH]; [done|].
    rewrite filter_cons, decide_True by done. by rewrite IH. }
  change (selected_currencies st0) with sel in *.
  rewrite Hall in Ht, Ha.
  assert (Hthreads : threads (start_loop sel st0).1 = (λ c, (c, Connecting)) <$> sel).
  { rewrite Ht. cbn. apply list_fmap_ext. intros i c Hc.
    apply list_elem_of_lookup_2 in Hc. rewrite Forall_forall in Hcat.
    unfold in_catalog. by rewrite bool_decide_eq_true_2 by by apply Hcat. }
  split_and!.
  - done.
  - rewrite Hthreads, length_fmap. apply Hlen.
  - rewrite Hthreads, length_fmap. apply Hlen.
  - intros c. rewrite Ha. by case_decide.
  - by rewrite Hw.
  - by rewrite Hs.
Qed.

Lemma startup_threads_witness :
  ∃ st0, init false (FilePresent (Ok (settings_dict ["ETH"; "XRP"; "BNB"]))) = Ok st0
         ∧ threads (run st0) = [("ETH", Connecting); ("BNB", Connecting)].
Proof.
  exists (Monitor ["ETH"; "BNB"] []
            (list_to_map ((λ c, (c, loading_entry)) <$> catalog_codes))
            true ∅ ∅ (FilePresent (Ok (settings_dict ["ETH"; "XRP"; "BNB"]))) [] [] []
            false).
  assert (Hinit : init false (FilePresent (Ok (settings_dict ["ETH"; "XRP"; "BNB"])))
                  = Ok (Monitor ["ETH"; "BNB"] []
                          (list_to_map ((λ c, (c, loading_entry)) <$> catalog_codes))
                          true ∅ ∅ (FilePresent (Ok (settings_dict ["ETH"; "XRP"; "BNB"])))
                          [] [] [] false)) by (vm_compute; reflexivity).
  split; [exact Hinit|]. exact (proj1 (startup_threads _ _ _ Hinit)).
Defined.

(** X12. Where the connection objects have no attribute [closed]
    (the client [websockets.connect] gives from version 14 on), reading
    it raises, the bare [except] takes the connection for closed, and
    [start_websocket_connections] resets the counter and starts a thread
    for every selected currency, whatever is running. An accepted
    [apply_currency_selection] then starts a thread for every currency of
    the new selection, the kept ones included: a currency that had a
    thread has one more, connecting. *)
Theorem start_without_closed_attribute (io : write_outcome) (st : monitor) :
  closed_attribute st = false →
  let started := λ cs : list string,
    (λ c, (c, if in_catalog c then Connecting else Finished)) <$> cs in
  (start_websocket_connections st).2 = StartThread <$> selected_currencies st
  ∧ threads (start_websocket_connections st).1
    = threads st ++ started (selected_currencies st)
  ∧ (∀ c, c ∈ selected_currencies st →
          reconnect_attempts (start_websocket_connections st).1 !! c = Some 0)
  ∧ (1 ≤ length (new_selection_of (currency_vars st)) ≤ 3 →
       let st' := (apply_currency_selection io st).1.1 in
       start_calls (apply_currency_selection io st).1.2
       = new_selection_of (currency_vars st)
       ∧ threads st' = threads st ++ started (new_selection_of (currency_vars st))
       ∧ ∀ c i ph, c ∈ new_selection_of (currency_vars st) → c ∈ catalog_codes →
                   threads st !! i = Some (c, ph) →
                   ∃ j, i ≠ j ∧ threads st' !! i = Some (c, ph)
                        ∧ threads st' !! j = Some (c, Connecting)).
Proof.
  intros Hattr started.
  assert (Hall : ∀ cs : list string, filter (λ c, needs_start st c = true) cs = cs).
  { induction cs as [|c cs IH]; [done|].
    rewrite filter_cons, decide_True, IH; [done|].
    by rewrite needs_start_spec, Hattr. }
  destruct (start_loop_spec (selected_currencies st) st)
    as (Hcalls & _ & _ & _ & _ & _ & _ & _ & _ & Ht & Ha).
  rewrite Hall in Hcalls, Ht, Ha. split_and!; try done.
  { intros c Hc. unfold start_websocket_connections. by rewrite Ha, decide_True. }
  intros Hlen st'. subst st'.
  destruct (apply_accepted io st Hlen) as (_ & _ & _ & Hc & _ & _ & Ht' & _).
  rewrite Hall in Hc, Ht'. split_and!.
  - rewrite Hc. unfold close_calls.
    rewrite !start_calls_app, start_calls_close, start_calls_start. cbn.
    by rewrite app_nil_r.
  - done.
  - intros c i ph Hnew Hcat Hi.
    apply list_elem_of_lookup in Hnew as [k Hk].
    exists (length (threads st) + k). split_and!.
    + apply lookup_lt_Some in Hi. lia.
    + rewrite Ht'. by apply lookup_app_l_Some.
    + rewrite Ht', lookup_app_r by lia.
      replace (length (threads st) + k - length (threads st)) with k by lia.
      rewrite list_lookup_fmap, Hk. cbn. unfold in_catalog.
      by rewrite bool_decide_eq_true_2.
Qed.

Lemma start_without_closed_attribute_witness :
  start_calls (apply_currency_selection WriteOk
                 (toggle "ETH" (show_currency_selector btc_streaming_14))).1.2
  = ["BTC"; "ETH"]
  ∧ threads (apply_currency_selection WriteOk
               (toggle "ETH" (show_currency_selector btc_streaming_14))).1.1
    = [("BTC", Streaming 0); ("BTC", Connecting); ("ETH", Connecting)].
Proof.
  destruct (start_without_closed_attribute WriteOk
              (toggle "ETH" (show_currency_selector btc_streaming_14)) eq_refl)
    as (_ & _ & _ & Happly).
  destruct Happly as (Hcalls & Ht & _).
  - vm_compute. lia.
  - split; [exact Hcalls|exact Ht].
Defined.

(** ** Messages *)

Section MessageProperties.

Variable float_of_str : string → option spec_float.

(** X13. While the program runs and the currency is selected, a frame is
    dropped, with the state left exactly as it was and the coroutine still
    in the receive loop, when [json.loads] raises a [ValueError], when the
    decoded object lacks ["c"] or ["P"], or when one of them is a string
    that [float] rejects. *)
Theorem undecodable_message_dropped c ws message st :
  running st = true → c ∈ selected_currencies st →
  (∃ e, message = Raise e ∧ is_ValueError e = true)
  ∨ (∃ d, message = Ok (PyDict d)
          ∧ (assoc_lookup "c" d = None
             ∨ (∃ s, assoc_lookup "c" d = Some (PyStr s) ∧ float_of_str s = None)
             ∨ (∃ v p, assoc_lookup "c" d = Some v
                       ∧ py_float float_of_str v = Ok p
                       ∧ (assoc_lookup "P" d = None
                          ∨ ∃ t, assoc_lookup "P" d = Some (PyStr t)
                                 ∧ float_of_str t = None)))) →
  connect_binance_websocket float_of_str c (Streaming ws) (Message message) st
  = Some (Streaming ws, st).
Proof.
  intros Hrun Hsel Hmsg.
  assert (∃ e, handle_message_try float_of_str c message st = Raise e
               ∧ parse_error_caught e = true) as (e & Htry & Hcaught).
  { unfold handle_message_try.
    destruct Hmsg as [(e & -> & He)|(d & -> & [Hc|[(s & Hc & Hs)|(v & p & Hc & Hv & HP)]])].
    - exists e. split; [done|]. by destruct e.
    - exists KeyError. cbn. by rewrite Hc.
    - exists ValueError. cbn. rewrite Hc. cbn. by rewrite Hs.
    - destruct HP as [HP|(t & HP & Ht)].
      + exists KeyError. cbn. rewrite Hc. cbn. rewrite Hv. cbn. by rewrite HP.
      + exists ValueError. cbn. rewrite Hc. cbn. rewrite Hv. cbn. rewrite HP. cbn.
        by rewrite Ht. }
  by eapply caught_decode_error_dropped.
Qed.

(** X14. Once the program has quit or the currency has been de-selected,
    the coroutine of that currency never retries, and every resumption
    brings it nearer to its end, so that it has returned after three
    resumptions at most. Waking from the sleep it still connects, and a
    connection that succeeds is still registered and streamed (lines
    459-460 and 411-413 test nothing); at the next frame the frame is
    discarded unread and the connection closed. A transport error ends
    the coroutine at once: the counter is not raised, and the price of
    the currency is nevertheless overwritten by ["Error"]. *)
Theorem deselected_coroutine_ends c st :
  running st = false ∨ c ∉ selected_currencies st →
  (∀ ws message,
     connect_binance_websocket float_of_str c (Streaming ws) (Message message) st
     = Some (Finished, close_connection ws st))
  ∧ (∀ ph ev e,
       is_transport_error ph ev = true →
       currency_data st !! c = Some e →
       ∃ st', connect_binance_websocket float_of_str c ph ev st = Some (Finished, st')
              ∧ reconnect_attempts st' = reconnect_attempts st
              ∧ currency_data st' !! c
                = Some (CurrencyEntry "Error" (price_change e) (change_24h e)))
  ∧ connect_binance_websocket float_of_str c Sleeping SleepDone st = Some (Connecting, st)
  ∧ (∃ st', connect_binance_websocket float_of_str c Connecting ConnectOk st
            = Some (Streaming (length (connections st)), st')
            ∧ websockets st' !! c = Some (length (connections st))
            ∧ connections st' = connections st ++ [false])
  ∧ (∀ ph ev ph' st',
       connect_binance_websocket float_of_str c ph ev st = Some (ph', st') →
       remaining ph' < remaining ph
       ∧ (running st' = false ∨ c ∉ selected_currencies st')).
Proof.
  intros Hoff.
  assert (Hcond : running st && bool_decide (c ∈ selected_currencies st) = false).
  { destruct Hoff as [->|Hsel]; [done|].
    rewrite (bool_decide_eq_false_2 _ Hsel). apply andb_false_r. }
  assert (Hexc : ∀ st0, running st0 = running st →
            selected_currencies st0 = selected_currencies st →
            (except_handler c st0).1 = Finished).
  { intros st0 Hr Hs. unfold except_handler. rewrite Hr, Hs, Hcond. cbn [andb].
    by destruct (currency_data st0 !! c). }
  split_and!.
  - intros ws message. cbn.
    destruct Hoff as [->|Hsel]; [done|].
    rewrite (bool_decide_eq_false_2 _ Hsel). cbn. by rewrite orb_true_r.
  - intros ph ev e Herr He.
    assert (Hexc' : ∀ st0, running st0 = running st →
              selected_currencies st0 = selected_currencies st →
              currency_data st0 = currency_data st →
              reconnect_attempts st0 = reconnect_attempts st →
              ∃ st', except_handler c st0 = (Finished, st')
                     ∧ reconnect_attempts st' = reconnect_attempts st
                     ∧ currency_data st' !! c
                       = Some (CurrencyEntry "Error" (price_change e) (change_24h e))).
    { intros st0 Hr Hs Hd Ha. unfold except_handler.
      rewrite Hr, Hs, Hcond, Hd, He. cbn [andb]. eexists. split; [done|].
      cbn. by rewrite lookup_insert_eq. }
    destruct ph as [|ws| | |ws'|ws'|ws' m'|ws' m'|ws' s' x' y'|ws' x' y'|ws' y'|ws'|ws'|ws'| | | | |n'| | ], ev as [| |message| | |]; try discriminate; cbn.
    + destruct (Hexc' st) as (st' & -> & ? & ?); try done. by exists st'.
    + destruct (Hexc' (close_connection ws st)) as (st' & -> & ? & ?); try done.
      by exists st'.
  - done.
  - eexists. split; [done|]. cbn. by rewrite lookup_insert_eq.
  - intros ph ev ph' st' Hco.
    destruct (connect_frame float_of_str _ _ _ _ _ _ Hco) as (Hs & _ & Hr & _).
    split; [|by rewrite Hr, Hs].
    destruct ph as [|ws| | |ws'|ws'|ws' m'|ws' m'|ws' s' x' y'|ws' x' y'|ws' y'|ws'|ws'|ws'| | | | |n'| | ], ev as [| |message| | |]; cbn in Hco; try discriminate.
    + injection Hco as <- _. cbn. lia.
    + pose proof (Hexc st eq_refl eq_refl) as H. rewrite (surjective_pairing (except_handler c st)) in Hco.
      injection Hco as <- _. rewrite H. cbn. lia.
    + assert (negb (running st) || negb (bool_decide (c ∈ selected_currencies st)) = true)
        as Hbreak.
      { destruct (running st); [|done]. cbn in Hcond |- *. by rewrite Hcond. }
      rewrite Hbreak in Hco. injection Hco as <- _. cbn. lia.
    + pose proof (Hexc (close_connection ws st) eq_refl eq_refl) as H.
      rewrite (surjective_pairing (except_handler c (close_connection ws st))) in Hco.
      injection Hco as <- _. rewrite H. cbn. lia.
    + injection Hco as <- _. cbn. lia.
    + injection Hco as <- _. cbn. lia.
Qed.

End MessageProperties.

Lemma undecodable_message_dropped_witness :
  connect_binance_websocket no_float "BTC" (Streaming 0)
    (Message (Ok (PyDict [("c", PyStr "n/a"); ("P", PyStr "1.50")]))) btc_streaming
  = Some (Streaming 0, btc_streaming)
  ∧ connect_binance_websocket no_float "BTC" (Streaming 0)
      (Message (Ok (PyDict [("c", PyFloat (float_of_decimal 6789012 2))]))) btc_streaming
    = Some (Streaming 0, btc_streaming).
Proof.
  split.
  - apply undecodable_message_dropped; [reflexivity| |].
    + apply (bool_decide_unpack _). vm_compute. exact I.
    + right. eexists. split; [reflexivity|]. right; left. by exists "n/a".
  - apply undecodable_message_dropped; [reflexivity| |].
    + apply (bool_decide_unpack _). vm_compute. exact I.
    + right. eexists. split; [reflexivity|]. right; right.
      eexists _, _. split; [reflexivity|]. split; [reflexivity|]. by left.
Defined.

Lemma deselected_coroutine_ends_witness :
  let st := (apply_currency_selection WriteOk
               (toggle "BTC" (toggle "ETH" (show_currency_selector btc_streaming)))).1.1 in
  selected_currencies st = ["ETH"]
  ∧ connect_binance_websocket no_float "BTC" (Streaming 0)
      (Message (Ok (PyDict [("c", PyStr "1"); ("P", PyStr "2")]))) st
    = Some (Finished, close_connection 0 st)
  ∧ connect_binance_websocket no_float "BTC" Sleeping SleepDone st = Some (Connecting, st).
Proof.
  intros st.
  destruct (deselected_coroutine_ends no_float "BTC" st) as (Hframe & _ & Hsleep & _).
  - right. apply (bool_decide_unpack _). vm_compute. exact I.
  - split; [reflexivity|]. split; [apply Hframe|exact Hsleep].
Defined.

(** ** The window *)

Local Open Scope Z_scope.

Lemma float_ge_int_value x k :
  is_finite_float x = true →
  float_ge_int x k = true ↔ (inject_Z k <= float_value x)%Q.
Proof.
  destruct x as [s|s| |s m e]; try discriminate; intros _;
    cbn [float_ge_int float_value].
  - rewrite bool_decide_eq_true. unfold Qle. cbn. lia.
  - case_bool_decide as He; rewrite bool_decide_eq_true.
    + by rewrite <- Zle_Qle.
    + unfold Qle. cbn [Qnum Qden inject_Z].
      rewrite Z2Pos.id by (apply Z.pow_pos_nonneg; lia). lia.
Qed.

Lemma float_value_negative x :
  is_finite_float x = true → (float_value x < 0)%Q → sign_bit x = true.
Proof.
  destruct x as [s|s| |s m e]; try discriminate. intros _; cbn.
  destruct s; [done|]. case_bool_decide as He.
  - unfold Qlt. cbn. assert (0 < 2 ^ e) by (apply Z.pow_pos_nonneg; lia). nia.
  - unfold Qlt. cbn. lia.
Qed.

Lemma float_value_positive x :
  is_finite_float x = true → (0 < float_value x)%Q → sign_bit x = false.
Proof.
  destruct x as [s|s| |s m e]; try discriminate. intros _; cbn.
  destruct s; [|done]. case_bool_decide as He.
  - unfold Qlt. cbn. assert (0 < 2 ^ e) by (apply Z.pow_pos_nonneg; lia). nia.
  - unfold Qlt. cbn. lia.
Qed.

Lemma format_signed_chars n x :
  is_finite_float x = true →
  list_ascii_of_string (format_signed n x) =
    ((if sign_bit x then "-"%char else "+"%char)
     :: plain_int (printed_integer n x / 10 ^ Z.of_nat n)
     ++ "."%char :: low_digits n (printed_integer n x))%list.
Proof.
  intros Hfin. destruct x as [s|s| |s m e]; try discriminate;
    cbn [format_signed]; by rewrite list_ascii_of_string_of_list_ascii.
Qed.

Lemma format_signed_head n x :
  is_finite_float x = true →
  ∃ rest, format_signed n x = String (if sign_bit x then "-" else "+")%char rest.
Proof.
  intros Hfin. destruct x as [s|s| |s m e]; try discriminate;
    cbn [format_signed sign_bit]; eexists; reflexivity.
Qed.

Lemma read_plain_int v : 0 ≤ v → read_digits (plain_int v) = v.
Proof.
  intros Hv. rewrite read_digits_fold. unfold plain_int.
  rewrite <- fold_left_rev_right, rev_involutive.
  apply fold_digits_rev. split; [done|by apply digit_fuel_enough].
Qed.

(** X15. The percentage [update_price_display] prints for a finite
    change always starts with a sign, has exactly two decimals, and its
    digits spell the absolute change times 100, rounded to the nearest
    integer (ties to even). *)
Theorem format_signed_two_decimals x :
  is_finite_float x = true →
  (∃ rest, format_signed 2 x = String (if sign_bit x then "-" else "+")%char rest)
  ∧ decimals_shown (format_signed 2 x) = Some 2%nat
  ∧ nearest_even (Qabs (float_value x) * inject_Z (10 ^ Z.of_nat 2))
      (shown_scaled (format_signed 2 x)).
Proof.
  intros Hfin.
  pose proof (printed_integer_nonneg 2 x) as Hk.
  pose proof (format_signed_chars 2 x Hfin) as Hchars.
  set (k := printed_integer 2 x) in *.
  split_and!.
  - by apply format_signed_head.
  - unfold decimals_shown. rewrite Hchars.
    change (?a :: ?l ++ ?r) with ((a :: l) ++ r).
    destruct (before_after_point
                ((if sign_bit x then "-"%char else "+"%char) :: plain_int (k / 10 ^ Z.of_nat 2))
                (low_digits 2 k)) as [_ ->].
    + constructor; [by destruct (sign_bit x)|].
      unfold plain_int. apply Forall_rev.
      eapply Forall_impl; [apply digits_rev_digits|]. cbn. intros a Ha ->. discriminate.
    + change (Some (length (low_digits 2 k)) = Some 2%nat).
      by rewrite low_digits_length.
  - unfold shown_scaled. rewrite Hchars.
    assert (read_digits
              ((if sign_bit x then "-"%char else "+"%char)
               :: plain_int (k / 10 ^ Z.of_nat 2) ++ "."%char :: low_digits 2 k) = k) as ->.
    { rewrite read_digits_fold. cbn [fold_left].
      assert (read_step 0 (if sign_bit x then "-"%char else "+"%char) = 0) as ->
        by by destruct (sign_bit x).
      rewrite fold_left_app, <- read_digits_fold, read_plain_int
        by (apply Z.div_pos; lia).
      cbn [fold_left].
      change (read_step (k / 10 ^ Z.of_nat 2) ".") with (k / 10 ^ Z.of_nat 2).
      rewrite fold_low_digits.
      rewrite (Z.div_mod k (10 ^ Z.of_nat 2)) at 3 by lia. lia. }
    by apply printed_integer_nearest.
Qed.

Lemma format_signed_two_decimals_witness :
  (∃ rest, format_signed 2 (float_of_decimal (-15) 1) = String "-"%char rest)
  ∧ decimals_shown (format_signed 2 (float_of_decimal (-15) 1)) = Some 2%nat
  ∧ nearest_even
      (Qabs (float_value (float_of_decimal (-15) 1)) * inject_Z (10 ^ Z.of_nat 2))
      (shown_scaled (format_signed 2 (float_of_decimal (-15) 1))).
Proof. apply (format_signed_two_decimals (float_of_decimal (-15) 1)). reflexivity. Defined.

(** X16. For an entry whose two change fields agree and are finite, the
    label is red with a down arrow exactly when the change is negative,
    and then the percentage shown starts with a minus sign; a positive
    change is green, arrow up, and shown with a plus sign. *)
Theorem display_sign_consistent (e : currency_entry) :
  price_change e = change_24h e →
  is_finite_float (change_24h e) = true →
  (display_color e = price_down_color ↔ (float_value (change_24h e) < 0)%Q)
  ∧ (display_arrow e = "▼"%string ↔ (float_value (change_24h e) < 0)%Q)
  ∧ ((float_value (change_24h e) < 0)%Q →
       ∃ rest, display_percent e = String "-"%char rest)
  ∧ ((0 < float_value (change_24h e))%Q →
       display_color e = price_up_color
       ∧ ∃ rest, display_percent e = String "+"%char rest).
Proof.
  intros Hagree Hfin. unfold display_color, display_arrow, display_percent.
  rewrite Hagree.
  destruct (format_signed_head 2 (change_24h e) Hfin) as (rest & Hrest).
  pose proof (float_ge_int_value (change_24h e) 0 Hfin) as Hge.
  destruct (float_ge_int (change_24h e) 0) eqn:Hcmp.
  - assert (Hle : (0 <= float_value (change_24h e))%Q) by by apply Hge.
    split_and!.
    + split; [discriminate|]. intros Hlt. by apply Qle_not_lt in Hle.
    + split; [discriminate|]. intros Hlt. by apply Qle_not_lt in Hle.
    + intros Hlt. by apply Qle_not_lt in Hle.
    + intros Hpos. split; [done|]. exists rest.
      by rewrite Hrest, (float_value_positive _ Hfin Hpos).
  - assert (Hlt : (float_value (change_24h e) < 0)%Q).
    { apply Qnot_le_lt. intros Hle. apply Hge in Hle. congruence. }
    split_and!; try done.
    + intros _. exists rest. by rewrite Hrest, (float_value_negative _ Hfin Hlt).
    + intros Hpos. exfalso. eapply Qlt_irrefl, Qlt_trans; [exact Hlt|exact Hpos].
Qed.

Lemma display_sign_consistent_witness :
  let e := CurrencyEntry "67,890.1" (float_of_decimal (-15) 1) (float_of_decimal (-15) 1) in
  display_color e = price_down_color
  ∧ display_percent e = "-1.50"%string.
Proof.
  intros e.
  destruct (display_sign_consistent e eq_refl eq_refl) as (Hcol & _ & _).
  split; [|reflexivity]. apply Hcol. vm_compute. reflexivity.
Defined.

Local Close Scope Z_scope.

(** ** The labels *)

Lemma assoc_lookup_dict_set {A} (c k : string) (v : A) (d : list (string * A)) :
  assoc_lookup c (dict_set k v d) = if decide (c = k) then Some v else assoc_lookup c d.
Proof.
  induction d as [|[k' v'] d IH]; cbn [dict_set assoc_lookup].
  - done.
  - destruct (decide (k = k')) as [<-|Hk]; cbn [assoc_lookup].
    + by destruct (decide (c = k)).
    + destruct (decide (c = k')) as [->|Hc].
      * by rewrite decide_False by done.
      * by rewrite IH.
Qed.

Lemma icon_of_catalog (c : string) :
  c ∈ catalog_codes → ∃ ic, icon_of c = Ok ic.
Proof.
  unfold icon_of, catalog_codes. generalize available_currencies.
  intros d Hc. induction d as [|[k v] d IH]; [by apply elem_of_nil in Hc|].
  cbn [assoc_lookup]. destruct (decide (c = k)) as [->|Hk]; [by eexists|].
  apply IH. cbn in Hc. apply elem_of_cons in Hc as [?|?]; [done|done].
Qed.

Lemma destroy_all_length ids ls : length (destroy_all ids ls) = length ls.
Proof.
  induction ids as [|i ids IH]; [done|]. cbn [destroy_all foldr].
  by rewrite length_alter.
Qed.

Lemma destroy_all_lookup ids ls i :
  destroy_all ids ls !! i
  = if decide (i ∈ ids) then (λ l, Label (text l) (fg l) true) <$> ls !! i
    else ls !! i.
Proof.
  induction ids as [|a ids IH].
  - cbn. by rewrite decide_False by apply not_elem_of_nil.
  - cbn [destroy_all foldr]. fold (destroy_all ids ls).
    rewrite list_lookup_alter. destruct (decide (a = i)) as [->|Ha].
    + rewrite decide_True by by left. rewrite IH.
      destruct (decide (i ∈ ids)); [|done]. by destruct (ls !! i).
    + rewrite IH. apply decide_ext. rewrite elem_of_cons.
      split; [by right|]. by intros [->|?].
Qed.

(** The loop of [update_price_labels] on codes of the catalog: one label
    is appended per entry, and each code ends up registered with the label
    made at its last occurrence. *)
Lemma create_labels_spec cs w :
  Forall (λ c, c ∈ catalog_codes) cs →
  ∃ w' made,
    create_labels cs w = (w', None)
    ∧ height w' = height w
    ∧ labels w' = labels w ++ made
    ∧ length made = length cs
    ∧ (∀ j c, cs !! j = Some c →
         ∃ ic, icon_of c = Ok ic ∧ made !! j = Some (loading_label ic c))
    ∧ (∀ c, c ∉ cs → assoc_lookup c (price_labels w') = assoc_lookup c (price_labels w))
    ∧ (∀ c, c ∈ cs →
         ∃ j, assoc_lookup c (price_labels w') = Some (length (labels w) + j)
              ∧ cs !! j = Some c
              ∧ ∀ j', cs !! j' = Some c → j' ≤ j).
Proof.
  intros Hcat. revert w. induction Hcat as [|c0 cs Hc0 Hcat IH]; intros w.
  - exists w, []. cbn. rewrite app_nil_r. split_and!; try done.
    intros c Hc. by apply elem_of_nil in Hc.
  - destruct (icon_of_catalog c0 Hc0) as [ic Hic].
    cbn [create_labels]. rewrite Hic.
    set (w1 := Window _ _ _).
    destruct (IH w1) as (w' & made & Hrun & Hh & Hl & Hlen & Hmade & Hout & Hin).
    exists w', (loading_label ic c0 :: made). split_and!.
    + done.
    + done.
    + rewrite Hl. cbn [labels w1]. by rewrite <- app_assoc.
    + cbn. by rewrite Hlen.
    + intros [|j] c Hj; cbn in Hj.
      * injection Hj as <-. by exists ic.
      * by apply Hmade.
    + intros c Hc. apply not_elem_of_cons in Hc as [Hne Hc].
      rewrite (Hout c Hc). cbn [price_labels w1].
      by rewrite assoc_lookup_dict_set, decide_False.
    + intros c Hc. destruct (decide (c ∈ cs)) as [Hcs|Hcs].
      * destruct (Hin c Hcs) as (j & Hj & Hjc & Hmax).
        exists (S j). split_and!.
        -- rewrite Hj. cbn [labels w1]. rewrite length_app. cbn. f_equal. lia.
        -- done.
        -- intros [|j'] Hj'; [lia|]. cbn in Hj'. apply Hmax in Hj'. lia.
      * apply elem_of_cons in Hc as [->|Hc]; [|done].
        exists 0. split_and!.
        -- rewrite (Hout c0 Hcs). cbn [price_labels w1].
           rewrite assoc_lookup_dict_set, decide_True by done. f_equal. lia.
        -- done.
        -- intros [|j'] Hj'; [lia|]. cbn in Hj'.
           apply list_elem_of_lookup_2 in Hj'. done.
Qed.

(** [update_price_labels] on codes of the catalog. *)
Lemma update_price_labels_ok sel w :
  Forall (λ c, c ∈ catalog_codes) sel →
  ∃ w' made,
    update_price_labels sel w = (w', None)
    ∧ height w' = 30 + length sel * 25
    ∧ labels w' = destroy_all (price_labels w).*2 (labels w) ++ made
    ∧ length made = length sel
    ∧ (∀ j c, sel !! j = Some c →
         ∃ ic, icon_of c = Ok ic ∧ made !! j = Some (loading_label ic c))
    ∧ (∀ c, c ∉ sel → assoc_lookup c (price_labels w') = None)
    ∧ (∀ c, c ∈ sel →
         ∃ j, assoc_lookup c (price_labels w') = Some (length (labels w) + j)
              ∧ sel !! j = Some c
              ∧ ∀ j', sel !! j' = Some c → j' ≤ j).
Proof.
  intros Hcat. unfold update_price_labels.
  set (cleared := Window _ _ _).
  destruct (create_labels_spec sel cleared Hcat)
    as (w' & made & -> & Hh & Hl & Hlen & Hmade & Hout & Hin).
  eexists _, made. split; [done|]. cbn [height labels price_labels].
  split_and!; try done.
  intros c Hc. destruct (Hin c Hc) as (j & Hj & Hrest). exists j.
  split; [|done]. rewrite Hj. cbn [labels cleared]. by rewrite destroy_all_length.
Qed.

(** X17. [update_price_labels] on a selection of catalog codes does not
    raise, sets the height to 30 + 25 per entry, destroys every label that
    was registered and leaves the others alone, appends one white
    ["Loading..."] label per entry, and registers for each selected code
    the label made at its last occurrence and nothing for any other
    code. *)
Theorem update_price_labels_spec (sel : list string) (w : window) :
  Forall (λ c, c ∈ catalog_codes) sel →
  let w' := (update_price_labels sel w).1 in
  (update_price_labels sel w).2 = None
  ∧ height w' = 30 + length sel * 25
  ∧ length (labels w') = length (labels w) + length sel
  ∧ (∀ i l, labels w !! i = Some l →
       labels w' !! i
       = Some (if decide (i ∈ (price_labels w).*2) then Label (text l) (fg l) true else l))
  ∧ (∀ j c, sel !! j = Some c →
       ∃ ic, icon_of c = Ok ic
             ∧ labels w' !! (length (labels w) + j) = Some (loading_label ic c))
  ∧ (∀ c, c ∉ sel → assoc_lookup c (price_labels w') = None)
  ∧ (∀ c, c ∈ sel →
       ∃ j, assoc_lookup c (price_labels w') = Some (length (labels w) + j)
            ∧ sel !! j = Some c
            ∧ ∀ j', sel !! j' = Some c → j' ≤ j).
Proof.
  intros Hcat w'. subst w'.
  destruct (update_price_labels_ok sel w Hcat)
    as (w' & made & -> & Hh & Hl & Hlen & Hmade & Hout & Hin).
  cbn [fst snd]. split_and!; try done.
  - by rewrite Hl, length_app, destroy_all_length, Hlen.
  - intros i l Hi. rewrite Hl, lookup_app_l
      by (rewrite destroy_all_length; by apply lookup_lt_Some in Hi).
    rewrite destroy_all_lookup, Hi. by destruct (decide _).
  - intros j c Hj. destruct (Hmade j c Hj) as (ic & Hic & Hm). exists ic.
    split; [done|]. rewrite Hl, lookup_app_r by (rewrite destroy_all_length; lia).
    rewrite destroy_all_length. by replace (length (labels w) + j - length (labels w)) with j by lia.
Qed.

Lemma update_price_labels_spec_witness :
  (update_price_labels ["ETH"; "BTC"; "ETH"] (Window [] [] 0)).2 = None
  ∧ height (update_price_labels ["ETH"; "BTC"; "ETH"] (Window [] [] 0)).1 = 105
  ∧ assoc_lookup "ETH" (price_labels (update_price_labels ["ETH"; "BTC"; "ETH"] (Window [] [] 0)).1)
    = Some 2.
Proof.
  destruct (update_price_labels_spec ["ETH"; "BTC"; "ETH"] (Window [] [] 0))
    as (Herr & Hh & _).
  - apply (bool_decide_unpack _). vm_compute. exact I.
  - split; [exact Herr|]. split; [exact Hh|]. vm_compute. reflexivity.
Defined.

(** The label [update_price_display] rewrites on a window just rebuilt
    for a selection [sel] of catalog codes. *)
Lemma update_display_on_labels (st : monitor) (sel : list string) (w0 : window)
    (c : string) (e : currency_entry) :
  Forall (λ c, c ∈ catalog_codes) sel →
  currency_data st !! c = Some e →
  c ∈ sel →
  let w := (update_price_labels sel w0).1 in
  ∃ i ic w',
    assoc_lookup c (price_labels w) = Some i
    ∧ icon_of c = Ok ic
    ∧ update_price_display c st w = Ok w'
    ∧ labels w' !! i = Some (Label (display_text ic c e) (display_color e) false)
    ∧ (∀ k, k ≠ i → labels w' !! k = labels w !! k)
    ∧ price_labels w' = price_labels w
    ∧ height w' = height w.
Proof.
  intros Hcat He Hc w. subst w.
  destruct (update_price_labels_ok sel w0 Hcat)
    as (w & made & -> & Hh & Hl & Hlen & Hmade & Hout & Hin).
  cbn [fst].
  destruct (Hin c Hc) as (j & Hj & Hjc & _).
  destruct (Hmade j c Hjc) as (ic & Hic & Hm).
  assert (Hlab : labels w !! (length (labels w0) + j) = Some (loading_label ic c)).
  { rewrite Hl, lookup_app_r by (rewrite destroy_all_length; lia).
    rewrite destroy_all_length.
    by replace (length (labels w0) + j - length (labels w0)) with j by lia. }
  eexists _, ic, _. split; [exact Hj|]. split; [done|].
  unfold update_price_display. rewrite Hj, He, Hic. cbn [mbind result_bind].
  split; [reflexivity|]. cbn [labels price_labels height]. split_and!; try done.
  - rewrite list_lookup_alter, decide_True by done. by rewrite Hlab.
  - intros k Hk. by rewrite list_lookup_alter_ne.
Qed.

(** X18. After [update_price_labels], [update_price_display] for a
    selected currency rewrites the label registered for it, which is live,
    with the price text and colour of its entry and changes no other
    label; for a currency that is not selected it changes nothing, so the
    display update a coroutine scheduled before its currency was
    de-selected is lost. *)
Theorem display_after_labels (st : monitor) (w0 : window) (c : string) :
  Forall (λ c, c ∈ catalog_codes) (selected_currencies st) →
  is_Some (currency_data st !! c) →
  let w := (update_price_labels (selected_currencies st) w0).1 in
  (c ∉ selected_currencies st → update_price_display c st w = Ok w)
  ∧ (c ∈ selected_currencies st →
       ∃ i ic e w',
         assoc_lookup c (price_labels w) = Some i
         ∧ icon_of c = Ok ic
         ∧ currency_data st !! c = Some e
         ∧ update_price_display c st w = Ok w'
         ∧ labels w' !! i = Some (Label (display_text ic c e) (display_color e) false)
         ∧ (∀ k, k ≠ i → labels w' !! k = labels w !! k)
         ∧ price_labels w' = price_labels w
         ∧ height w' = height w).
Proof.
  intros Hcat [e He] w. split.
  - intros Hc. subst w.
    destruct (update_price_labels_ok (selected_currencies st) w0 Hcat)
      as (w & made & -> & _ & _ & _ & _ & Hout & _).
    cbn [fst]. unfold update_price_display. by rewrite (Hout c Hc).
  - intros Hc.
    destruct (update_display_on_labels st (selected_currencies st) w0 c e Hcat He Hc)
      as (i & ic & w' & H).
    exists i, ic, e, w'. tauto.
Qed.

Lemma display_after_labels_witness :
  update_price_display "BNB" btc_streaming
    (update_price_labels (selected_currencies btc_streaming) (Window [] [] 0)).1
  = Ok (update_price_labels (selected_currencies btc_streaming) (Window [] [] 0)).1.
Proof.
  apply (proj1 (display_after_labels btc_streaming (Window [] [] 0) "BNB"
                  ltac:(apply (bool_decide_unpack _); vm_compute; exact I)
                  ltac:(vm_compute; eauto))).
  apply (bool_decide_unpack _). vm_compute. exact I.
Defined.

Section WindowProperties.

Variable float_of_str : string → option spec_float.

(** X19. In no reachable state does the window code raise: rebuilding the
    labels for the current selection finds every icon and sets a height of
    55 to 105, and on the rebuilt window [update_price_display] returns
    normally for every currency code, selected or not. *)
Theorem reachable_window_ok f st (w0 : window) (c : string) :
  reachable float_of_str f st →
  let r := update_price_labels (selected_currencies st) w0 in
  r.2 = None
  ∧ 55 ≤ height r.1 ≤ 105
  ∧ ∃ w', update_price_display c st r.1 = Ok w'.
Proof.
  intros Hreach r. subst r.
  destruct (reachable_system_invariant float_of_str f st Hreach) as [[Hlen Hcat] _].
  pose proof (reachable_inv float_of_str f st Hreach) as Hdata.
  destruct (update_price_labels_ok (selected_currencies st) w0 Hcat)
    as (w & made & -> & Hh & _ & _ & _ & Hout & _).
  cbn [fst snd]. split_and!; [done|lia|lia|].
  unfold update_price_display.
  destruct (assoc_lookup c (price_labels w)) as [i|] eqn:Hi; [|by eexists].
  assert (Hc : c ∈ selected_currencies st).
  { destruct (decide (c ∈ selected_currencies st)) as [|Hn]; [done|].
    rewrite (Hout c Hn) in Hi. discriminate. }
  rewrite Forall_forall in Hcat. apply Hcat in Hc.
  destruct (Hdata c Hc) as [e ->]. destruct (icon_of_catalog c Hc) as [ic ->].
  by eexists.
Qed.

End WindowProperties.

Lemma reachable_window_ok_witness :
  (update_price_labels (selected_currencies (failed_attempts 6)) (Window [] [] 0)).2 = None
  ∧ 55 ≤ height (update_price_labels (selected_currencies (failed_attempts 6))
                   (Window [] [] 0)).1 ≤ 105
  ∧ ∃ w', update_price_display "BTC" (failed_attempts 6)
            (update_price_labels (selected_currencies (failed_attempts 6))
               (Window [] [] 0)).1 = Ok w'.
Proof.
  exact (reachable_window_ok no_float FileAbsent (failed_attempts 6) (Window [] [] 0) "BTC"
           (failed_attempts_reachable 6)).
Defined.

(** ** From a frame to the label *)

Section PipelineProperties.

Variable float_of_str : string → option spec_float.

(** X20. A well-formed ticker frame for a selected currency of a running
    program goes all the way to the window: the coroutine stays in the
    receive loop, the entry of the currency holds the formatted last price
    and twice the parsed change, one display update is queued, and that
    update writes the price, the arrow and the percentage of exactly this
    frame into the label registered for the currency. *)
Theorem tick_reaches_label f st c ws d vc vp p q (w0 : window) :
  reachable float_of_str f st →
  running st = true →
  c ∈ selected_currencies st →
  assoc_lookup "c" d = Some vc → py_float float_of_str vc = Ok p →
  assoc_lookup "P" d = Some vp → py_float float_of_str vp = Ok q →
  let e := CurrencyEntry (formatted_price p) q q in
  let w := (update_price_labels (selected_currencies st) w0).1 in
  ∃ st' i ic w',
    connect_binance_websocket float_of_str c (Streaming ws) (Message (Ok (PyDict d))) st
    = Some (Streaming ws, st')
    ∧ currency_data st' = <[c := e]> (currency_data st)
    ∧ scheduled st' = scheduled st ++ [c]
    ∧ selected_currencies st' = selected_currencies st
    ∧ reconnect_attempts st' = reconnect_attempts st
    ∧ assoc_lookup c (price_labels w) = Some i
    ∧ icon_of c = Ok ic
    ∧ update_price_display c st' w = Ok w'
    ∧ labels w' !! i = Some (Label (display_text ic c e) (display_color e) false).
Proof.
  intros Hreach Hrun Hsel Hc Hp HP Hq e w.
  destruct (reachable_system_invariant float_of_str f st Hreach) as [[_ Hcat] _].
  pose proof (reachable_inv float_of_str f st Hreach) as Hdata.
  assert (Hin : c ∈ catalog_codes) by (rewrite Forall_forall in Hcat; by apply Hcat).
  destruct (Hdata c Hin) as [e0 He0].
  set (st' := schedule_display c (set_currency_data (<[c := e]> (currency_data st)) st)).
  assert (Hmsg : handle_message float_of_str c (Ok (PyDict d)) st = Ok st').
  { unfold handle_message, handle_message_try. cbn [mbind result_bind].
    change (py_getitem (PyDict d) "c") with
      (match assoc_lookup "c" d with Some v => Ok v | None => Raise KeyError end).
    change (py_getitem (PyDict d) "P") with
      (match assoc_lookup "P" d with Some v => Ok v | None => Raise KeyError end).
    rewrite Hc, HP. cbn [mbind mret result_bind]. rewrite Hp. cbn [mbind result_bind].
    rewrite Hq. cbn [mbind result_bind]. rewrite He0. done. }
  assert (He : currency_data st' !! c = Some e) by (cbn; by rewrite lookup_insert_eq).
  destruct (update_display_on_labels st' (selected_currencies st) w0 c e Hcat He Hsel)
    as (i & ic & w' & Hi & Hic & Hdisp & Hlab & _).
  exists st', i, ic, w'. split_and!; try done.
  cbn. rewrite Hrun, (bool_decide_eq_true_2 _ Hsel). cbn. by rewrite Hmsg.
Qed.

End PipelineProperties.

Lemma tick_reaches_label_witness :
  ∃ st' i ic w',
    connect_binance_websocket no_float "BTC" (Streaming 0)
      (Message (Ok (PyDict [("c", PyFloat (float_of_decimal 6789012 2));
                            ("P", PyFloat (float_of_decimal (-15) 1))]))) btc_streaming
    = Some (Streaming 0, st')
    ∧ currency_data st'
      = <["BTC" := CurrencyEntry (formatted_price (float_of_decimal 6789012 2))
                     (float_of_decimal (-15) 1) (float_of_decimal (-15) 1)]>
          (currency_data btc_streaming)
    ∧ scheduled st' = scheduled btc_streaming ++ ["BTC"]
    ∧ selected_currencies st' = selected_currencies btc_streaming
    ∧ reconnect_attempts st' = reconnect_attempts btc_streaming
    ∧ assoc_lookup "BTC"
        (price_labels (update_price_labels (selected_currencies btc_streaming)
                         (Window [] [] 0)).1) = Some i
    ∧ icon_of "BTC" = Ok ic
    ∧ update_price_display "BTC" st'
        (update_price_labels (selected_currencies btc_streaming) (Window [] [] 0)).1 = Ok w'
    ∧ labels w' !! i
      = Some (Label
                (display_text ic "BTC"
                   (CurrencyEntry (formatted_price (float_of_decimal 6789012 2))
                      (float_of_decimal (-15) 1) (float_of_decimal (-15) 1)))
                (display_color
                   (CurrencyEntry (formatted_price (float_of_decimal 6789012 2))
                      (float_of_decimal (-15) 1) (float_of_decimal (-15) 1)))
                false).
Proof.
  assert (Hreach : reachable no_float FileAbsent btc_streaming).
  { change btc_streaming with (resume no_float 0 ConnectOk (run fresh_monitor)).
    apply resume_reachable. eapply reachable_run. reflexivity. }
  apply (tick_reaches_label no_float FileAbsent btc_streaming "BTC" 0 _
           (PyFloat (float_of_decimal 6789012 2)) (PyFloat (float_of_decimal (-15) 1))
           (float_of_decimal 6789012 2) (float_of_decimal (-15) 1) (Window [] [] 0) Hreach).
  - vm_compute. reflexivity.
  - apply (bool_decide_unpack _). vm_compute. exact I.
  - reflexivity.
  - reflexivity.
  - reflexivity.
  - reflexivity.
Defined.

(** ** A failed save *)

(** X21. [save_settings] swallows a failed write, so an accepted
    [apply_currency_selection] changes the selection in memory whatever
    happens to the file; what the next start loads is then the old file
    (when it could not be opened for writing) or [["BTC"]] (when the write
    broke off and left the file undecodable), not the selection in use. *)
Theorem apply_with_failed_save (io : write_outcome) (st : monitor) :
  1 ≤ length (new_selection_of (currency_vars st)) ≤ 3 →
  io ≠ WriteOk →
  let st' := (apply_currency_selection io st).1.1 in
  selected_currencies st' = new_selection_of (currency_vars st)
  ∧ (apply_currency_selection io st).2 = Ok PyNone
  ∧ load_settings (settings_file st')
    = match io with
      | WriteFailsMidway => Ok ["BTC"]
      | _ => load_settings (settings_file st)
      end.
Proof.
  intros Hlen Hio st'. subst st'.
  destruct (apply_accepted io st Hlen) as (Hs & Hf & Hr & _).
  split; [exact Hs|]. split; [exact Hr|]. rewrite Hf.
  by destruct io.
Qed.

Lemma apply_with_failed_save_witness :
  selected_currencies
    (apply_currency_selection WriteOpenFails (toggle "ETH" selector_opened)).1.1
  = new_selection_of (currency_vars (toggle "ETH" selector_opened))
  ∧ load_settings
      (settings_file
         (apply_currency_selection WriteOpenFails (toggle "ETH" selector_opened)).1.1)
    = load_settings (settings_file (toggle "ETH" selector_opened)).
Proof.
  destruct (apply_with_failed_save WriteOpenFails (toggle "ETH" selector_opened))
    as (Hs & _ & Hl).
  - vm_compute. lia.
  - discriminate.
  - split; [exact Hs|exact Hl].
Defined.

(** ** Threads of one currency racing *)

(** X22. With two threads of one currency the reconnect counter passes
    the limit: both coroutines test it at 4, before either has stored
    its increment, and the two increments bring it to 6. The second
    thread is there without any "Reconnect": ETH was added in the
    selector while the first BTC thread was still connecting. *)
Theorem counter_passes_limit :
  exec no_float racing_failures (run fresh_monitor) = Some raced
  ∧ reachable no_float FileAbsent raced
  ∧ threads raced = [("BTC", Sleeping); ("BTC", Sleeping); ("ETH", Connecting)]
  ∧ reconnect_attempts raced !! "BTC" = Some 6
  ∧ max_reconnect_attempts < 6
  ∧ ¬ single_thread "BTC" raced.
Proof.
  assert (Hexec : exec no_float racing_failures (run fresh_monitor) = Some raced)
    by (vm_compute; reflexivity).
  split_and!.
  - exact Hexec.
  - eapply exec_reachable; [|exact Hexec]. eapply reachable_run. reflexivity.
  - vm_compute. reflexivity.
  - vm_compute. reflexivity.
  - unfold max_reconnect_attempts. lia.
  - intros Hsingle.
    assert (H : 0 = 1); [|discriminate].
    apply (Hsingle 0 1 Sleeping Sleeping); vm_compute; reflexivity.
Qed.

(** X23. With two threads of one currency the three stores of lines
    438-440 of one frame can be crossed by those of another: the entry is
    left with the price and [price_change] of one frame and the
    [change_24h] of the other, and the label then shows the red down
    arrow next to a positive percentage. *)
Theorem frames_cross :
  exec no_float crossing_frames (run fresh_monitor) = Some crossed
  ∧ reachable no_float FileAbsent crossed
  ∧ threads crossed = [("BTC", Streaming 0); ("BTC", Streaming 1)]
  ∧ (∃ e, currency_data crossed !! "BTC" = Some e
          ∧ price_change e = float_of_decimal (-25) 1
          ∧ change_24h e = float_of_decimal 15 1
          ∧ display_arrow e = "▼"
          ∧ display_percent e = "+1.50").
Proof.
  assert (Hexec : exec no_float crossing_frames (run fresh_monitor) = Some crossed)
    by (vm_compute; reflexivity).
  split_and!.
  - exact Hexec.
  - eapply exec_reachable; [|exact Hexec]. eapply reachable_run. reflexivity.
  - vm_compute. reflexivity.
  - eexists. split_and!; vm_compute; reflexivity.
Qed.

(** X24. Quitting does not stop a retry that is under way: a coroutine
    that has read [self.running] before [quit_application] cleared it
    still raises its counter afterwards and goes to sleep for another
    attempt. *)
Theorem retry_survives_quit :
  exec no_float quit_during_retry (run fresh_monitor) = Some quit_mid_retry
  ∧ running quit_mid_retry = false
  ∧ threads quit_mid_retry = [("BTC", ExceptChecked)]
  ∧ reconnect_attempts quit_mid_retry !! "BTC" = Some 0
  ∧ exec no_float late_retry quit_mid_retry = Some retried_after_quit
  ∧ reachable no_float FileAbsent retried_after_quit
  ∧ running retried_after_quit = false
  ∧ threads retried_after_quit = [("BTC", Sleeping)]
  ∧ reconnect_attempts retried_after_quit !! "BTC" = Some 1.
Proof.
  assert (H1 : exec no_float quit_during_retry (run fresh_monitor) = Some quit_mid_retry)
    by (vm_compute; reflexivity).
  assert (H2 : exec no_float late_retry quit_mid_retry = Some retried_after_quit)
    by (vm_compute; reflexivity).
  split_and!; try (vm_compute; reflexivity); try done.
  eapply exec_reachable; [|exact H2].
  eapply exec_reachable; [|exact H1]. eapply reachable_run. reflexivity.
Qed.
